(** * maoer_csv: engagement statistics for episodic audio dramas

    A shallow embedding of [maoer_csv.py].  The program talks to an HTTP
    server, so every function of the API client is embedded as a
    computation in a small monad that records the requests it issues and
    ends in a Python-level outcome: a value, a raised exception, or
    divergence (the pagination loop is a [while True]).

    Boundaries of the embedding (library code, not code of this program):
    - the server is a function [request -> reply];
    - [response.json()] and [ETree.fromstring] are taken as given: a reply
      carries the decoded JSON document and the parsed XML tree, when the
      body has one;
    - [requests] is taken at version 2.27 or later, where the exception
      raised by [response.json()] is a [RequestException];
    - the interpreter is CPython 3.11 on Linux with a 64-bit [time_t], and
      the local time zone is UTC;
    - JSON numbers are integers; strings are ASCII strings; a [datetime] is
      represented by the epoch second it was built from, and ordered by
      it. *)

From Stdlib Require Import ZArith Ascii String.
From stdpp Require Import base option list sorting gmap strings.

Set Warnings "-register-all".
Local Open Scope string_scope.
Local Open Scope Z_scope.

(** ** Python outcomes *)

(** The exception classes the program can meet.  [ConnectionError],
    [HTTPError] and [JSONDecodeError] are the subclasses of
    [requests.RequestException] that the three steps of a fetch raise.
    [FormatError] stands for what [str.format] raises on a template it
    rejects: [ValueError], [IndexError], [KeyError], [AttributeError],
    [TypeError] or [MemoryError], by the replacement field it meets; none
    of them is a [RequestException]. *)
Inductive exn :=
| ConnectionError | HTTPError | JSONDecodeError
| ParseError
| KeyError | IndexError | TypeError | ValueError | AttributeError
| OverflowError | OSError
| FormatError.

(** [except requests.RequestException] *)
Definition is_RequestException (e : exn) : bool :=
  match e with
  | ConnectionError | HTTPError | JSONDecodeError => true
  | _ => false
  end.

(** [except (requests.RequestException, ETree.ParseError)] *)
Definition is_RequestException_or_ParseError (e : exn) : bool :=
  match e with
  | ParseError => true
  | _ => is_RequestException e
  end.

Inductive outcome (A : Type) :=
| Ok (a : A)
| Raise (e : exn)
| Diverge.
Arguments Ok {A} a.
Arguments Raise {A} e.
Arguments Diverge {A}.

#[global] Instance outcome_ret : MRet outcome := @Ok.
#[global] Instance outcome_bind : MBind outcome := fun A B f m =>
  match m with
  | Ok a => f a
  | Raise e => Raise e
  | Diverge => Diverge
  end.

Definition is_Ok {A} (o : outcome A) : bool :=
  match o with Ok _ => true | _ => false end.

Definition of_option {A} (o : option A) (e : exn) : outcome A :=
  match o with Some a => Ok a | None => Raise e end.

(** Evaluate [f] on the elements of a list from left to right, stopping at
    the first one that raises: a comprehension or generator body. *)
Fixpoint traverse {A B} (f : A -> outcome B) (l : list A) : outcome (list B) :=
  match l with
  | [] => Ok []
  | x :: l' => y ← f x; ys ← traverse f l'; Ok (y :: ys)
  end.

(** ** Python values *)

(** A decoded JSON document, as [json.loads] builds it.  An object is kept
    as the list of its members; [assoc] reads it as a [dict]: of two
    members with one key, the later one stays. *)
Inductive json :=
| JNull
| JBool (b : bool)
| JInt (n : Z)
| JStr (s : string)
| JArr (l : list json)
| JObj (kvs : list (string * json)).

Fixpoint assoc {V} (k : string) (kvs : list (string * V)) : option V :=
  match kvs with
  | [] => None
  | (k', v) :: kvs' =>
      match assoc k kvs' with
      | Some v' => Some v'
      | None => if String.eqb k k' then Some v else None
      end
  end.

(** The keys of the dict, in the order in which they were first inserted. *)
Fixpoint dict_keys {V} (kvs : list (string * V)) : list string :=
  match kvs with
  | [] => []
  | (k, _) :: kvs' => k :: List.filter (fun k' => negb (String.eqb k' k)) (dict_keys kvs')
  end.

(** [v.get(k, default)]: only a dict has [get]. *)
Definition dict_get (v : json) (k : string) (default : json) : outcome json :=
  match v with
  | JObj kvs => Ok (from_option id default (assoc k kvs))
  | _ => Raise AttributeError
  end.

(** [v[k]] for a string key [k]. *)
Definition subscript (v : json) (k : string) : outcome json :=
  match v with
  | JObj kvs => of_option (assoc k kvs) KeyError
  | _ => Raise TypeError
  end.

Definition chars (s : string) : list json :=
  (fun c => JStr (String c EmptyString)) <$> list_ascii_of_string s.

(** [for x in v]: a list yields its items, a dict its keys, a string its
    characters; nothing else is iterable. *)
Definition py_iter (v : json) : outcome (list json) :=
  match v with
  | JArr l => Ok l
  | JObj kvs => Ok (JStr <$> dict_keys kvs)
  | JStr s => Ok (chars s)
  | _ => Raise TypeError
  end.

(** Truth value of an object, as [not v] and [if v] test it. *)
Definition truthy (v : json) : bool :=
  match v with
  | JNull => false
  | JBool b => b
  | JInt n => negb (n =? 0)
  | JStr s => negb (String.eqb s "")
  | JArr l => negb (Nat.eqb (length l) 0)
  | JObj kvs => negb (Nat.eqb (length kvs) 0)
  end.

(** *** [str.strip()] *)

(** White space as [str.strip] sees it in an ASCII string. *)
Definition is_space (c : ascii) : bool :=
  let n := nat_of_ascii c in
  ((9 <=? n) && (n <=? 13) || (28 <=? n) && (n <=? 32))%nat.

Fixpoint lstrip (l : list ascii) : list ascii :=
  match l with
  | c :: l' => if is_space c then lstrip l' else l
  | [] => []
  end.

(** [s.strip()] *)
Definition strip (s : string) : string :=
  string_of_list_ascii (rev (lstrip (rev (lstrip (list_ascii_of_string s))))).

(** *** [int(...)] *)

(** White space as [int] skips it at both ends of an ASCII string: the
    characters of C's [isspace], which leaves out 28 to 31. *)
Definition is_int_space (c : ascii) : bool :=
  let n := nat_of_ascii c in
  ((9 <=? n) && (n <=? 13) || (n =? 32))%nat.

Fixpoint int_lstrip (l : list ascii) : list ascii :=
  match l with
  | c :: l' => if is_int_space c then int_lstrip l' else l
  | [] => []
  end.

Definition digit_of (c : ascii) : option Z :=
  let n := nat_of_ascii c in
  if ((48 <=? n) && (n <=? 57))%nat then Some (Z.of_nat n - 48) else None.

(** Decimal digits, where a single underscore may separate two digits. *)
Fixpoint digits (acc : Z) (after_digit : bool) (l : list ascii) : option Z :=
  match l with
  | [] => if after_digit then Some acc else None
  | c :: l' =>
      match digit_of c with
      | Some d => digits (10 * acc + d) true l'
      | None =>
          if Ascii.eqb c "_" && after_digit then digits acc false l' else None
      end
  end.

(** The number of digits of a literal; [int] refuses more than 4300. *)
Definition count_digits (l : list ascii) : nat :=
  length (List.filter (fun c => bool_decide (is_Some (digit_of c))) l).

Definition int_digits (l : list ascii) : option Z :=
  if (4300 <? count_digits l)%nat then None else digits 0 false l.

(** [int(s)] for a string: surrounding white space, an optional sign, then
    digits. *)
Definition int_of_str (s : string) : option Z :=
  match rev (int_lstrip (rev (int_lstrip (list_ascii_of_string s)))) with
  | "-"%char :: l => Z.opp <$> int_digits l
  | "+"%char :: l => int_digits l
  | l => int_digits l
  end.

(** [int(v)] *)
Definition py_int (v : json) : outcome Z :=
  match v with
  | JInt n => Ok n
  | JBool b => Ok (if b then 1 else 0)
  | JStr s => of_option (int_of_str s) ValueError
  | _ => Raise TypeError
  end.

(** *** Equality and ordering *)

(** A number: an int, or a bool, which is the int 0 or 1. *)
Definition num_of (v : json) : option Z :=
  match v with
  | JInt n => Some n
  | JBool b => Some (if b then 1 else 0)
  | _ => None
  end.

Definition has_key {V} (k : string) (kvs : list (string * V)) : bool :=
  existsb (fun kv => String.eqb k kv.1) kvs.

(** [a == b]: numbers by value, strings and [None] as such, lists item by
    item, dicts key by key. *)
Fixpoint py_eq (a b : json) {struct a} : bool :=
  match a, b with
  | JNull, JNull => true
  | JStr s, JStr t => String.eqb s t
  | JArr l, JArr m =>
      (fix items (l m : list json) {struct l} : bool :=
         match l, m with
         | [], [] => true
         | x :: l', y :: m' => py_eq x y && items l' m'
         | _, _ => false
         end) l m
  | JObj kvs, JObj kvs' =>
      Nat.eqb (length (dict_keys kvs)) (length (dict_keys kvs'))
      && (fix members (rest : list (string * json)) {struct rest} : bool :=
            match rest with
            | [] => true
            | (k, v) :: rest' =>
                (if has_key k rest' then true
                 else match assoc k kvs' with
                      | Some w => py_eq v w
                      | None => false
                      end)
                && members rest'
            end) kvs
  | _, _ =>
      match num_of a, num_of b with
      | Some x, Some y => x =? y
      | _, _ => false
      end
  end.

(** [a < b]: defined on two numbers, on two strings, and on two lists,
    which are compared at their first items that differ; every other pair
    of operands raises [TypeError]. *)
Fixpoint py_lt (a b : json) {struct a} : outcome bool :=
  match a, b with
  | JStr s, JStr t => Ok (String.ltb s t)
  | JArr l, JArr m =>
      (fix items (l m : list json) {struct l} : outcome bool :=
         match l, m with
         | [], [] => Ok false
         | [], _ :: _ => Ok true
         | _ :: _, [] => Ok false
         | x :: l', y :: m' => if py_eq x y then items l' m' else py_lt x y
         end) l m
  | _, _ =>
      match num_of a, num_of b with
      | Some x, Some y => Ok (x <? y)
      | _, _ => Raise TypeError
      end
  end.

(** [a > b] is [b < a] on these operands. *)
Definition py_gt (a b : json) : outcome bool := py_lt b a.
Arguments py_gt : simpl never.

(** *** [str.split(",")] *)

Fixpoint split_on (sep : ascii) (cur : list ascii) (l : list ascii) : list string :=
  match l with
  | [] => [string_of_list_ascii (rev cur)]
  | c :: l' =>
      if Ascii.eqb c sep
      then string_of_list_ascii (rev cur) :: split_on sep [] l'
      else split_on sep (c :: cur) l'
  end.

Definition split_comma (s : string) : list string :=
  split_on "," [] (list_ascii_of_string s).

(** *** [datetime] *)

Record datetime := Datetime { timestamp : Z }.

Definition datetime_lt (a b : datetime) : bool := timestamp a <? timestamp b.

(** [datetime.datetime.fromtimestamp(v)].  A number that does not fit
    [time_t] raises [OverflowError]; one whose year the C library cannot
    hold raises [OSError]; one outside 0001-01-02 to 9999-12-31 raises
    [ValueError] (the first day of year 1 is refused too: a day earlier is
    looked at).  What is not a number raises [TypeError]. *)
Definition fromtimestamp (v : json) : outcome datetime :=
  match num_of v with
  | Some n =>
      if (n <? -9223372036854775808) || (9223372036854775807 <? n)
      then Raise OverflowError
      else if (n <? -67768040609740800) || (67768036191676799 <? n)
      then Raise OSError
      else if (n <? -62135510400) || (253402300799 <? n)
      then Raise ValueError
      else Ok (Datetime n)
  | None => Raise TypeError
  end.

(** *** XML *)

Inductive element :=
| Element (tag : string) (attrib : list (string * string)) (children : list element).

Definition tag (e : element) : string := let 'Element t _ _ := e in t.
Definition attrib (e : element) : list (string * string) := let 'Element _ a _ := e in a.
Definition children (e : element) : list element := let 'Element _ _ c := e in c.

(** [e.findall(t)] for a plain tag name: the direct children with that tag. *)
Definition findall (t : string) (e : element) : list element :=
  List.filter (fun c => String.eqb (tag c) t) (children e).

(** ** The network *)

(** The four URLs the program requests, under [BASE_URL]:
    - [/dramaapi/getdrama?drama_id={drama_id}]
    - [/sound/getsound?soundid={soundid}]
    - [/sound/getdm?soundid={soundid}]
    - [/site/getcomment?type=1&e_id={e_id}&order=3&p={p}&pagesize={pagesize}]
    An identifier enters the URL through [str]; a request keeps the value
    itself.  The last URL is built by [str.format], which reads braces in
    the text of the identifier: see [endpoint_format]. *)
Inductive request :=
| getdrama (drama_id : string)
| getsound (soundid : json)
| getdm (soundid : json)
| getcomment (e_id : json) (p : Z) (pagesize : Z).

(** What the program looks at in a response: the status code, and the body
    as [response.json()] and [ETree.fromstring(response.text)] read it
    ([None] where that parser rejects the body). *)
Record response := Response {
  status_code : Z;
  json_doc : option json;
  xml_doc : option element;
}.

(** [NoReply]: [requests.get] raised (no connection, time-out, ...). *)
Inductive reply :=
| NoReply
| Reply (r : response).

Definition network := request -> reply.

(** A computation of the client: the requests it sent, in order, and how it
    ended. *)
Record io (A : Type) := IO {
  sent : list request;
  result : outcome A;
}.
Arguments IO {A} sent result.
Arguments sent {A} i.
Arguments result {A} i.

#[global] Instance io_ret : MRet io := fun A a => IO [] (Ok a).
#[global] Instance io_bind : MBind io := fun A B f m =>
  match result m with
  | Ok a => IO (sent m ++ sent (f a)) (result (f a))
  | Raise e => IO (sent m) (Raise e)
  | Diverge => IO (sent m) Diverge
  end.

(** A step that sends nothing. *)
Definition lift {A} (o : outcome A) : io A := IO [] o.

(** [try: body except <caught>: handler] *)
Definition try_except {A} (body : io A) (caught : exn -> bool) (handler : io A) : io A :=
  match result body with
  | Raise e =>
      if caught e then IO (sent body ++ sent handler) (result handler) else body
  | _ => body
  end.

(** ** Records of the program *)

(** An item of [sound_lists]. *)
Module Sound.
Record t := Make {
  sound_id : json;
  sound_title : json;
  need_pay : json;
}.
End Sound.

(** The keys [get_sound_detail] fills on success.  On failure it returns
    the empty dict, which has none of them. *)
Module Detail.
Record t := Make {
  view_count : json;
  view_count_formatted : json;
  comment_count : json;
  favorite_count : json;
  username : json;
  create_time : datetime;
}.
End Detail.

(** The dict [process_sound] returns: the detail keys when the detail fetch
    succeeded, and the six keys of its [update], which are always there. *)
Module SoundDetail.
Record t := Make {
  detail : option Detail.t;
  sound_id : json;
  sound_title : json;
  need_pay : json;
  danmaku_uids : gset Z;
  comment_uids : gset Z;
  total_sound_uids : gset Z;
}.

(** [sound_detail['create_time']] and [sound_detail['view_count']] *)
Definition create_time (d : t) : outcome datetime :=
  of_option (Detail.create_time <$> detail d) KeyError.
Definition view_count (d : t) : outcome json :=
  of_option (Detail.view_count <$> detail d) KeyError.
End SoundDetail.

(** ** API client *)

(** [response.raise_for_status()] *)
Definition raise_for_status (r : response) : outcome unit :=
  if (400 <=? status_code r) && (status_code r <? 600) then Raise HTTPError else Ok tt.

(** [response.json()] *)
Definition response_json (r : response) : outcome json :=
  of_option (json_doc r) JSONDecodeError.

(** [ETree.fromstring(response.text)] *)
Definition ETree_fromstring (r : response) : outcome element :=
  of_option (xml_doc r) ParseError.

(** One comment of a threaded page: [int(comment["userid"])]. *)
Definition userid_of (comment : json) : outcome Z :=
  u ← subscript comment "userid"; py_int u.

(** [int(sub["userid"]) for sub in comment["subcomments"]] *)
Definition subcomment_userids (comment : json) : outcome (list Z) :=
  sc ← subscript comment "subcomments";
  subs ← py_iter sc;
  traverse userid_of subs.

(** [data["info"]["comment"][k]] *)
Definition comment_field (data : json) (k : string) : outcome json :=
  info ← subscript data "info";
  comment ← subscript info "comment";
  subscript comment k.

Definition extract_user_ids (data : json) : outcome (gset Z) :=
  datas ← comment_field data "Datas";
  comments ← py_iter datas;
  user_ids ← traverse userid_of comments;
  datas' ← comment_field data "Datas";
  comments' ← py_iter datas';
  subs ← traverse subcomment_userids comments';
  Ok (list_to_set user_ids ∪ list_to_set (concat subs)).

(** The fields of the [p] attribute of a [<d>] element. *)
Definition p_fields (item : element) : outcome (list string) :=
  p ← of_option (assoc "p" (attrib item)) KeyError;
  Ok (split_comma p).

(** One [<d>] element of the comprehension in [fetch_all_danmakus]: the
    condition first, then the value when the condition holds. *)
Definition danmaku_uid (item : element) : outcome (option Z) :=
  fs ← p_fields item;
  kind ← of_option (fs !! 1%nat) IndexError;
  if String.eqb kind "4" then Ok None
  else
    fs' ← p_fields item;
    uid ← of_option (fs' !! 6%nat) IndexError;
    n ← of_option (int_of_str uid) ValueError;
    Ok (Some n).

(** [endpoint.format(page)], where [endpoint] holds the text of the
    identifier.  [str.format] takes a doubled brace for one brace, and any
    other brace for the start or the end of a replacement field; the one
    field of [endpoint] takes [page], so a field in the text of the
    identifier makes [format] raise.  The text of a list is that of its
    items, a string among them as it is written; the text of a dict starts
    with a brace that is not doubled. *)
Definition is_brace (c : ascii) : bool :=
  (Ascii.eqb c "{" || Ascii.eqb c "}")%char.

Fixpoint unescape_braces (l : list ascii) : option (list ascii) :=
  match l with
  | [] => Some []
  | c :: l' =>
      if is_brace c then
        match l' with
        | c' :: l'' =>
            if Ascii.eqb c c' then cons c <$> unescape_braces l'' else None
        | [] => None
        end
      else cons c <$> unescape_braces l'
  end.

(** The identifier as the formatted URL holds it. *)
Fixpoint format_identifier (v : json) : option json :=
  match v with
  | JStr s =>
      (fun l => JStr (string_of_list_ascii l))
        <$> unescape_braces (list_ascii_of_string s)
  | JArr l =>
      JArr <$> (fix items (l : list json) : option (list json) :=
                  match l with
                  | [] => Some []
                  | x :: l' =>
                      x' ← format_identifier x; l'' ← items l'; Some (x' :: l'')
                  end) l
  | JObj _ => None
  | _ => Some v
  end.

Definition endpoint_format (sound_id : json) : outcome json :=
  of_option (format_identifier sound_id) FormatError.

Section Client.
Variable net : network.

(** [requests.get(url)] *)
Definition requests_get (r : request) : io response :=
  IO [r] (match net r with
          | NoReply => Raise ConnectionError
          | Reply resp => Ok resp
          end).

Definition get_drama_sound_lists (drama_id : string)
  : io (list Sound.t * json * json * json * json) :=
  try_except
    (response ← requests_get (getdrama drama_id);
     lift (
       _ ← raise_for_status response;
       body ← response_json response;
       data ← dict_get body "info" (JObj []);
       drama ← dict_get data "drama" (JObj []);
       eps ← dict_get data "episodes" (JObj []);
       episodes ← dict_get eps "episode" (JArr []);
       items ← py_iter episodes;
       sound_lists ← traverse (fun episode =>
           sid ← subscript episode "sound_id";
           title ← subscript episode "soundstr";
           pay ← dict_get episode "need_pay" (JInt 0);
           Ok (Sound.Make sid title pay)) items;
       name ← dict_get drama "name" JNull;
       price ← dict_get drama "price" JNull;
       view_count ← dict_get drama "view_count" JNull;
       catalog_name ← dict_get drama "catalog_name" JNull;
       Ok (sound_lists, name, price, view_count, catalog_name)))
    is_RequestException
    (mret ([], JStr "", JStr "", JStr "", JStr "")).

Definition get_sound_detail (sound_id : json) : io (option Detail.t) :=
  try_except
    (response ← requests_get (getsound sound_id);
     lift (
       _ ← raise_for_status response;
       body ← response_json response;
       info ← dict_get body "info" (JObj []);
       sound ← dict_get info "sound" (JObj []);
       view_count ← dict_get sound "view_count" JNull;
       view_count_formatted ← dict_get sound "view_count_formatted" JNull;
       comment_count ← dict_get sound "comment_count" JNull;
       favorite_count ← dict_get sound "favorite_count" JNull;
       username ← dict_get sound "username" JNull;
       ts ← dict_get sound "create_time" (JInt 0);
       create_time ← fromtimestamp ts;
       Ok (Some (Detail.Make view_count view_count_formatted comment_count
                   favorite_count username create_time))))
    is_RequestException
    (mret None).

Definition fetch_all_danmakus (sound_id : json) : io (gset Z) :=
  try_except
    (response ← requests_get (getdm sound_id);
     lift (
       _ ← raise_for_status response;
       pp_comments_xml ← ETree_fromstring response;
       uids ← traverse danmaku_uid (findall "d" pp_comments_xml);
       Ok (list_to_set (omap id uids))))
    is_RequestException_or_ParseError
    (mret ∅).

(** The [while True] loop of [fetch_all_uids_by_comments], for at most
    [fuel] iterations. *)
Fixpoint comment_pages (fuel : nat) (sound_id : json) (comments_uids : gset Z)
    (page : Z) : io (gset Z) :=
  match fuel with
  | O => lift Diverge
  | S fuel' =>
      e_id ← lift (endpoint_format sound_id);
      response ← requests_get (getcomment e_id page 100);
      '(comments_uids', more) ← lift (
        _ ← raise_for_status response;
        data ← response_json response;
        uids ← extract_user_ids data;
        has_more ← comment_field data "hasMore";
        Ok (comments_uids ∪ uids, truthy has_more));
      if negb more then mret comments_uids'
      else comment_pages fuel' sound_id comments_uids' (page + 1)
  end.

Definition fetch_all_uids_by_comments (fuel : nat) (sound_id : json) : io (gset Z) :=
  comment_pages fuel sound_id ∅ 1.

(** ** Episode processor *)

Definition process_sound (fuel : nat) (sound : Sound.t) : io SoundDetail.t :=
  let sound_id := Sound.sound_id sound in
  sound_detail ← get_sound_detail sound_id;
  danmaku_uids ← fetch_all_danmakus sound_id;
  comment_uids ← fetch_all_uids_by_comments fuel sound_id;
  mret (SoundDetail.Make sound_detail sound_id (Sound.sound_title sound)
          (Sound.need_pay sound) danmaku_uids comment_uids
          (danmaku_uids ∪ comment_uids)).

End Client.

(** ** Output files *)

(** A row of [sound_data.csv]: title, creation time, paid flag and the
    sizes of the three identifier sets. *)
Module SoundRow.
Record t := Make {
  sound_title : json;
  create_time : datetime;
  need_pay : json;
  danmaku_uids : nat;
  comment_uids : nat;
  total_sound_uids : nat;
}.
End SoundRow.

(** A row of [drama_data.csv], in column order. *)
Module DramaRow.
Record t := Make {
  drama_id : string;
  name : json;
  first_sound_create_time : option datetime;
  price : json;
  view_count : json;
  paid_view_count : Z;
  free_view_count : Z;
  total_paid_danmaku_udis : nat;
  total_paid_comment_uids : nat;
  total_free_danmaku_udis : nat;
  total_free_comment_uids : nat;
  total_paid_udis : nat;
  total_free_udis : nat;
}.
End DramaRow.

(** A line of a file: the fixed header [runner] writes first, or a row. *)
Inductive line (R : Type) :=
| Header
| Row (r : R).
Arguments Header {R}.
Arguments Row {R} r.

(** What [sound_writer] and [drama_writer] have written so far. *)
Record files := Files {
  sound_file : list (line SoundRow.t);
  drama_file : list (line DramaRow.t);
}.

Definition sound_writer_writerow (r : SoundRow.t) (out : files) : files :=
  Files (sound_file out ++ [Row r]) (drama_file out).

Definition drama_writer_writerow (r : DramaRow.t) (out : files) : files :=
  Files (sound_file out) (drama_file out ++ [Row r]).

(** ** Drama aggregator *)

(** The local variables of [process_drama_id] that its loop updates. *)
Record locals := Locals {
  sound_data : list SoundDetail.t;
  total_paid_udis : gset Z;
  total_free_udis : gset Z;
  total_paid_danmaku_udis : gset Z;
  total_paid_comment_uids : gset Z;
  total_free_danmaku_udis : gset Z;
  total_free_comment_uids : gset Z;
  paid_view_count : Z;
  free_view_count : Z;
  first_sound_create_time : option datetime;
}.

Definition initial_locals : locals := Locals [] ∅ ∅ ∅ ∅ ∅ ∅ 0 0 None.

(** The body of [for future in as_completed(future_to_sound)], for the
    future of [sound].  [if sound_detail:] tests a dict that holds at least
    the six keys of [process_sound]'s update, so its branch is always
    taken. *)
Definition join_future (sound : Sound.t) (future : outcome SoundDetail.t)
    (st : locals) : outcome locals :=
  sound_detail ← future;
  first ← match first_sound_create_time st with
          | None => SoundDetail.create_time sound_detail
          | Some t =>
              ct ← SoundDetail.create_time sound_detail;
              if datetime_lt ct t then SoundDetail.create_time sound_detail else Ok t
          end;
  paid ← py_gt (Sound.need_pay sound) (JInt 0);
  vc ← SoundDetail.view_count sound_detail;
  n ← py_int vc;
  Ok (if paid : bool then
        Locals (sound_data st ++ [sound_detail])
          (total_paid_udis st ∪ SoundDetail.total_sound_uids sound_detail)
          (total_free_udis st)
          (total_paid_danmaku_udis st ∪ SoundDetail.danmaku_uids sound_detail)
          (total_paid_comment_uids st ∪ SoundDetail.comment_uids sound_detail)
          (total_free_danmaku_udis st)
          (total_free_comment_uids st)
          (paid_view_count st + n)
          (free_view_count st)
          (Some first)
      else
        Locals (sound_data st ++ [sound_detail])
          (total_paid_udis st)
          (total_free_udis st ∪ SoundDetail.total_sound_uids sound_detail)
          (total_paid_danmaku_udis st)
          (total_paid_comment_uids st)
          (total_free_danmaku_udis st ∪ SoundDetail.danmaku_uids sound_detail)
          (total_free_comment_uids st ∪ SoundDetail.comment_uids sound_detail)
          (paid_view_count st)
          (free_view_count st + n)
          (Some first)).

(** The loop, with the futures taken in the order [order] in which they
    complete: [order] lists positions of [sound_lists]. *)
Fixpoint join_futures (sound_lists : list Sound.t)
    (futures : list (outcome SoundDetail.t)) (order : list nat) (st : locals)
    : outcome locals :=
  match order with
  | [] => Ok st
  | i :: order' =>
      match sound_lists !! i, futures !! i with
      | Some sound, Some future =>
          st' ← join_future sound future st;
          join_futures sound_lists futures order' st'
      | _, _ => join_futures sound_lists futures order' st
      end
  end.

(** Every submitted task completes, once: the orders [as_completed] can
    produce for [n] futures. *)
Definition completion_order (n : nat) (order : list nat) : Prop :=
  order ≡ₚ seq 0 n.

Definition is_Diverge {A} (o : outcome A) : bool :=
  match o with Diverge => true | _ => false end.

(** [l.sort(key=...)]: a stable sort under [<] on the keys.  The keys are
    compared as an insertion sort compares them; on keys that are all
    numbers or all strings every stable sort gives the same list, and on
    keys of two kinds every sort raises [TypeError]. *)
Section Sort.
Context {A : Type} (sort_key : A -> json).

Fixpoint insert_sorted (x : A) (l : list A) : outcome (list A) :=
  match l with
  | [] => Ok [x]
  | y :: l' =>
      lt ← py_lt (sort_key y) (sort_key x);
      if lt : bool then r ← insert_sorted x l'; Ok (y :: r)
      else Ok (x :: y :: l')
  end.

Fixpoint py_sort (l : list A) : outcome (list A) :=
  match l with
  | [] => Ok []
  | x :: l' => s ← py_sort l'; insert_sorted x s
  end.
End Sort.

Definition sound_row (d : SoundDetail.t) : outcome SoundRow.t :=
  ct ← SoundDetail.create_time d;
  Ok (SoundRow.Make (SoundDetail.sound_title d) ct (SoundDetail.need_pay d)
        (size (SoundDetail.danmaku_uids d)) (size (SoundDetail.comment_uids d))
        (size (SoundDetail.total_sound_uids d))).

(** [for sound_detail in sound_data: sound_writer.writerow([...])] *)
Fixpoint write_sound_rows (l : list SoundDetail.t) (out : files) : files * outcome unit :=
  match l with
  | [] => (out, Ok tt)
  | d :: l' =>
      match sound_row d with
      | Ok r => write_sound_rows l' (sound_writer_writerow r out)
      | Raise e => (out, Raise e)
      | Diverge => (out, Diverge)
      end
  end.

Definition drama_row (drama_id : string) (name price view_count : json)
    (st : locals) : DramaRow.t :=
  DramaRow.Make drama_id name (first_sound_create_time st) price view_count
    (paid_view_count st) (free_view_count st)
    (size (total_paid_danmaku_udis st)) (size (total_paid_comment_uids st))
    (size (total_free_danmaku_udis st)) (size (total_free_comment_uids st))
    (size (total_paid_udis st)) (size (total_free_udis st)).

Section Aggregator.
Variable net : network.
Variable fuel : nat.

(** The tasks of the thread pool: one [process_sound] per item.  The
    [with] block is left only when every task has ended, so a task that
    never ends keeps [process_drama_id] from returning. *)
Definition run_pool (sound_lists : list Sound.t) : list (outcome SoundDetail.t) :=
  (fun sound => result (process_sound net fuel sound)) <$> sound_lists.

Definition fan_out (sound_lists : list Sound.t) (order : list nat) : outcome locals :=
  match sound_lists with
  | [] => Ok initial_locals
  | _ =>
      let futures := run_pool sound_lists in
      if existsb is_Diverge futures then Diverge
      else join_futures sound_lists futures order initial_locals
  end.

Definition process_drama_id (drama_id : string) (order : list nat) (out : files)
  : files * outcome (list SoundDetail.t * gset Z) :=
  match result (get_drama_sound_lists net drama_id) with
  | Ok (sound_lists, name, price, view_count, catalog_name) =>
      match fan_out sound_lists order with
      | Ok st =>
          match py_sort SoundDetail.sound_id (sound_data st) with
          | Ok sorted =>
              match write_sound_rows sorted out with
              | (out', Ok _) =>
                  (drama_writer_writerow (drama_row drama_id name price view_count st) out',
                   Ok (sorted, total_paid_udis st))
              | (out', Raise e) => (out', Raise e)
              | (out', Diverge) => (out', Diverge)
              end
          | Raise e => (out, Raise e)
          | Diverge => (out, Diverge)
          end
      | Raise e => (out, Raise e)
      | Diverge => (out, Diverge)
      end
  | Raise e => (out, Raise e)
  | Diverge => (out, Diverge)
  end.

(** ** Run coordinator *)

(** [for drama_id in drama_ids.split(',')]; [sched k] is the completion
    order of the futures of the [k]-th drama of the run. *)
Fixpoint runner_loop (ids : list string) (k : nat) (sched : nat -> list nat)
    (drama_sound : gmap string (list SoundDetail.t)) (all_paid_total_uids : gset Z)
    (out : files)
  : files * outcome (gmap string (list SoundDetail.t) * gset Z) :=
  match ids with
  | [] => (out, Ok (drama_sound, all_paid_total_uids))
  | drama_id :: ids' =>
      match process_drama_id (strip drama_id) (sched k) out with
      | (out', Ok (sound_data, total_paid_udis)) =>
          runner_loop ids' (S k) sched (<[drama_id := sound_data]> drama_sound)
            (all_paid_total_uids ∪ total_paid_udis) out'
      | (out', Raise e) => (out', Raise e)
      | (out', Diverge) => (out', Diverge)
      end
  end.

(** [drama_ids] is the line [get_user_input] reads. *)
Definition runner (drama_ids : string) (sched : nat -> list nat)
  : files * outcome (gmap string (list SoundDetail.t) * gset Z) :=
  runner_loop (split_comma drama_ids) 0 sched ∅ ∅ (Files [Header] [Header]).

End Aggregator.

(** ** Server documents *)

(** Builders for the documents the four endpoints serve, used to write
    down concrete servers. *)
Definition json_reply (doc : json) : reply := Reply (Response 200 (Some doc) None).
Definition xml_reply (doc : element) : reply := Reply (Response 200 None (Some doc)).

Definition episode_doc (sound_id : json) (soundstr : string) (need_pay : Z) : json :=
  JObj [("sound_id", sound_id); ("soundstr", JStr soundstr); ("need_pay", JInt need_pay)].

Definition drama_doc (name : string) (episodes : list json) : json :=
  JObj [("info", JObj [
    ("drama", JObj [("name", JStr name); ("price", JInt 199); ("view_count", JInt 15);
                    ("catalog_name", JStr "drama")]);
    ("episodes", JObj [("episode", JArr episodes)])])].

Definition sound_doc (fields : list (string * json)) : json :=
  JObj [("info", JObj [("sound", JObj fields)])].

Definition danmaku_doc (ps : list string) : element :=
  Element "i" [] ((fun p => Element "d" [("p", p)] []) <$> ps).

Definition comment_entry (userid : json) (subcomments : list json) : json :=
  JObj [("userid", userid);
        ("subcomments", JArr ((fun u => JObj [("userid", u)]) <$> subcomments))].

Definition comment_doc (datas : list json) (hasMore : bool) : json :=
  JObj [("info", JObj [("comment", JObj [("Datas", JArr datas); ("hasMore", JBool hasMore)])])].

(** A drama of two episodes: A (identifier 101) is free, has view count 10,
    inline identifiers 1 and 2 and threaded identifiers 2 and 3 (3 in a
    nested reply); B (identifier 102) is paid, has view count 5, the inline
    identifier 4 (a second entry has discriminant 4) and no comment. *)
Definition two_episode_server : network := fun r =>
  match r with
  | getdrama "1" =>
      json_reply (drama_doc "D" [episode_doc (JInt 101) "A" 0; episode_doc (JInt 102) "B" 1])
  | getsound (JInt 101) =>
      json_reply (sound_doc [("view_count", JInt 10); ("create_time", JInt 1700000000)])
  | getsound (JInt 102) =>
      json_reply (sound_doc [("view_count", JInt 5); ("create_time", JInt 1700086400)])
  | getdm (JInt 101) => xml_reply (danmaku_doc ["0.5,1,25,16777215,0,0,1"; "7.1,1,25,16777215,0,0,2"])
  | getdm (JInt 102) => xml_reply (danmaku_doc ["1.0,1,25,16777215,0,0,4"; "2.0,4,25,16777215,0,0,9"])
  | getcomment (JInt 101) 1 100 =>
      json_reply (comment_doc [comment_entry (JInt 2) [JStr "3"]] false)
  | getcomment (JInt 102) 1 100 => json_reply (comment_doc [] false)
  | _ => NoReply
  end.

(** The same drama, when the threaded-comment endpoint does not answer for
    episode B. *)
Definition comments_down_server : network := fun r =>
  match r with
  | getcomment (JInt 102) _ _ => NoReply
  | _ => two_episode_server r
  end.

(** The same drama, when the first threaded page of episode B is a JSON
    document without [Datas]. *)
Definition comments_incomplete_server : network := fun r =>
  match r with
  | getcomment (JInt 102) _ _ =>
      json_reply (JObj [("info", JObj [("comment", JObj [("hasMore", JBool false)])])])
  | _ => two_episode_server r
  end.

(** [net], except that the inline-comment endpoint answers the episodes
    chosen by [bad] with a body that is not XML. *)
Definition fail_danmaku (bad : Z -> bool) (net : network) : network := fun r =>
  match r with
  | getdm (JInt n) => if bad n then Reply (Response 200 None None) else net r
  | _ => net r
  end.

(** The same drama, when the inline-comment fetch of episode A fails. *)
Definition danmaku_down_server : network :=
  fail_danmaku (Z.eqb 101) two_episode_server.

(** The same drama, when the detail endpoint does not answer for episode
    A. *)
Definition detail_down_server : network := fun r =>
  match r with
  | getsound (JInt 101) => NoReply
  | _ => two_episode_server r
  end.

(** A server whose episode list has an entry without [sound_id]. *)
Definition incomplete_list_server : network := fun r =>
  match r with
  | getdrama _ =>
      json_reply (drama_doc "D" [JObj [("soundstr", JStr "A"); ("need_pay", JInt 0)]])
  | _ => NoReply
  end.

(** A server that lists one identifier twice, under two titles. *)
Definition duplicate_id_server : network := fun r =>
  match r with
  | getdrama _ =>
      json_reply (drama_doc "D" [episode_doc (JInt 101) "A" 0; episode_doc (JInt 101) "B" 0])
  | _ => two_episode_server r
  end.

(** A thread of three pages for episode 7: the first two declare more. *)
Definition thread_pages (k : nat) : json :=
  match k with
  | 0%nat => comment_doc [comment_entry (JInt 1) [JInt 2; JInt 3]] true
  | 1%nat => comment_doc [comment_entry (JStr "4") []; comment_entry (JInt 1) [JInt 5]] true
  | _ => comment_doc [comment_entry (JInt 6) []] false
  end.

Definition thread_server : network := fun r =>
  match r with
  | getcomment (JInt 7) 1 100 => json_reply (thread_pages 0)
  | getcomment (JInt 7) 2 100 => json_reply (thread_pages 1)
  | getcomment (JInt 7) 3 100 => json_reply (thread_pages 2)
  | _ => NoReply
  end.

(** A drama whose second episode has no [create_time] in its detail. *)
Definition no_create_time_server : network := fun r =>
  match r with
  | getsound (JInt 102) => json_reply (sound_doc [("view_count", JInt 5)])
  | _ => two_episode_server r
  end.

(** A server that does not answer the episode-list request. *)
Definition list_down_server : network := fun r =>
  match r with
  | getdrama _ => NoReply
  | _ => two_episode_server r
  end.


(** A server that answers every request for a page of comments with an
    empty last page. *)
Definition single_page_server : network := fun r =>
  match r with
  | getcomment _ _ _ => json_reply (comment_doc [] false)
  | _ => NoReply
  end.

(** A server whose episode list has a complete entry and then an entry
    without [soundstr]. *)
Definition untitled_list_server : network := fun r =>
  match r with
  | getdrama _ =>
      json_reply (drama_doc "D" [episode_doc (JInt 101) "A" 0;
                                 JObj [("sound_id", JInt 102); ("need_pay", JInt 1)]])
  | _ => NoReply
  end.

(** ** Vocabulary of the properties *)

(** What an entry of the inline-comment document contributes: the
    identifier in field 6 of its [p] attribute, when field 1 is not ["4"]. *)
Definition contributes (item : element) (z : Z) : Prop :=
  exists fs kind uid,
    p_fields item = Ok fs /\ fs !! 1%nat = Some kind /\ kind <> "4" /\
    fs !! 6%nat = Some uid /\ int_of_str uid = Some z.

(** An entry the comprehension accepts: it has a [p] attribute with a
    field 1, and unless that field is ["4"], a field 6 that [int] reads. *)
Definition well_formed_entry (item : element) : Prop :=
  exists fs kind,
    p_fields item = Ok fs /\ fs !! 1%nat = Some kind /\
    (kind = "4" \/ exists uid z, fs !! 6%nat = Some uid /\ int_of_str uid = Some z).

(** The object [data] holds [v] under [info], [comment] and then [k]. *)
Definition comment_member (data : json) (k : string) (v : json) : Prop :=
  exists kvs info comment,
    data = JObj kvs /\ assoc "info" kvs = Some (JObj info) /\
    assoc "comment" info = Some (JObj comment) /\ assoc k comment = Some v.

(** The comments of the page [data]: the items of [info.comment.Datas]. *)
Definition comments_of (data : json) (comments : list json) : Prop :=
  exists datas, comment_member data "Datas" datas /\ py_iter datas = Ok comments.

(** The entry is an object whose [userid] is [z], as [int] reads it. *)
Definition has_userid (entry : json) (z : Z) : Prop :=
  exists fields u,
    entry = JObj fields /\ assoc "userid" fields = Some u /\ py_int u = Ok z.

(** The replies nested under a comment: the items of its [subcomments]. *)
Definition subcomments_of (c : json) (subs : list json) : Prop :=
  exists fields sc,
    c = JObj fields /\ assoc "subcomments" fields = Some sc /\ py_iter sc = Ok subs.

(** [z] is the [userid] of a top-level comment of the page [data]. *)
Definition top_level_userid (data : json) (z : Z) : Prop :=
  exists comments c,
    comments_of data comments /\ c ∈ comments /\ has_userid c z.

(** [z] is the [userid] of a reply nested under a comment of the page. *)
Definition nested_userid (data : json) (z : Z) : Prop :=
  exists comments c subs sub,
    comments_of data comments /\ c ∈ comments /\
    subcomments_of c subs /\ sub ∈ subs /\ has_userid sub z.

(** A page whose comments and nested replies can all be read: it has
    [info.comment.Datas], every comment in it has a [userid] that [int]
    reads and [subcomments], and so has every reply a [userid]. *)
Definition well_formed_page (data : json) : Prop :=
  exists comments,
    comments_of data comments /\
    Forall (fun c =>
              (exists z, has_userid c z) /\
              exists subs, subcomments_of c subs /\
                           Forall (fun sub => exists z, has_userid sub z) subs)
           comments.

(** [z] is an identifier of the page: of a comment or of a nested reply. *)
Definition page_userid (data : json) (z : Z) : Prop :=
  top_level_userid data z \/ nested_userid data z.

(** The server answers the request for page [page] of the thread of
    [sound_id] with the document [data]. *)
Definition serves (net : network) (sound_id : json) (page : Z) (data : json) : Prop :=
  exists resp,
    net (getcomment sound_id page 100) = Reply resp /\
    raise_for_status resp = Ok tt /\ json_doc resp = Some data.

(** The page declares [hasMore] with truth value [b]. *)
Definition has_more (data : json) (b : bool) : Prop :=
  exists h, comment_member data "hasMore" h /\ truthy h = b.

(** An entry of the episode list without [sound_id] or without
    [soundstr]. *)
Definition incomplete_entry (episode : json) : Prop :=
  exists fields,
    episode = JObj fields /\
    (assoc "sound_id" fields = None \/ assoc "soundstr" fields = None).

(** The payload lists its episodes, under [info], [episodes] and then
    [episode], as an array of objects, one of which is incomplete. *)
Definition incomplete_episodes (body : list (string * json)) : Prop :=
  exists info eps items,
    assoc "info" body = Some (JObj info) /\
    assoc "episodes" info = Some (JObj eps) /\
    assoc "episode" eps = Some (JArr items) /\
    Forall (fun episode => exists fields, episode = JObj fields) items /\
    Exists incomplete_entry items.

(** The ways the episode-list fetch fails that [requests] reports: no
    reply, an error status, a body that is not JSON. *)
Definition fetch_failed (r : reply) : Prop :=
  r = NoReply \/
  exists resp, r = Reply resp /\
    (raise_for_status resp = Raise HTTPError \/
     raise_for_status resp = Ok tt /\ json_doc resp = None).

(** What joining one future needs from it, and adds to the locals: the
    record, its creation time, the paid flag of its item and its view
    count. *)
Record joined := Joined {
  joined_detail : SoundDetail.t;
  joined_time : datetime;
  joined_paid : bool;
  joined_views : Z;
}.

(** The checks of [join_future], apart from its update of the locals:
    [join_future_eq] shows that [join_future] is [join_check] followed by
    [join_update]. *)
Definition join_check (sound : Sound.t) (future : outcome SoundDetail.t) : outcome joined :=
  sound_detail ← future;
  ct ← SoundDetail.create_time sound_detail;
  paid ← py_gt (Sound.need_pay sound) (JInt 0);
  vc ← SoundDetail.view_count sound_detail;
  n ← py_int vc;
  Ok (Joined sound_detail ct paid n).

(** The earlier of two creation times, the first one only when it is
    strictly earlier, as the test of the loop has it. *)
Definition earlier (a b : datetime) : datetime := if datetime_lt a b then a else b.

(** The update of the locals by [join_future]. *)
Definition join_update (x : joined) (st : locals) : locals :=
  let d := joined_detail x in
  let first := match first_sound_create_time st with
               | None => joined_time x
               | Some t => earlier (joined_time x) t
               end in
  if joined_paid x then
    Locals (sound_data st ++ [d])
      (total_paid_udis st ∪ SoundDetail.total_sound_uids d)
      (total_free_udis st)
      (total_paid_danmaku_udis st ∪ SoundDetail.danmaku_uids d)
      (total_paid_comment_uids st ∪ SoundDetail.comment_uids d)
      (total_free_danmaku_udis st)
      (total_free_comment_uids st)
      (paid_view_count st + joined_views x)
      (free_view_count st)
      (Some first)
  else
    Locals (sound_data st ++ [d])
      (total_paid_udis st)
      (total_free_udis st ∪ SoundDetail.total_sound_uids d)
      (total_paid_danmaku_udis st)
      (total_paid_comment_uids st)
      (total_free_danmaku_udis st ∪ SoundDetail.danmaku_uids d)
      (total_free_comment_uids st ∪ SoundDetail.comment_uids d)
      (paid_view_count st)
      (free_view_count st + joined_views x)
      (Some first).

(** The future of position [i], checked against the item of position [i]. *)
Definition checked (sound_lists : list Sound.t) (futures : list (outcome SoundDetail.t))
    (i : nat) : outcome joined :=
  match sound_lists !! i, futures !! i with
  | Some sound, Some future => join_check sound future
  | _, _ => Raise IndexError
  end.

(** The updates of the whole loop, in the order of completion. *)
Definition join_all (xs : list joined) (st : locals) : locals :=
  foldl (fun st x => join_update x st) st xs.

(** The identifiers that are numbers or strings, as [<] and [==] see
    them: a bool is the number 0 or 1. *)
Inductive key :=
| KNum (n : Z)
| KStr (s : string).

#[global] Instance key_eq_dec : EqDecision key.
Proof. solve_decision. Defined.

Definition key_of (v : json) : option key :=
  match v with
  | JInt n => Some (KNum n)
  | JBool b => Some (KNum (if b then 1 else 0))
  | JStr s => Some (KStr s)
  | _ => None
  end.

Definition key_lt (a b : key) : option bool :=
  match a, b with
  | KNum x, KNum y => Some (x <? y)
  | KStr s, KStr t => Some (String.ltb s t)
  | _, _ => None
  end.

(** The operands [<] accepts: two numbers, two strings or two lists. *)
Inductive kind := Number | Text | Sequence.

Definition kind_of (v : json) : option kind :=
  match v with
  | JInt _ | JBool _ => Some Number
  | JStr _ => Some Text
  | JArr _ => Some Sequence
  | _ => None
  end.

(** A total order on keys that agrees with [<] where [<] is defined:
    numbers by value, strings lexicographically, a missing key first and
    numbers before strings. *)
Definition okey_le (a b : option key) : Prop :=
  match a, b with
  | None, _ => True
  | Some _, None => False
  | Some (KNum x), Some (KNum y) => x <= y
  | Some (KStr s), Some (KStr t) => String.leb s t = true
  | Some (KNum _), Some (KStr _) => True
  | Some (KStr _), Some (KNum _) => False
  end.

(** The class of a value under [<]: number, string, or not ordered. *)
Definition cls (v : json) : option bool :=
  match key_of v with
  | Some (KNum _) => Some true
  | Some (KStr _) => Some false
  | None => None
  end.

(** [a] comes no later than [b] in the order of the keys [k]. *)
Definition key_le {A} (k : A -> json) (a b : A) : Prop :=
  okey_le (key_of (k a)) (key_of (k b)).

(** No element of [l] that follows an element has a smaller key under [<]. *)
Definition ascending {A} (k : A -> json) (l : list A) : Prop :=
  StronglySorted (fun a b => py_lt (k b) (k a) = Ok false) l.

(** The locals without [sound_data]: the aggregates of the summary row. *)
Definition aggregates (st : locals) : locals :=
  Locals [] (total_paid_udis st) (total_free_udis st)
    (total_paid_danmaku_udis st) (total_paid_comment_uids st)
    (total_free_danmaku_udis st) (total_free_comment_uids st)
    (paid_view_count st) (free_view_count st) (first_sound_create_time st).

(** The failures [fetch_all_danmakus] catches: no reply, an error status,
    a body that is not XML. *)
Definition danmaku_failed (r : reply) : Prop :=
  r = NoReply \/
  exists resp, r = Reply resp /\
    (raise_for_status resp = Raise HTTPError \/
     raise_for_status resp = Ok tt /\ xml_doc resp = None).

(** [net'] is [net], except that some inline-comment fetches fail. *)
Definition danmaku_degraded (net net' : network) : Prop :=
  forall r, net' r = net r \/ (exists sid, r = getdm sid) /\ danmaku_failed (net' r).

(** [d'] is the record [d] with the inline set a failed fetch leaves. *)
Definition degraded_record (net' : network) (d d' : SoundDetail.t) : Prop :=
  exists dan',
    d' = SoundDetail.Make (SoundDetail.detail d) (SoundDetail.sound_id d)
           (SoundDetail.sound_title d) (SoundDetail.need_pay d)
           dan' (SoundDetail.comment_uids d) (dan' ∪ SoundDetail.comment_uids d) /\
    (danmaku_failed (net' (getdm (SoundDetail.sound_id d))) -> dan' = ∅) /\
    (~ danmaku_failed (net' (getdm (SoundDetail.sound_id d))) ->
     dan' = SoundDetail.danmaku_uids d).

(** The same for what a future adds to the locals. *)
Definition degraded_joined (net' : network) (x x' : joined) : Prop :=
  degraded_record net' (joined_detail x) (joined_detail x') /\
  joined_time x' = joined_time x /\
  joined_paid x' = joined_paid x /\
  joined_views x' = joined_views x.

(** [sched] gives every drama of [ids], the first of which is the [k]-th
    of the run, a completion order of its futures. *)
Definition valid_schedule (net : network) (ids : list string) (k : nat)
    (sched : nat -> list nat) : Prop :=
  forall j raw sl name price vc cat,
    ids !! j = Some raw ->
    result (get_drama_sound_lists net (strip raw)) = Ok (sl, name, price, vc, cat) ->
    completion_order (length sl) (sched (k + j)%nat).

(** ** More servers *)

(** The drama of [two_episode_server], when the detail document of episode
    A has a null [create_time]. *)
Definition null_create_time_server : network := fun r =>
  match r with
  | getsound (JInt 101) =>
      json_reply (sound_doc [("view_count", JInt 10); ("create_time", JNull)])
  | _ => two_episode_server r
  end.

(** The same drama, when the detail of episode A has the creation time
    [ct]. *)
Definition late_create_time_server (ct : Z) : network := fun r =>
  match r with
  | getsound (JInt 101) =>
      json_reply (sound_doc [("view_count", JInt 10); ("create_time", JInt ct)])
  | _ => two_episode_server r
  end.

(** A thread for episode 7 whose every page declares more pages. *)
Definition endless_thread_server : network := fun r =>
  match r with
  | getcomment (JInt 7) _ 100 => json_reply (comment_doc [comment_entry (JInt 1) []] true)
  | _ => NoReply
  end.

(** The thread of [thread_server], when the request for page 3 gets no
    reply. *)
Definition broken_thread_server : network := fun r =>
  match r with
  | getcomment (JInt 7) 3 100 => NoReply
  | _ => thread_server r
  end.

(** ** Vocabulary of the further properties *)

(** The requests for the first [n] pages of the thread of [sound_id]
    after page [page - 1], in order. *)
Definition page_requests (sound_id : json) (page : Z) (n : nat) : list request :=
  (fun i => getcomment sound_id (page + Z.of_nat i) 100) <$> seq 0 n.

(** The exception a failed fetch raises at the client. *)
Definition failure_of (r : reply) : exn :=
  match r with
  | NoReply => ConnectionError
  | Reply resp =>
      match raise_for_status resp with
      | Ok _ => JSONDecodeError
      | _ => HTTPError
      end
  end.

(** The paid flag and the view count the loop of [process_drama_id] reads
    for a record: [need_pay > 0] and [int(view_count)]. *)
Definition is_paid (d : SoundDetail.t) : bool :=
  match py_gt (SoundDetail.need_pay d) (JInt 0) with
  | Ok b => b
  | _ => false
  end.

Definition views (d : SoundDetail.t) : Z :=
  match vc ← SoundDetail.view_count d; py_int vc with
  | Ok n => n
  | _ => 0
  end.

Definition paid_records (l : list SoundDetail.t) : list SoundDetail.t :=
  filter (fun d => is_paid d = true) l.

Definition free_records (l : list SoundDetail.t) : list SoundDetail.t :=
  filter (fun d => is_paid d = false) l.

Definition total_views (l : list SoundDetail.t) : Z :=
  foldr (fun d acc => views d + acc) 0 l.

(** The locals [st] hold the totals of the records [l], paid and free
    apart. *)
Definition summarises (l : list SoundDetail.t) (st : locals) : Prop :=
  total_paid_udis st = ⋃ (SoundDetail.total_sound_uids <$> paid_records l) /\
  total_free_udis st = ⋃ (SoundDetail.total_sound_uids <$> free_records l) /\
  total_paid_danmaku_udis st = ⋃ (SoundDetail.danmaku_uids <$> paid_records l) /\
  total_paid_comment_uids st = ⋃ (SoundDetail.comment_uids <$> paid_records l) /\
  total_free_danmaku_udis st = ⋃ (SoundDetail.danmaku_uids <$> free_records l) /\
  total_free_comment_uids st = ⋃ (SoundDetail.comment_uids <$> free_records l) /\
  paid_view_count st = total_views (paid_records l) /\
  free_view_count st = total_views (free_records l).

(** A record whose [total_sound_uids] is the union of its two other sets. *)
Definition total_is_union (d : SoundDetail.t) : Prop :=
  SoundDetail.total_sound_uids d
  = SoundDetail.danmaku_uids d ∪ SoundDetail.comment_uids d.

(** The exception [fromtimestamp] raises on a value it refuses: what is
    not a number is a [TypeError]; a number is refused by its size. *)
Definition timestamp_error (v : json) (e : exn) : Prop :=
  match num_of v with
  | None => e = TypeError
  | Some n =>
      (n < -9223372036854775808 \/ 9223372036854775807 < n) /\ e = OverflowError \/
      (-9223372036854775808 <= n < -67768040609740800 \/
       67768036191676799 < n <= 9223372036854775807) /\ e = OSError \/
      (-67768040609740800 <= n < -62135510400 \/
       253402300799 < n <= 67768036191676799) /\ e = ValueError
  end.

(** An identifier whose text holds no brace: [str.format] leaves it as it
    is. *)
Fixpoint brace_free (v : json) : bool :=
  match v with
  | JStr s => forallb (fun c => negb (is_brace c)) (list_ascii_of_string s)
  | JArr l => forallb brace_free l
  | JObj _ => false
  | _ => true
  end.

(** The text [l] is the text [l'] with every brace doubled: [str.format]
    reads [l] as [l']. *)
Inductive doubled_braces : list ascii -> list ascii -> Prop :=
| doubled_nil : doubled_braces [] []
| doubled_char c l l' :
    is_brace c = false -> doubled_braces l l' -> doubled_braces (c :: l) (c :: l')
| doubled_brace c l l' :
    is_brace c = true -> doubled_braces l l' -> doubled_braces (c :: c :: l) (c :: l').

(** The outcomes of reading a page: a value, or one of the three
    exceptions that subscripts, iteration and [int] raise. *)
Definition reading_outcome {A} (o : outcome A) : Prop :=
  match o with
  | Ok _ => True
  | Raise e => e = KeyError \/ e = TypeError \/ e = ValueError
  | Diverge => False
  end.

(** * Properties *)

(** ** Outcomes and computations *)

Lemma bind_Ok {A B} (m : outcome A) (f : A -> outcome B) b :
  m ≫= f = Ok b <-> exists a, m = Ok a /\ f a = Ok b.
Proof.
  destruct m as [a| |]; simpl.
  - split; [eauto | intros [a' [[= ->] H]]; exact H].
  - split; [discriminate | intros [? [? _]]; discriminate].
  - split; [discriminate | intros [? [? _]]; discriminate].
Qed.

Lemma io_bind_Ok {A B} (m : io A) (f : A -> io B) b :
  result (m ≫= f) = Ok b <-> exists a, result m = Ok a /\ result (f a) = Ok b.
Proof.
  unfold mbind, io_bind. destruct (result m) as [a| |]; simpl.
  - split; [eauto | intros [a' [[= ->] H]]; exact H].
  - split; [discriminate | intros [? [? _]]; discriminate].
  - split; [discriminate | intros [? [? _]]; discriminate].
Qed.

Lemma io_bind_IO {A B} (l : list request) (a : A) (f : A -> io B) :
  IO l (Ok a) ≫= f = IO (l ++ sent (f a)) (result (f a)).
Proof. reflexivity. Qed.

Lemma requests_get_reply net r resp :
  net r = Reply resp -> requests_get net r = IO [r] (Ok resp).
Proof. intros H. unfold requests_get. rewrite H. reflexivity. Qed.

Lemma requests_get_no_reply net r :
  net r = NoReply -> requests_get net r = IO [r] (Raise ConnectionError).
Proof. intros H. unfold requests_get. rewrite H. reflexivity. Qed.

Lemma traverse_Ok {A B} (f : A -> outcome B) l ys :
  traverse f l = Ok ys <-> Forall2 (fun x y => f x = Ok y) l ys.
Proof.
  revert ys. induction l as [|x l IH]; intros ys; simpl.
  - split; [intros [= <-]; constructor | intros H; inversion H; reflexivity].
  - rewrite bind_Ok. split.
    + intros [y [Hy H]]. apply bind_Ok in H as [ys' [Hys [= <-]]].
      constructor; [exact Hy | by apply IH].
    + intros H. inversion H as [|? y ? ys' Hy Hys]; subst.
      exists y. split; [exact Hy |]. apply bind_Ok. exists ys'.
      split; [by apply IH | reflexivity].
Qed.

Lemma traverse_total {A B} (f : A -> outcome B) l :
  Forall (fun x => is_Ok (f x) = true) l -> is_Ok (traverse f l) = true.
Proof.
  induction 1 as [|x l Hx _ IH]; simpl; [reflexivity |].
  destruct (f x); try discriminate. simpl.
  destruct (traverse f l); try discriminate. reflexivity.
Qed.

Lemma is_Ok_true {A} (o : outcome A) : is_Ok o = true <-> exists a, o = Ok a.
Proof.
  destruct o; simpl; split; eauto; try discriminate; intros [? ?]; discriminate.
Qed.

(** ** Episode processor *)

(** C2: in every record [process_sound] returns, [total_sound_uids] is the
    union of [danmaku_uids] and [comment_uids]; so its size is that of the
    union, at least the larger of the two sizes and at most their sum. *)
Theorem process_sound_total_is_union (net : network) (fuel : nat) (sound : Sound.t)
    (d : SoundDetail.t) :
  result (process_sound net fuel sound) = Ok d ->
  SoundDetail.total_sound_uids d
    = SoundDetail.danmaku_uids d ∪ SoundDetail.comment_uids d /\
  size (SoundDetail.total_sound_uids d)
    = size (SoundDetail.danmaku_uids d ∪ SoundDetail.comment_uids d) /\
  (size (SoundDetail.danmaku_uids d) `max` size (SoundDetail.comment_uids d)
    <= size (SoundDetail.total_sound_uids d))%nat /\
  (size (SoundDetail.total_sound_uids d)
    <= size (SoundDetail.danmaku_uids d) + size (SoundDetail.comment_uids d))%nat.
Proof.
  unfold process_sound. intros H.
  apply io_bind_Ok in H as [sd [_ H]].
  apply io_bind_Ok in H as [dan [_ H]].
  apply io_bind_Ok in H as [com [_ H]].
  injection H as Hd. subst d. simpl.
  split; [reflexivity |]. split; [reflexivity |]. split.
  - apply Nat.max_lub; apply subseteq_size; set_solver.
  - rewrite size_union_alt.
    apply Nat.add_le_mono_l, subseteq_size.
    intros x Hx. apply elem_of_difference in Hx. tauto.
Qed.

(** ** API client: inline comments *)

Lemma danmaku_uid_Some item z :
  danmaku_uid item = Ok (Some z) <-> contributes item z.
Proof.
  unfold danmaku_uid, contributes. split.
  - intros H. apply bind_Ok in H as [fs [Hfs H]].
    apply bind_Ok in H as [kind [Hkind H]].
    destruct (fs !! 1%nat) as [kind'|] eqn:E1; [|discriminate].
    injection Hkind as ->.
    destruct (String.eqb kind "4") eqn:Ek; [discriminate |].
    apply bind_Ok in H as [fs' [Hfs' H]].
    assert (fs' = fs) as -> by congruence.
    apply bind_Ok in H as [uid [Huid H]].
    destruct (fs !! 6%nat) as [uid'|] eqn:E6; [|discriminate].
    injection Huid as ->.
    apply bind_Ok in H as [n [Hn H]]. injection H as ->.
    destruct (int_of_str uid) as [n'|] eqn:En; [|discriminate].
    injection Hn as ->.
    exists fs, kind, uid. repeat split; try assumption.
    intros ->. discriminate.
  - intros (fs & kind & uid & Hfs & H1 & Hk & H6 & Hn).
    rewrite Hfs. simpl. rewrite H1. simpl.
    apply String.eqb_neq in Hk. rewrite Hk, H6. simpl. rewrite Hn. reflexivity.
Qed.

Lemma danmaku_uid_None item :
  danmaku_uid item = Ok None <->
  exists fs, p_fields item = Ok fs /\ fs !! 1%nat = Some "4".
Proof.
  unfold danmaku_uid. split.
  - intros H. apply bind_Ok in H as [fs [Hfs H]].
    apply bind_Ok in H as [kind [Hkind H]].
    destruct (fs !! 1%nat) as [kind'|] eqn:E1; [|discriminate].
    injection Hkind as ->.
    destruct (String.eqb kind "4") eqn:Ek.
    + apply String.eqb_eq in Ek as ->. eauto.
    + apply bind_Ok in H as [fs' [_ H]]. apply bind_Ok in H as [uid [_ H]].
      apply bind_Ok in H as [n [_ H]]. discriminate.
  - intros (fs & Hfs & H1). rewrite Hfs. simpl. rewrite H1. reflexivity.
Qed.

Lemma danmaku_uid_well_formed item :
  well_formed_entry item -> is_Ok (danmaku_uid item) = true.
Proof.
  intros (fs & kind & Hfs & H1 & [-> | (uid & z & H6 & Hz)]).
  - replace (danmaku_uid item) with (@Ok (option Z) None); [reflexivity |].
    symmetry. apply danmaku_uid_None. eauto.
  - destruct (String.eqb kind "4") eqn:Ek.
    + apply String.eqb_eq in Ek as ->.
      replace (danmaku_uid item) with (@Ok (option Z) None); [reflexivity |].
      symmetry. apply danmaku_uid_None. eauto.
    + replace (danmaku_uid item) with (Ok (Some z)); [reflexivity |].
      symmetry. apply danmaku_uid_Some. exists fs, kind, uid.
      repeat split; try assumption. intros ->. discriminate.
Qed.

(** [danmaku_uid] raises nothing that [fetch_all_danmakus] catches. *)
Lemma danmaku_uid_uncaught item e :
  danmaku_uid item = Raise e -> is_RequestException_or_ParseError e = false.
Proof.
  unfold danmaku_uid, p_fields.
  destruct (assoc "p" (attrib item)) as [p|]; simpl; [|intros [= <-]; reflexivity].
  destruct (split_comma p !! 1%nat) as [kind|]; simpl; [|intros [= <-]; reflexivity].
  destruct (String.eqb kind "4"); [discriminate |].
  destruct (split_comma p !! 6%nat) as [uid|]; simpl; [|intros [= <-]; reflexivity].
  destruct (int_of_str uid); simpl; [discriminate | intros [= <-]; reflexivity].
Qed.

Lemma traverse_Raise {A B} (f : A -> outcome B) l e :
  traverse f l = Raise e -> exists x, x ∈ l /\ f x = Raise e.
Proof.
  induction l as [|x l IH]; simpl; [discriminate |].
  destruct (f x) as [y|e'|] eqn:E; simpl.
  - destruct (traverse f l) as [ys|e'|]; simpl; try discriminate.
    intros [= ->]. destruct IH as [x' [Hin Hx']]; [reflexivity |].
    exists x'. split; [by right | exact Hx'].
  - intros [= ->]. exists x. split; [by left | exact E].
  - discriminate.
Qed.

Lemma elem_of_omap_id {A} (l : list (option A)) (a : A) :
  a ∈ omap id l <-> Some a ∈ l.
Proof.
  rewrite list_elem_of_omap. split.
  - intros [o [Hin Ho]]. simpl in Ho. by subst o.
  - intros Hin. by exists (Some a).
Qed.

(** What [fetch_all_danmakus] computes from a document it received. *)
Lemma fetch_all_danmakus_reply net sound_id resp root :
  net (getdm sound_id) = Reply resp ->
  raise_for_status resp = Ok tt ->
  xml_doc resp = Some root ->
  result (fetch_all_danmakus net sound_id)
  = (uids ← traverse danmaku_uid (findall "d" root);
     Ok (list_to_set (omap id uids))).
Proof.
  intros Hnet Hst Hxml.
  unfold fetch_all_danmakus.
  rewrite (requests_get_reply net _ resp Hnet), io_bind_IO.
  unfold try_except, ETree_fromstring. simpl. rewrite Hst, Hxml. simpl.
  destruct (traverse danmaku_uid (findall "d" root)) as [uids|e|] eqn:E; simpl;
    try reflexivity.
  apply traverse_Raise in E as [item [_ Hitem]].
  apply danmaku_uid_uncaught in Hitem. rewrite Hitem. reflexivity.
Qed.

(** C5: on every inline-comment document, the set [fetch_all_danmakus]
    returns holds exactly the identifiers (field 6 of [p]) of the [<d>]
    entries whose discriminant (field 1) is not ["4"]: entries with
    discriminant ["4"] give nothing, every other entry gives its
    identifier.  It does return a set when the entries are well formed. *)
Theorem fetch_all_danmakus_filters (net : network) (sound_id : json)
    (resp : response) (root : element) :
  net (getdm sound_id) = Reply resp ->
  raise_for_status resp = Ok tt ->
  xml_doc resp = Some root ->
  (Forall well_formed_entry (findall "d" root) ->
   is_Ok (result (fetch_all_danmakus net sound_id)) = true) /\
  (forall uids : gset Z,
     result (fetch_all_danmakus net sound_id) = Ok uids ->
     forall z, z ∈ uids <-> exists item, item ∈ findall "d" root /\ contributes item z).
Proof.
  intros Hnet Hst Hxml.
  rewrite (fetch_all_danmakus_reply net sound_id resp root Hnet Hst Hxml).
  split.
  - intros Hwf.
    assert (is_Ok (traverse danmaku_uid (findall "d" root)) = true) as Hok.
    { apply traverse_total. eapply Forall_impl; [exact Hwf |].
      intros item. apply danmaku_uid_well_formed. }
    destruct (traverse danmaku_uid (findall "d" root)); try discriminate.
    reflexivity.
  - intros uids H z. apply bind_Ok in H as [os [Hos H]].
    injection H as <-. apply traverse_Ok in Hos.
    rewrite elem_of_list_to_set, elem_of_omap_id. split.
    + intros Hin. apply list_elem_of_lookup in Hin as [i Hi].
      destruct (Forall2_lookup_r _ _ _ _ _ Hos Hi) as (item & Hitem & Hd).
      exists item. split; [by eapply list_elem_of_lookup_2 |].
      by apply danmaku_uid_Some.
    + intros (item & Hin & Hc). apply list_elem_of_lookup in Hin as [i Hi].
      destruct (Forall2_lookup_l _ _ _ _ _ Hos Hi) as (o & Ho & Hd).
      apply danmaku_uid_Some in Hc. rewrite Hc in Hd. injection Hd as <-.
      by eapply list_elem_of_lookup_2.
Qed.

(** ** API client: threaded comments *)

Lemma traverse_elem_of {A B} (f : A -> outcome B) l ys y :
  traverse f l = Ok ys -> (y ∈ ys <-> exists x, x ∈ l /\ f x = Ok y).
Proof.
  intros H. apply traverse_Ok in H. split.
  - intros Hin. apply list_elem_of_lookup in Hin as [i Hi].
    destruct (Forall2_lookup_r _ _ _ _ _ H Hi) as (x & Hx & Hf).
    exists x. split; [by eapply list_elem_of_lookup_2 | exact Hf].
  - intros (x & Hin & Hf). apply list_elem_of_lookup in Hin as [i Hi].
    destruct (Forall2_lookup_l _ _ _ _ _ H Hi) as (y' & Hy' & Hf').
    rewrite Hf in Hf'. injection Hf' as <-. by eapply list_elem_of_lookup_2.
Qed.

Lemma traverse_Ok_Forall {A B} (f : A -> outcome B) l ys :
  traverse f l = Ok ys -> Forall (fun x => is_Ok (f x) = true) l.
Proof.
  intros H. apply traverse_Ok in H.
  induction H as [|x y l ys Hx _ IH]; constructor; [by rewrite Hx | exact IH].
Qed.

Lemma traverse_Diverge {A B} (f : A -> outcome B) l :
  traverse f l = Diverge -> exists x, x ∈ l /\ f x = Diverge.
Proof.
  induction l as [|x l IH]; simpl; [discriminate |].
  destruct (f x) as [y|e'|] eqn:E; simpl.
  - destruct (traverse f l) as [ys|e'|]; simpl; try discriminate.
    intros _. destruct IH as [x' [Hin Hx']]; [reflexivity |].
    exists x'. split; [by right | exact Hx'].
  - discriminate.
  - intros _. exists x. split; [by left | exact E].
Qed.

Lemma elem_of_concat {A} (x : A) (ls : list (list A)) :
  x ∈ concat ls <-> exists l, x ∈ l /\ l ∈ ls.
Proof.
  rewrite list_elem_of_In, in_concat. split.
  - intros (l & Hl & Hx). exists l. by rewrite !list_elem_of_In.
  - intros (l & Hx & Hl). exists l. by rewrite <- !list_elem_of_In.
Qed.

Lemma subscript_Ok v k u :
  subscript v k = Ok u <-> exists fields, v = JObj fields /\ assoc k fields = Some u.
Proof.
  destruct v as [|b|n|s|l|kvs]; simpl;
    try (split; [discriminate | by intros (? & [=] & _)]).
  split.
  - destruct (assoc k kvs) as [w|] eqn:E; simpl; [|discriminate].
    intros [= <-]. by exists kvs.
  - intros (fields & [= <-] & ->). reflexivity.
Qed.

Lemma comment_field_Ok data k v :
  comment_field data k = Ok v <-> comment_member data k v.
Proof.
  unfold comment_field, comment_member. split.
  - intros H. apply bind_Ok in H as [i [Hi H]]. apply bind_Ok in H as [c [Hc H]].
    apply subscript_Ok in Hi as (kvs & -> & Hi).
    apply subscript_Ok in Hc as (info & -> & Hc).
    apply subscript_Ok in H as (comment & -> & H).
    by exists kvs, info, comment.
  - intros (kvs & info & comment & -> & Hi & Hc & Hk).
    simpl. rewrite Hi. simpl. rewrite Hc. simpl. by rewrite Hk.
Qed.

Lemma userid_of_Ok c z : userid_of c = Ok z <-> has_userid c z.
Proof.
  unfold userid_of, has_userid. split.
  - intros H. apply bind_Ok in H as [u [Hu H]].
    apply subscript_Ok in Hu as (fields & -> & Hu). eauto.
  - intros (fields & u & -> & Hu & Hz). simpl. rewrite Hu. exact Hz.
Qed.

Lemma comments_of_Ok data comments :
  (datas ← comment_field data "Datas"; py_iter datas) = Ok comments
  <-> comments_of data comments.
Proof.
  unfold comments_of. split.
  - intros H. apply bind_Ok in H as [datas [Hd H]].
    apply comment_field_Ok in Hd. eauto.
  - intros (datas & Hd & H). apply comment_field_Ok in Hd. by rewrite Hd.
Qed.

Lemma comments_of_inj data c1 c2 : comments_of data c1 -> comments_of data c2 -> c1 = c2.
Proof. intros H1 H2. apply comments_of_Ok in H1, H2. congruence. Qed.

Lemma subcomments_of_Ok c subs :
  (sc ← subscript c "subcomments"; py_iter sc) = Ok subs <-> subcomments_of c subs.
Proof.
  unfold subcomments_of. split.
  - intros H. apply bind_Ok in H as [sc [Hsc H]].
    apply subscript_Ok in Hsc as (fields & -> & Hsc). eauto.
  - intros (fields & sc & -> & Hsc & H). simpl. rewrite Hsc. exact H.
Qed.

Lemma subcomments_of_inj c s1 s2 : subcomments_of c s1 -> subcomments_of c s2 -> s1 = s2.
Proof. intros H1 H2. apply subcomments_of_Ok in H1, H2. congruence. Qed.

Lemma subcomment_userids_elem_of c zs z :
  subcomment_userids c = Ok zs ->
  (z ∈ zs <-> exists subs sub,
     subcomments_of c subs /\ sub ∈ subs /\ has_userid sub z).
Proof.
  unfold subcomment_userids. intros H.
  apply bind_Ok in H as [sc [Hsc H]]. apply bind_Ok in H as [subs [Hsubs H]].
  assert (subcomments_of c subs) as Hof.
  { apply subcomments_of_Ok. by rewrite Hsc. }
  rewrite (traverse_elem_of _ _ _ z H). split.
  - intros (sub & Hin & Hz). apply userid_of_Ok in Hz. by exists subs, sub.
  - intros (subs' & sub & Hof' & Hin & Hz).
    rewrite (subcomments_of_inj _ _ _ Hof' Hof) in Hin.
    apply userid_of_Ok in Hz. by exists sub.
Qed.

Lemma subcomment_userids_is_Ok c :
  is_Ok (subcomment_userids c) = true <->
  exists subs, subcomments_of c subs /\ Forall (fun sub => exists z, has_userid sub z) subs.
Proof.
  unfold subcomment_userids. split.
  - intros H. apply is_Ok_true in H as [zs H].
    apply bind_Ok in H as [sc [Hsc H]]. apply bind_Ok in H as [subs [Hsubs H]].
    exists subs. split; [apply subcomments_of_Ok; by rewrite Hsc |].
    apply traverse_Ok_Forall in H. eapply Forall_impl; [exact H |].
    intros sub Hsub. apply is_Ok_true in Hsub as [z Hz].
    exists z. by apply userid_of_Ok.
  - intros (subs & Hof & Hall). apply subcomments_of_Ok in Hof.
    apply bind_Ok in Hof as [sc [Hsc Hsubs]]. rewrite Hsc. simpl. rewrite Hsubs. simpl.
    apply traverse_total. eapply Forall_impl; [exact Hall |].
    intros sub [z Hz]. apply userid_of_Ok in Hz. by rewrite Hz.
Qed.

(** [extract_user_ids] returns on the well-formed pages, and on no other. *)
Lemma extract_user_ids_is_Ok data :
  is_Ok (extract_user_ids data) = true <-> well_formed_page data.
Proof.
  unfold extract_user_ids, well_formed_page. split.
  - intros H. apply is_Ok_true in H as [uids H].
    apply bind_Ok in H as [datas [Hdatas H]].
    apply bind_Ok in H as [comments [Hcomments H]].
    apply bind_Ok in H as [user_ids [Hids H]].
    rewrite Hdatas in H. simpl in H. rewrite Hcomments in H. simpl in H.
    apply bind_Ok in H as [subs [Hsubs _]].
    exists comments. split.
    { apply comments_of_Ok. rewrite Hdatas. exact Hcomments. }
    apply traverse_Ok_Forall in Hids, Hsubs.
    rewrite Forall_forall in *. intros c Hc. split.
    + specialize (Hids c Hc). apply is_Ok_true in Hids as [z Hz].
      exists z. by apply userid_of_Ok.
    + apply subcomment_userids_is_Ok. auto.
  - intros (comments & Hof & Hall). apply comments_of_Ok in Hof.
    apply bind_Ok in Hof as [datas [Hdatas Hcomments]].
    rewrite Hdatas. simpl. rewrite Hcomments. simpl.
    assert (is_Ok (traverse userid_of comments) = true) as H1.
    { apply traverse_total. eapply Forall_impl; [exact Hall |].
      intros c [[z Hz] _]. apply userid_of_Ok in Hz. by rewrite Hz. }
    assert (is_Ok (traverse subcomment_userids comments) = true) as H2.
    { apply traverse_total. eapply Forall_impl; [exact Hall |].
      intros c [_ Hs]. by apply subcomment_userids_is_Ok. }
    destruct (traverse userid_of comments); try discriminate. simpl.
    destruct (traverse subcomment_userids comments); try discriminate. reflexivity.
Qed.

(** The set [extract_user_ids] returns for a page holds exactly the
    identifiers of its comments and of their replies. *)
Lemma extract_user_ids_spec data (uids : gset Z) :
  extract_user_ids data = Ok uids ->
  forall z, z ∈ uids <-> page_userid data z.
Proof.
  unfold extract_user_ids. intros H z.
  apply bind_Ok in H as [datas [Hdatas H]].
  apply bind_Ok in H as [comments [Hcomments H]].
  apply bind_Ok in H as [user_ids [Hids H]].
  rewrite Hdatas in H. simpl in H. rewrite Hcomments in H. simpl in H.
  apply bind_Ok in H as [subs [Hsubs H]]. injection H as <-.
  assert (comments_of data comments) as Hof.
  { apply comments_of_Ok. rewrite Hdatas. exact Hcomments. }
  rewrite elem_of_union, !elem_of_list_to_set.
  rewrite (traverse_elem_of _ _ _ z Hids).
  unfold page_userid, top_level_userid, nested_userid.
  match goal with
  | |- (?A \/ ?B) <-> (?C \/ ?D) => cut ((A <-> C) /\ (B <-> D)); [tauto | split]
  end.
  - split.
    + intros (c & Hin & Hz). apply userid_of_Ok in Hz. by exists comments, c.
    + intros (comments' & c & Hof' & Hin & Hz).
      rewrite (comments_of_inj _ _ _ Hof' Hof) in Hin.
      apply userid_of_Ok in Hz. by exists c.
  - rewrite elem_of_concat. split.
    + intros (zs & Hz & Hzs).
      destruct (proj1 (traverse_elem_of _ _ _ zs Hsubs) Hzs) as (c & Hin & Hc).
      destruct (proj1 (subcomment_userids_elem_of c zs z Hc) Hz)
        as (ss & sub & Hss & Hsub & Hu).
      by exists comments, c, ss, sub.
    + intros (comments' & c & ss & sub & Hof' & Hin & Hss & Hsub & Hz).
      rewrite (comments_of_inj _ _ _ Hof' Hof) in Hin.
      apply list_elem_of_lookup in Hin as [i Hi].
      apply traverse_Ok in Hsubs.
      destruct (Forall2_lookup_l _ _ _ _ _ Hsubs Hi) as (zs & Hzs & Hf).
      exists zs. split; [|by eapply list_elem_of_lookup_2].
      apply (subcomment_userids_elem_of c zs z Hf). by exists ss, sub.
Qed.

Lemma io_bind_lift_Ok {A B} (a : A) (f : A -> io B) : (lift (Ok a) ≫= f) = f a.
Proof. unfold mbind, io_bind, lift. simpl. by destruct (f a). Qed.

(** An identifier that [str.format] rejects: the loop raises at once. *)
Lemma comment_pages_rejected net fuel sound_id acc page :
  format_identifier sound_id = None ->
  comment_pages net (S fuel) sound_id acc page = IO [] (Raise FormatError).
Proof. intros H. cbn [comment_pages]. unfold endpoint_format. by rewrite H. Qed.

Lemma comment_pages_S net fuel sound_id e_id acc page :
  endpoint_format sound_id = Ok e_id ->
  comment_pages net (S fuel) sound_id acc page
  = (response ← requests_get net (getcomment e_id page 100);
     '(acc', more) ← lift (
       _ ← raise_for_status response;
       data ← response_json response;
       uids ← extract_user_ids data;
       has_more ← comment_field data "hasMore";
       Ok (acc ∪ uids, truthy has_more));
     if negb more then mret acc'
     else comment_pages net fuel sound_id acc' (page + 1)).
Proof. intros H. cbn [comment_pages]. rewrite H. by rewrite io_bind_lift_Ok. Qed.

(** One iteration of the pagination loop on a page the server serves. *)
Lemma comment_pages_step net fuel sound_id e_id acc page data uids b :
  endpoint_format sound_id = Ok e_id ->
  serves net e_id page data ->
  extract_user_ids data = Ok uids ->
  has_more data b ->
  comment_pages net (S fuel) sound_id acc page
  = if b then
      let rest := comment_pages net fuel sound_id (acc ∪ uids) (page + 1) in
      IO (getcomment e_id page 100 :: sent rest) (result rest)
    else IO [getcomment e_id page 100] (Ok (acc ∪ uids)).
Proof.
  intros Hfmt (resp & Hnet & Hst & Hjson) Huids (h & Hh & Hb).
  apply comment_field_Ok in Hh.
  rewrite (comment_pages_S _ _ _ _ _ _ Hfmt).
  rewrite (requests_get_reply net _ resp Hnet), io_bind_IO.
  unfold response_json. rewrite Hst, Hjson. simpl. rewrite Huids. simpl.
  rewrite Hh. simpl. rewrite Hb. destruct b; reflexivity.
Qed.


Lemma json_ind' (P : json -> Prop) :
  P JNull -> (forall b, P (JBool b)) -> (forall n, P (JInt n)) ->
  (forall s, P (JStr s)) ->
  (forall l, Forall P l -> P (JArr l)) ->
  (forall kvs, Forall (fun kv => P kv.2) kvs -> P (JObj kvs)) ->
  forall v, P v.
Proof.
  intros HN HB HI HS HA HO. fix IH 1.
  intros [|b|n|s|l|kvs]; [exact HN | apply HB | apply HI | apply HS | |].
  - apply HA. revert l. fix IHl 1. intros [|x l]; constructor; [apply IH | apply IHl].
  - apply HO. revert kvs. fix IHl 1.
    intros [|[k x] kvs]; constructor; [apply IH | apply IHl].
Qed.

Lemma unescape_braces_brace_free l :
  forallb (fun c => negb (is_brace c)) l = true -> unescape_braces l = Some l.
Proof.
  induction l as [|c l IH]; simpl; [reflexivity |].
  intros H. apply andb_true_iff in H as [Hc Hl].
  apply negb_true_iff in Hc. rewrite Hc, (IH Hl). reflexivity.
Qed.

(** [str.format] leaves an identifier without a brace as it is. *)
Lemma brace_free_format v : brace_free v = true -> endpoint_format v = Ok v.
Proof.
  unfold endpoint_format. intros H.
  assert (format_identifier v = Some v) as ->; [|reflexivity].
  revert H. induction v as [|b|n|s|l IH|kvs _] using json_ind'; simpl;
    try reflexivity; try discriminate.
  - intros H. rewrite (unescape_braces_brace_free _ H). simpl.
    by rewrite string_of_list_ascii_of_string.
  - intros H.
    assert ((fix items (l : list json) : option (list json) :=
               match l with
               | [] => Some []
               | x :: l' =>
                   x' ← format_identifier x; l'' ← items l'; Some (x' :: l'')
               end) l = Some l) as ->; [|reflexivity].
    induction IH as [|x l Hx _ IHl]; [reflexivity |].
    simpl in H. apply andb_true_iff in H as [H1 H2].
    rewrite (Hx H1). simpl. rewrite (IHl H2). reflexivity.
Qed.



(** ** Witnesses for the client *)

Lemma process_sound_total_is_union_witness :
  exists d, result (process_sound two_episode_server 1
                      (Sound.Make (JInt 101) (JStr "A") (JInt 0))) = Ok d /\
    size (SoundDetail.danmaku_uids d) = 2%nat /\
    size (SoundDetail.comment_uids d) = 2%nat /\
    size (SoundDetail.total_sound_uids d) = 3%nat /\
    SoundDetail.total_sound_uids d
      = SoundDetail.danmaku_uids d ∪ SoundDetail.comment_uids d.
Proof.
  eexists. split; [vm_compute; reflexivity |].
  split; [vm_compute; reflexivity |].
  split; [vm_compute; reflexivity |].
  split; [vm_compute; reflexivity |].
  eapply (process_sound_total_is_union two_episode_server 1
            (Sound.Make (JInt 101) (JStr "A") (JInt 0))).
  vm_compute. reflexivity.
Defined.

Lemma fetch_all_danmakus_filters_witness :
  exists item,
    item ∈ findall "d" (danmaku_doc ["1.0,1,25,16777215,0,0,4"; "2.0,4,25,16777215,0,0,9"])
    /\ contributes item 4.
Proof.
  refine (proj1 (proj2 (fetch_all_danmakus_filters two_episode_server (JInt 102)
            (Response 200 None (Some (danmaku_doc ["1.0,1,25,16777215,0,0,4"; "2.0,4,25,16777215,0,0,9"])))
            _ _ _ _) ({[ 4 ]} : gset Z) _ 4) _).
  - reflexivity.
  - reflexivity.
  - reflexivity.
  - vm_compute. reflexivity.
  - by apply elem_of_singleton.
Defined.


(** ** Episode list *)

Lemma raise_for_status_cases resp :
  raise_for_status resp = Ok tt \/ raise_for_status resp = Raise HTTPError.
Proof. unfold raise_for_status. destruct (_ && _); auto. Qed.

(** Reading [sound_id] and [soundstr] off the entries raises [KeyError]
    at the first entry that lacks one of them. *)
Lemma traverse_incomplete_entry items :
  Forall (fun episode => exists fields, episode = JObj fields) items ->
  Exists incomplete_entry items ->
  traverse (fun episode =>
      sid ← subscript episode "sound_id";
      title ← subscript episode "soundstr";
      pay ← dict_get episode "need_pay" (JInt 0);
      Ok (Sound.Make sid title pay)) items
  = Raise KeyError.
Proof.
  induction 1 as [|episode items [fields ->] _ IH]; intros Hex.
  - inversion Hex.
  - cbn [traverse subscript dict_get].
    destruct (assoc "sound_id" fields) as [sid|] eqn:Hsid; [|reflexivity].
    destruct (assoc "soundstr" fields) as [title|] eqn:Htitle; [|reflexivity].
    inversion Hex as [x l Hinc | x l Htl]; subst.
    + destruct Hinc as (fields' & Heq & [H | H]); injection Heq as <-; congruence.
    + simpl. rewrite (IH Htl). reflexivity.
Qed.

(** C6, as the code has it: a transport failure, an error status or a body
    that is not JSON makes [get_drama_sound_lists] return the empty list
    and four empty strings; a JSON object without [info] makes it return
    the empty list and four [None].  Neither raises.  A JSON object that
    lists its episodes as an array of objects, one of them without
    [sound_id] or without [soundstr], makes it raise [KeyError]. *)
Theorem get_drama_sound_lists_absorbs_request_failures (net : network)
    (drama_id : string) :
  (fetch_failed (net (getdrama drama_id)) ->
   get_drama_sound_lists net drama_id
   = IO [getdrama drama_id] (Ok ([], JStr "", JStr "", JStr "", JStr ""))) /\
  (forall status kvs xml,
     net (getdrama drama_id) = Reply (Response status (Some (JObj kvs)) xml) ->
     raise_for_status (Response status (Some (JObj kvs)) xml) = Ok tt ->
     assoc "info" kvs = None ->
     get_drama_sound_lists net drama_id
     = IO [getdrama drama_id] (Ok ([], JNull, JNull, JNull, JNull))) /\
  (forall status kvs xml,
     net (getdrama drama_id) = Reply (Response status (Some (JObj kvs)) xml) ->
     raise_for_status (Response status (Some (JObj kvs)) xml) = Ok tt ->
     incomplete_episodes kvs ->
     get_drama_sound_lists net drama_id = IO [getdrama drama_id] (Raise KeyError)).
Proof.
  split; [|split].
  - intros [Hnet | (resp & Hnet & [Hst | [Hst Hjson]])]; unfold get_drama_sound_lists.
    + rewrite (requests_get_no_reply net _ Hnet). reflexivity.
    + rewrite (requests_get_reply net _ resp Hnet), io_bind_IO.
      unfold try_except. simpl. rewrite Hst. reflexivity.
    + rewrite (requests_get_reply net _ resp Hnet), io_bind_IO.
      unfold try_except, response_json. simpl. rewrite Hst, Hjson. reflexivity.
  - intros status kvs xml Hnet Hst Hinfo. unfold get_drama_sound_lists.
    rewrite (requests_get_reply net _ _ Hnet), io_bind_IO.
    unfold try_except, response_json. simpl. rewrite Hst. simpl.
    rewrite Hinfo. reflexivity.
  - intros status kvs xml Hnet Hst (info & eps & items & Hinfo & Heps & Hitems & Hobj & Hex).
    unfold get_drama_sound_lists.
    rewrite (requests_get_reply net _ _ Hnet), io_bind_IO.
    unfold try_except, response_json. simpl. rewrite Hst. simpl.
    rewrite Hinfo. simpl. rewrite Heps. simpl. rewrite Hitems. simpl.
    rewrite (traverse_incomplete_entry items Hobj Hex). reflexivity.
Qed.

Lemma get_drama_sound_lists_absorbs_request_failures_witness :
  get_drama_sound_lists list_down_server "62452"
  = IO [getdrama "62452"] (Ok ([], JStr "", JStr "", JStr "", JStr "")) /\
  get_drama_sound_lists incomplete_list_server "62452"
  = IO [getdrama "62452"] (Raise KeyError) /\
  get_drama_sound_lists untitled_list_server "62452"
  = IO [getdrama "62452"] (Raise KeyError).
Proof.
  split; [|split].
  - apply (proj1 (get_drama_sound_lists_absorbs_request_failures list_down_server "62452")).
    left. reflexivity.
  - eapply (proj2 (proj2 (get_drama_sound_lists_absorbs_request_failures
                            incomplete_list_server "62452"))).
    + reflexivity.
    + reflexivity.
    + eexists _, _, _. repeat split; try reflexivity.
      * repeat constructor. by eexists.
      * left. eexists. split; [reflexivity | left; reflexivity].
  - eapply (proj2 (proj2 (get_drama_sound_lists_absorbs_request_failures
                            untitled_list_server "62452"))).
    + reflexivity.
    + reflexivity.
    + eexists _, _, _. repeat split; try reflexivity.
      * repeat constructor; by eexists.
      * right. left. eexists. split; [reflexivity | right; reflexivity].
Defined.

(** C6 fails for an incomplete payload: an episode entry without
    [sound_id] makes [get_drama_sound_lists] raise [KeyError]. *)
Lemma get_drama_sound_lists_incomplete_payload_raises :
  json_doc (Response 200 (Some (drama_doc "D" [JObj [("soundstr", JStr "A"); ("need_pay", JInt 0)]])) None)
  <> None /\
  get_drama_sound_lists incomplete_list_server "62452"
  = IO [getdrama "62452"] (Raise KeyError).
Proof. split; [discriminate | reflexivity]. Qed.

(** ** Drama aggregator: the empty episode list *)

Lemma process_drama_id_nil net fuel drama_id name price view_count catalog_name
    order out :
  result (get_drama_sound_lists net drama_id)
  = Ok ([], name, price, view_count, catalog_name) ->
  process_drama_id net fuel drama_id order out
  = (Files (sound_file out)
       (drama_file out
          ++ [Row (DramaRow.Make drama_id name None price view_count 0 0 0 0 0 0 0 0)]),
     Ok ([], ∅)).
Proof. intros Hlist. unfold process_drama_id. rewrite Hlist. reflexivity. Qed.

(** C9: when the episode-list fetch yields the empty list, whatever the
    scalar fields it yields with it, [process_drama_id] writes no episode
    row and exactly one summary row, with zero sums, zero set sizes and no
    earliest creation time, and returns the empty list and the empty set;
    [runner]'s loop then goes on with the next identifier. *)
Theorem process_drama_id_empty_list (net : network) (fuel : nat) (drama_id : string)
    (name price view_count catalog_name : json) (order : list nat) (out : files) :
  result (get_drama_sound_lists net drama_id)
  = Ok ([], name, price, view_count, catalog_name) ->
  let row := DramaRow.Make drama_id name None price view_count 0 0 0 0 0 0 0 0 in
  let out' := Files (sound_file out) (drama_file out ++ [Row row]) in
  process_drama_id net fuel drama_id order out = (out', Ok ([], ∅)) /\
  forall raw ids k sched drama_sound all_paid,
    strip raw = drama_id ->
    runner_loop net fuel (raw :: ids) k sched drama_sound all_paid out
    = runner_loop net fuel ids (S k) sched (<[raw := []]> drama_sound) (all_paid ∪ ∅) out'.
Proof.
  intros Hlist row out'.
  assert (forall o, process_drama_id net fuel drama_id o out = (out', Ok ([], ∅))) as Hp.
  { intros o. by apply process_drama_id_nil with (catalog_name := catalog_name). }
  split; [apply Hp |].
  intros raw ids k sched drama_sound all_paid Hraw.
  cbn [runner_loop]. rewrite Hraw, Hp. reflexivity.
Qed.

Lemma process_drama_id_empty_list_witness :
  process_drama_id list_down_server 1 "62452" [] (Files [Header] [Header])
  = (Files [Header]
       [Header; Row (DramaRow.Make "62452" (JStr "") None (JStr "") (JStr "") 0 0 0 0 0 0 0 0)],
     Ok ([], ∅)).
Proof.
  apply (process_drama_id_empty_list list_down_server 1 "62452"
           (JStr "") (JStr "") (JStr "") (JStr "") [] (Files [Header] [Header])).
  reflexivity.
Defined.

(** ** Failures inside an episode *)

(** C10: there is a threaded-comment page that is well-formed JSON but has
    no [Datas] on which [fetch_all_uids_by_comments] raises [KeyError];
    nothing catches it, so [process_sound] raises it, and
    [process_drama_id] raises it when it joins the futures, in either
    completion order, without writing any row: the rows of the other
    episode and the summary row are lost too. *)
Theorem threaded_parse_failure_aborts_drama :
  exists (net : network) (sound : Sound.t) (data : json),
    serves net (Sound.sound_id sound) 1 data /\
    extract_user_ids data = Raise KeyError /\
    forall (fuel : nat) (out : files),
      result (fetch_all_uids_by_comments net (S fuel) (Sound.sound_id sound))
      = Raise KeyError /\
      result (process_sound net (S fuel) sound) = Raise KeyError /\
      process_drama_id net (S fuel) "1" [0; 1]%nat out = (out, Raise KeyError) /\
      process_drama_id net (S fuel) "1" [1; 0]%nat out = (out, Raise KeyError).
Proof.
  exists comments_incomplete_server, (Sound.Make (JInt 102) (JStr "B") (JInt 1)),
    (JObj [("info", JObj [("comment", JObj [("hasMore", JBool false)])])]).
  split; [eexists; split; [reflexivity | split; reflexivity] |].
  split; [reflexivity |].
  intros fuel out. repeat split; vm_compute; reflexivity.
Qed.

(** C1 fails for the threaded-comment fetch: when that endpoint does not
    answer for one episode, [fetch_all_uids_by_comments] raises,
    [process_drama_id] raises without writing the summary row, and [runner]
    ends with that exception, its files holding the headers only. *)
Lemma threaded_transport_failure_aborts_run :
  comments_down_server (getcomment (JInt 102) 1 100) = NoReply /\
  result (fetch_all_uids_by_comments comments_down_server 1 (JInt 102))
  = Raise ConnectionError /\
  process_drama_id comments_down_server 1 "1" [0; 1]%nat (Files [Header] [Header])
  = (Files [Header] [Header], Raise ConnectionError) /\
  process_drama_id comments_down_server 1 "1" [1; 0]%nat (Files [Header] [Header])
  = (Files [Header] [Header], Raise ConnectionError) /\
  runner comments_down_server 1 "1" (fun _ => [0; 1]%nat)
  = (Files [Header] [Header], Raise ConnectionError).
Proof. repeat split; vm_compute; reflexivity. Qed.

(** ** Drama aggregator: the two-episode scenario *)

(** C8: for the drama of [two_episode_server] (episode A free, view count
    10, inline {1,2}, threaded {2,3}; episode B paid, view count 5, inline
    {4}, threaded {}), in every completion order, [process_drama_id] writes
    a summary row with free view-count sum 10, paid view-count sum 5, free
    union size 3 and paid union size 1, and a row for A whose combined-set
    size is 3. *)
Theorem process_drama_id_two_episode_scenario (fuel : nat) (order : list nat)
    (out : files) :
  (0 < fuel)%nat ->
  completion_order 2 order ->
  exists out' sound_data paid (summary : DramaRow.t) (row_a row_b : SoundRow.t),
    process_drama_id two_episode_server fuel "1" order out
    = (out', Ok (sound_data, paid)) /\
    drama_file out' = (drama_file out ++ [Row summary])%list /\
    sound_file out' = (sound_file out ++ [Row row_a; Row row_b])%list /\
    DramaRow.free_view_count summary = 10 /\
    DramaRow.paid_view_count summary = 5 /\
    DramaRow.total_free_udis summary = 3%nat /\
    DramaRow.total_paid_udis summary = 1%nat /\
    SoundRow.sound_title row_a = JStr "A" /\
    SoundRow.need_pay row_a = JInt 0 /\
    SoundRow.danmaku_uids row_a = 2%nat /\
    SoundRow.comment_uids row_a = 2%nat /\
    SoundRow.total_sound_uids row_a = 3%nat.
Proof.
  intros Hfuel Horder. destruct fuel as [|fuel]; [lia |].
  unfold completion_order in Horder. simpl in Horder. symmetry in Horder.
  apply Permutation_length_2_inv in Horder as [-> | ->];
    do 6 eexists; (split; [vm_compute; reflexivity |]);
    (split; [reflexivity |]);
    (split; [symmetry; apply (app_assoc _ [_] [_]) |]);
    repeat split; reflexivity.
Qed.

Lemma process_drama_id_two_episode_scenario_witness :
  exists out' sound_data paid (summary : DramaRow.t) (row_a row_b : SoundRow.t),
    process_drama_id two_episode_server 1 "1" [1; 0]%nat (Files [Header] [Header])
    = (out', Ok (sound_data, paid)) /\
    drama_file out' = ([Header] ++ [Row summary])%list /\
    sound_file out' = ([Header] ++ [Row row_a; Row row_b])%list /\
    DramaRow.free_view_count summary = 10 /\
    DramaRow.paid_view_count summary = 5 /\
    DramaRow.total_free_udis summary = 3%nat /\
    DramaRow.total_paid_udis summary = 1%nat /\
    SoundRow.sound_title row_a = JStr "A" /\
    SoundRow.need_pay row_a = JInt 0 /\
    SoundRow.danmaku_uids row_a = 2%nat /\
    SoundRow.comment_uids row_a = 2%nat /\
    SoundRow.total_sound_uids row_a = 3%nat.
Proof.
  apply (process_drama_id_two_episode_scenario 1 [1; 0]%nat (Files [Header] [Header])).
  - lia.
  - unfold completion_order. simpl. apply perm_swap.
Defined.

(** ** Drama aggregator: the loop over completed futures *)

Lemma join_future_eq sound future st :
  join_future sound future st = x ← join_check sound future; Ok (join_update x st).
Proof.
  unfold join_future, join_check, join_update, earlier.
  unfold SoundDetail.create_time, SoundDetail.view_count.
  destruct future as [d| |]; simpl; try reflexivity.
  destruct (SoundDetail.detail d) as [dt|]; simpl.
  - destruct (first_sound_create_time st) as [t|]; simpl.
    + destruct (datetime_lt (Detail.create_time dt) t) eqn:E; simpl;
        destruct (py_gt (Sound.need_pay sound) (JInt 0)) as [[|]| |]; simpl;
        try reflexivity;
        destruct (py_int (Detail.view_count dt)); simpl; rewrite ?E; reflexivity.
    + destruct (py_gt (Sound.need_pay sound) (JInt 0)) as [[|]| |]; simpl;
        try reflexivity;
        destruct (py_int (Detail.view_count dt)); reflexivity.
  - destruct (first_sound_create_time st); reflexivity.
Qed.

Lemma join_futures_eq sound_lists futures order st :
  Forall (fun i => is_Some (sound_lists !! i) /\ is_Some (futures !! i)) order ->
  join_futures sound_lists futures order st
  = xs ← traverse (checked sound_lists futures) order; Ok (join_all xs st).
Proof.
  intros Hvalid. revert st. induction Hvalid as [|i order [[s Hs] [f Hf]] _ IH]; intros st.
  - reflexivity.
  - assert (checked sound_lists futures i = join_check s f) as Hc.
    { unfold checked. rewrite Hs, Hf. reflexivity. }
    cbn [join_futures traverse]. rewrite Hs, Hf, Hc, join_future_eq.
    destruct (join_check s f) as [x| |]; simpl; try reflexivity.
    rewrite IH.
    destruct (traverse (checked sound_lists futures) order); reflexivity.
Qed.

Lemma join_check_Ok sound future x :
  join_check sound future = Ok x ->
  future = Ok (joined_detail x) /\
  SoundDetail.create_time (joined_detail x) = Ok (joined_time x) /\
  py_gt (Sound.need_pay sound) (JInt 0) = Ok (joined_paid x) /\
  (vc ← SoundDetail.view_count (joined_detail x); py_int vc) = Ok (joined_views x).
Proof.
  unfold join_check. intros H.
  apply bind_Ok in H as [d [Hd H]]. apply bind_Ok in H as [ct [Hct H]].
  apply bind_Ok in H as [paid [Hpaid H]]. apply bind_Ok in H as [vc [Hvc H]].
  apply bind_Ok in H as [n [Hn H]]. injection H as <-. simpl.
  rewrite Hvc. auto.
Qed.

Lemma join_all_snoc xs x st :
  join_all (xs ++ [x]) st = join_update x (join_all xs st).
Proof. unfold join_all. by rewrite foldl_snoc. Qed.

Lemma sound_data_join_update x st :
  sound_data (join_update x st) = (sound_data st ++ [joined_detail x])%list.
Proof. unfold join_update. destruct (joined_paid x); reflexivity. Qed.

Lemma sound_data_join_all xs st :
  sound_data (join_all xs st) = (sound_data st ++ (joined_detail <$> xs))%list.
Proof.
  induction xs as [|x xs IH] using rev_ind.
  - simpl. by rewrite app_nil_r.
  - rewrite join_all_snoc, sound_data_join_update, IH, fmap_app, app_assoc.
    reflexivity.
Qed.



Lemma write_sound_rows_Ok l rs out :
  traverse sound_row l = Ok rs ->
  write_sound_rows l out
  = (Files (sound_file out ++ (Row <$> rs)) (drama_file out), Ok tt).
Proof.
  revert rs out. induction l as [|d l IH]; intros rs out H.
  - injection H as <-. simpl. rewrite app_nil_r. by destruct out.
  - simpl in H. apply bind_Ok in H as [r [Hr H]].
    apply bind_Ok in H as [rs' [Hrs [= <-]]].
    simpl. rewrite Hr, (IH rs' _ Hrs). simpl.
    by rewrite <- app_assoc.
Qed.

Lemma write_sound_rows_inv l out out' u :
  write_sound_rows l out = (out', Ok u) -> exists rs, traverse sound_row l = Ok rs.
Proof.
  revert out. induction l as [|d l IH]; intros out H.
  - by exists [].
  - simpl in H. simpl. destruct (sound_row d) as [r| |]; try discriminate.
    apply IH in H as [rs ->]. by exists (r :: rs).
Qed.

(** Under a completion order every position is that of a submitted task. *)
Lemma completion_order_valid {A B} (l : list A) (l' : list B) order :
  length l' = length l ->
  completion_order (length l) order ->
  Forall (fun i => is_Some (l !! i) /\ is_Some (l' !! i)) order.
Proof.
  intros Hlen Horder. apply Forall_forall. intros i Hi.
  unfold completion_order in Horder. rewrite Horder in Hi.
  apply elem_of_seq in Hi.
  split; apply lookup_lt_is_Some; lia.
Qed.

Lemma length_run_pool net fuel sl : length (run_pool net fuel sl) = length sl.
Proof. unfold run_pool. apply length_fmap. Qed.

Lemma checked_Ok sl futs i x :
  checked sl futs i = Ok x ->
  exists s, sl !! i = Some s /\ futs !! i = Some (Ok (joined_detail x)) /\
            join_check s (Ok (joined_detail x)) = Ok x.
Proof.
  unfold checked. intros H.
  destruct (sl !! i) as [s|]; [|discriminate].
  destruct (futs !! i) as [f|]; [|discriminate].
  destruct (join_check_Ok _ _ _ H) as [-> _]. eauto.
Qed.

(** When every future joins, no task of the pool has diverged. *)
Lemma pool_no_Diverge sl futs order xs :
  length futs = length sl ->
  completion_order (length sl) order ->
  traverse (checked sl futs) order = Ok xs ->
  existsb is_Diverge futs = false.
Proof.
  intros Hlen Horder Hxs.
  destruct (existsb is_Diverge futs) eqn:E; [|reflexivity].
  apply existsb_exists in E as (f & Hin & Hf).
  apply list_elem_of_In, list_elem_of_lookup in Hin as [i Hi].
  assert (i ∈ order) as Hio.
  { unfold completion_order in Horder. rewrite Horder. apply elem_of_seq.
    apply lookup_lt_Some in Hi. lia. }
  apply list_elem_of_lookup in Hio as [j Hj].
  apply traverse_Ok in Hxs.
  destruct (Forall2_lookup_l _ _ _ _ _ Hxs Hj) as (x & _ & Hx).
  apply checked_Ok in Hx as (s & _ & Hf' & _).
  rewrite Hi in Hf'. injection Hf' as ->. discriminate.
Qed.

(** What [process_drama_id] does on a non-empty episode list, in terms of
    the futures that join. *)
Lemma process_drama_id_Ok_iff net fuel drama_id order out sl name price vc cat
    out' sd paid :
  result (get_drama_sound_lists net drama_id) = Ok (sl, name, price, vc, cat) ->
  sl <> [] ->
  completion_order (length sl) order ->
  process_drama_id net fuel drama_id order out = (out', Ok (sd, paid)) <->
  exists xs rs,
    traverse (checked sl (run_pool net fuel sl)) order = Ok xs /\
    py_sort SoundDetail.sound_id (joined_detail <$> xs) = Ok sd /\
    traverse sound_row sd = Ok rs /\
    paid = total_paid_udis (join_all xs initial_locals) /\
    out' = Files (sound_file out ++ (Row <$> rs))
             (drama_file out
                ++ [Row (drama_row drama_id name price vc (join_all xs initial_locals))]).
Proof.
  intros Hlist Hne Horder.
  assert (Forall (fun i => is_Some (sl !! i) /\ is_Some (run_pool net fuel sl !! i)) order)
    as Hvalid.
  { apply completion_order_valid; [apply length_run_pool | exact Horder]. }
  unfold process_drama_id. rewrite Hlist. unfold fan_out.
  destruct sl as [|s0 sl0] eqn:Esl; [done |]. rewrite <- Esl in *.
  split.
  - destruct (existsb is_Diverge (run_pool net fuel sl)); [discriminate |].
    rewrite (join_futures_eq _ _ _ _ Hvalid).
    destruct (traverse (checked sl (run_pool net fuel sl)) order) as [xs| |] eqn:Exs;
      simpl; try discriminate.
    rewrite sound_data_join_all. simpl.
    destruct (py_sort SoundDetail.sound_id (joined_detail <$> xs)) as [sorted| |]
      eqn:Esort; try discriminate.
    destruct (write_sound_rows sorted out) as [out1 [u| |]] eqn:Ew; try discriminate.
    intros H. injection H as Hout Hsd Hpaid. subst out' sd paid.
    destruct (write_sound_rows_inv _ _ _ _ Ew) as [rs Hrs].
    rewrite (write_sound_rows_Ok _ _ out Hrs) in Ew. injection Ew as Hout1 _.
    subst out1. exists xs, rs. repeat split; try assumption; reflexivity.
  - intros (xs & rs & Hxs & Hsort & Hrs & -> & ->).
    rewrite (pool_no_Diverge _ _ _ _ (length_run_pool net fuel sl) Horder Hxs).
    rewrite (join_futures_eq _ _ _ _ Hvalid), Hxs. simpl.
    rewrite sound_data_join_all. simpl. rewrite Hsort.
    rewrite (write_sound_rows_Ok _ _ out Hrs). reflexivity.
Qed.

(** ** Ordering of identifiers *)

Lemma String_leb_trans s t u :
  String.leb s t = true -> String.leb t u = true -> String.leb s u = true.
Proof.
  unfold String.leb. revert t u.
  induction s as [|a s IH]; intros [|b t] [|c u]; simpl; try done.
  unfold Ascii.compare.
  destruct (N.compare_spec (N_of_ascii a) (N_of_ascii b)) as [Hab|Hab|Hab];
    destruct (N.compare_spec (N_of_ascii b) (N_of_ascii c)) as [Hbc|Hbc|Hbc];
    try done.
  - rewrite Hab, Hbc, N.compare_refl. apply IH.
  - rewrite Hab. intros _ _. apply N.compare_lt_iff in Hbc. by rewrite Hbc.
  - rewrite <- Hbc. intros _ _. apply N.compare_lt_iff in Hab. by rewrite Hab.
  - intros _ _. assert (N_of_ascii a < N_of_ascii c)%N as H by lia.
    apply N.compare_lt_iff in H. by rewrite H.
Qed.

#[local] Instance okey_le_trans : Transitive okey_le.
Proof.
  intros [[x|s]|] [[y|t]|] [[z|u]|]; simpl; try done; try lia.
  apply String_leb_trans.
Qed.

#[local] Instance okey_le_antisym : AntiSymm (=) okey_le.
Proof.
  intros [[x|s]|] [[y|t]|]; simpl; try done.
  - intros. do 2 f_equal. lia.
  - intros H1 H2. do 2 f_equal. by apply String.leb_antisym.
Qed.

(** [<] on numbers and strings, and between them and other values. *)
Lemma py_lt_cases a b :
  match key_of a, key_of b with
  | Some x, Some y => py_lt a b = of_option (key_lt x y) TypeError
  | None, None => True
  | _, _ => py_lt a b = Raise TypeError
  end.
Proof.
  destruct a as [|[|]|n|s|l|kvs], b as [|[|]|m|t|l'|kvs']; simpl;
    try reflexivity; exact I.
Qed.

(** [<] is defined between two values of one kind only. *)
Lemma py_lt_Ok_kind a b r :
  py_lt a b = Ok r -> exists c, kind_of a = Some c /\ kind_of b = Some c.
Proof.
  destruct a as [|[|]|n|s|l|kvs], b as [|[|]|m|t|l'|kvs'];
    try (simpl; discriminate); intros _; eexists; split; reflexivity.
Qed.

Lemma cls_kind v c :
  cls v = Some c <-> kind_of v = Some (if c then Number else Text).
Proof.
  unfold cls. destruct v as [|[|]|n|s|l|kvs], c; simpl; split; congruence.
Qed.

Lemma py_lt_Ok_cls a b r :
  py_lt a b = Ok r -> is_Some (key_of a) ->
  exists c, cls a = Some c /\ cls b = Some c.
Proof.
  intros H [x Hx]. pose proof (py_lt_cases a b) as Hc. unfold cls.
  rewrite Hx in Hc |- *. destruct (key_of b) as [y|]; [|congruence].
  rewrite Hc in H. destruct x as [x|s], y as [y|t]; simpl in *;
    try discriminate; eauto.
Qed.

Lemma py_lt_total a b c :
  cls a = Some c -> cls b = Some c -> exists r, py_lt a b = Ok r.
Proof.
  pose proof (py_lt_cases a b) as Hc. unfold cls.
  destruct (key_of a) as [[x|s]|], (key_of b) as [[y|t]|]; simpl in *;
    try discriminate; rewrite ?Hc; eauto; intros [= <-] [=].
Qed.

Lemma py_lt_true_le a b :
  py_lt a b = Ok true -> okey_le (key_of a) (key_of b).
Proof.
  pose proof (py_lt_cases a b) as Hc.
  destruct (key_of a) as [[x|s]|], (key_of b) as [[y|t]|]; simpl in *;
    try done; rewrite Hc; try discriminate.
  - intros [= H]. apply Z.ltb_lt in H. lia.
  - intros [= H]. unfold String.ltb, String.leb in *.
    by destruct (String.compare s t).
Qed.

Lemma py_lt_false_le a b :
  py_lt a b = Ok false -> okey_le (key_of b) (key_of a).
Proof.
  pose proof (py_lt_cases a b) as Hc.
  destruct (key_of a) as [[x|s]|], (key_of b) as [[y|t]|]; simpl in *;
    try done; rewrite Hc; try discriminate.
  - intros [= H]. apply Z.ltb_ge in H. lia.
  - intros [= H]. unfold String.ltb, String.leb in *.
    rewrite String.compare_antisym. by destruct (String.compare s t).
Qed.

Lemma okey_le_py_lt a b c :
  cls a = Some c -> cls b = Some c ->
  okey_le (key_of a) (key_of b) -> py_lt b a = Ok false.
Proof.
  pose proof (py_lt_cases b a) as Hc. unfold cls.
  destruct (key_of a) as [[x|s]|], (key_of b) as [[y|t]|]; simpl in *;
    try discriminate; try (intros [= <-] [=]; fail); rewrite Hc.
  - intros _ _ H. f_equal. apply Z.ltb_ge. lia.
  - intros _ _ H. f_equal. unfold String.ltb, String.leb in *.
    rewrite String.compare_antisym. by destruct (String.compare s t).
Qed.

(** Of two numbers, or two strings, that are equal, none is below the
    other. *)
Lemma py_lt_same_key a b x :
  key_of a = Some x -> key_of b = Some x -> py_lt a b <> Ok true.
Proof.
  intros Ha Hb. pose proof (py_lt_cases a b) as Hc. rewrite Ha, Hb in Hc.
  rewrite Hc. destruct x as [x|s]; simpl.
  - rewrite Z.ltb_irrefl. discriminate.
  - unfold String.ltb. pose proof (String.compare_antisym s s) as H.
    destruct (String.compare s s); simpl in H; discriminate.
Qed.

(** ** The sort *)

Section SortFacts.
Context {A : Type} (k : A -> json).

Lemma insert_sorted_perm x l r : insert_sorted k x l = Ok r -> r ≡ₚ x :: l.
Proof.
  revert r. induction l as [|y l IH]; intros r; simpl.
  - by intros [= <-].
  - intros H. apply bind_Ok in H as [[|] [Hlt H]].
    + apply bind_Ok in H as [r' [Hr' [= <-]]].
      rewrite (IH _ Hr'). apply perm_swap.
    + by injection H as <-.
Qed.

Lemma py_sort_perm l r : py_sort k l = Ok r -> r ≡ₚ l.
Proof.
  revert r. induction l as [|x l IH]; intros r; simpl.
  - by intros [= <-].
  - intros H. apply bind_Ok in H as [s [Hs H]].
    rewrite (insert_sorted_perm _ _ _ H). by rewrite (IH _ Hs).
Qed.

Lemma insert_sorted_total c x l :
  cls (k x) = Some c -> Forall (fun a => cls (k a) = Some c) l ->
  exists r, insert_sorted k x l = Ok r.
Proof.
  intros Hx. induction 1 as [|y l Hy _ [r IH]]; simpl; [eauto |].
  destruct (py_lt_total _ _ _ Hy Hx) as [[|] ->]; simpl; [|eauto].
  rewrite IH. simpl. eauto.
Qed.

Lemma py_sort_total c l :
  Forall (fun a => cls (k a) = Some c) l -> exists r, py_sort k l = Ok r.
Proof.
  induction 1 as [|x l Hx Hl [s IH]]; simpl; [eauto |].
  rewrite IH. simpl. apply (insert_sorted_total c); [exact Hx |].
  by rewrite (py_sort_perm _ _ IH).
Qed.

(** A sort of two elements or more that succeeds has compared keys of
    one kind only. *)
Lemma py_sort_homogeneous l r :
  py_sort k l = Ok r -> (2 <= length l)%nat ->
  exists c, Forall (fun a => kind_of (k a) = Some c) l.
Proof.
  revert r. induction l as [|x l IH]; intros r; simpl; [lia |].
  intros H Hlen. apply bind_Ok in H as [s [Hs H]].
  assert (s ≡ₚ l) as Hperm by by apply py_sort_perm.
  destruct s as [|y s].
  { apply Permutation_nil_l in Hperm. subst l. simpl in Hlen. lia. }
  simpl in H. apply bind_Ok in H as [lt [Hlt _]].
  destruct (py_lt_Ok_kind _ _ _ Hlt) as (c & Hy & Hx).
  exists c. constructor; [exact Hx |].
  destruct (decide (2 <= length l)%nat) as [Hl | Hl].
  - destruct (IH _ Hs Hl) as [c' Hc'].
    assert (c' = c) as ->; [|exact Hc'].
    assert (y ∈ l) as Hin by (rewrite <- Hperm; by left).
    rewrite Forall_forall in Hc'. specialize (Hc' y Hin). congruence.
  - assert (l = [y]) as ->; [|by constructor].
    apply Permutation_length in Hperm as Hlen'. simpl in Hlen'.
    destruct s; [|simpl in *; lia]. by apply Permutation_singleton_l in Hperm.
Qed.

(** When one of the keys is a number or a string, they are all numbers or
    all strings. *)
Lemma py_sort_homogeneous_cls l r :
  py_sort k l = Ok r -> (2 <= length l)%nat ->
  Exists (fun a => is_Some (key_of (k a))) l ->
  exists c, Forall (fun a => cls (k a) = Some c) l.
Proof.
  intros H Hlen Hex. destruct (py_sort_homogeneous _ _ H Hlen) as [c Hc].
  apply Exists_exists in Hex as (a & Ha & [x Hx]).
  rewrite Forall_forall in Hc. pose proof (Hc a Ha) as Hka.
  destruct c.
  - exists true. apply Forall_forall. intros b Hb. by apply cls_kind, Hc.
  - exists false. apply Forall_forall. intros b Hb. by apply cls_kind, Hc.
  - destruct (k a); simpl in *; discriminate.
Qed.

Lemma insert_sorted_sorted x l r :
  StronglySorted (key_le k) l -> insert_sorted k x l = Ok r -> StronglySorted (key_le k) r.
Proof.
  intros Hl. revert r. induction Hl as [|y l Hl IH Hy]; intros r; simpl.
  - intros [= <-]. repeat constructor.
  - intros H. apply bind_Ok in H as [[|] [Hlt H]].
    + apply bind_Ok in H as [r' [Hr' [= <-]]].
      constructor; [by apply IH |].
      rewrite (insert_sorted_perm _ _ _ Hr'). constructor; [|exact Hy].
      by apply py_lt_true_le.
    + injection H as <-. apply py_lt_false_le in Hlt.
      constructor; [by constructor |]. constructor; [exact Hlt |].
      eapply Forall_impl; [exact Hy |]. intros z Hz. unfold key_le in *.
      by etrans.
Qed.

Lemma py_sort_sorted l r : py_sort k l = Ok r -> StronglySorted (key_le k) r.
Proof.
  revert r. induction l as [|x l IH]; intros r; simpl.
  - intros [= <-]. constructor.
  - intros H. apply bind_Ok in H as [s [Hs H]].
    eapply insert_sorted_sorted; [by apply IH | exact H].
Qed.

Lemma StronglySorted_impl_Forall (P : A -> Prop) (R R' : relation A) l :
  (forall a b, P a -> P b -> R a b -> R' a b) ->
  Forall P l -> StronglySorted R l -> StronglySorted R' l.
Proof.
  intros HR HP Hl. induction Hl as [|x l Hl IH Hx]; [constructor |].
  apply Forall_cons in HP as [Px Pl]. constructor; [by apply IH |].
  rewrite Forall_forall in *. intros y Hy. apply HR; auto.
Qed.

(** The list [py_sort] returns is in ascending order of [<], when the keys
    are numbers or strings. *)
Lemma py_sort_ascending l r :
  Forall (fun a => is_Some (key_of (k a))) l ->
  py_sort k l = Ok r -> ascending k r.
Proof.
  intros Hkeys H. unfold ascending.
  assert (r ≡ₚ l) as Hperm by by apply py_sort_perm.
  destruct (decide (2 <= length l)%nat) as [Hl | Hl].
  - destruct (py_sort_homogeneous_cls _ _ H Hl) as [c Hc].
    { destruct l as [|a l]; [simpl in Hl; lia |].
      apply Forall_cons in Hkeys as [Ha _]. by left. }
    rewrite <- Hperm in Hc.
    eapply StronglySorted_impl_Forall; [| exact Hc | by eapply py_sort_sorted].
    intros a b Ha Hb Hab. exact (okey_le_py_lt _ _ c Ha Hb Hab).
  - apply Permutation_length in Hperm.
    destruct r as [|a [|b r]]; simpl in *; try lia; repeat constructor.
Qed.

(** The sort is stable: the elements of one key, a number or a string,
    stay in the order they had. *)
Lemma insert_sorted_stable (key0 : key) x l r :
  insert_sorted k x l = Ok r ->
  filter (fun a => key_of (k a) = Some key0) r
  = filter (fun a => key_of (k a) = Some key0) (x :: l).
Proof.
  revert r. induction l as [|y l IH]; intros r; simpl.
  - by intros [= <-].
  - intros H. apply bind_Ok in H as [[|] [Hlt H]].
    + apply bind_Ok in H as [r' [Hr' [= <-]]].
      specialize (IH _ Hr').
      destruct (decide (key_of (k y) = Some key0)) as [Hy | Hy].
      * rewrite (filter_cons_True _ y r') by exact Hy. rewrite IH.
        assert (key_of (k x) <> Some key0) as Hx.
        { intros Hx. by apply (py_lt_same_key _ _ _ Hy Hx). }
        rewrite (filter_cons_False _ x l) by exact Hx.
        rewrite (filter_cons_False _ x (y :: l)) by exact Hx.
        by rewrite (filter_cons_True _ y l) by exact Hy.
      * rewrite (filter_cons_False _ y r') by exact Hy. rewrite IH.
        destruct (decide (key_of (k x) = Some key0)) as [Hx | Hx].
        -- rewrite !(filter_cons_True _ x) by exact Hx.
           by rewrite (filter_cons_False _ y l) by exact Hy.
        -- rewrite !(filter_cons_False _ x) by exact Hx.
           by rewrite (filter_cons_False _ y l) by exact Hy.
    + by injection H as <-.
Qed.

Lemma py_sort_stable (key0 : key) l r :
  py_sort k l = Ok r ->
  filter (fun a => key_of (k a) = Some key0) r
  = filter (fun a => key_of (k a) = Some key0) l.
Proof.
  revert r. induction l as [|x l IH]; intros r; simpl.
  - by intros [= <-].
  - intros H. apply bind_Ok in H as [s [Hs H]].
    rewrite (insert_sorted_stable key0 _ _ _ H).
    destruct (decide (key_of (k x) = Some key0)) as [Hx | Hx].
    + rewrite !(filter_cons_True _ x) by exact Hx. f_equal. by apply IH.
    + rewrite !(filter_cons_False _ x) by exact Hx. by apply IH.
Qed.

(** With pairwise distinct keys, the sorted list does not depend on the
    order of the input. *)
Lemma py_sort_order_independent l1 l2 r :
  l1 ≡ₚ l2 ->
  NoDup ((fun a => key_of (k a)) <$> l1) ->
  py_sort k l1 = Ok r -> py_sort k l2 = Ok r.
Proof.
  intros Hperm Hnodup H1.
  destruct (decide (2 <= length l1)%nat) as [Hl | Hl].
  - destruct (py_sort_homogeneous_cls _ _ H1 Hl) as [c Hc].
    { destruct l1 as [|a [|b l1]]; try (simpl in Hl; lia).
      destruct (key_of (k a)) as [x|] eqn:Ea; [left; by rewrite Ea |].
      destruct (key_of (k b)) as [y|] eqn:Eb; [right; left; by rewrite Eb |].
      exfalso. simpl in Hnodup. rewrite Ea, Eb in Hnodup.
      apply NoDup_cons in Hnodup as [Hnot _]. apply Hnot. by left. }
    assert (Forall (fun a => cls (k a) = Some c) l2) as Hc2 by by rewrite <- Hperm.
    destruct (py_sort_total c l2 Hc2) as [r2 H2]. rewrite H2. f_equal.
    assert (r ≡ₚ l1) as Hr by by apply py_sort_perm.
    assert (r2 ≡ₚ l2) as Hr2 by by apply py_sort_perm.
    symmetry. apply (StronglySorted_unique_strong (key_le k)).
    + intros x1 x2 Hx1 Hx2 H12 H21.
      assert (key_of (k x1) = key_of (k x2)) as Heq by by apply (anti_symm okey_le).
      rewrite Hr in Hx1. rewrite Hr2, <- Hperm in Hx2.
      apply list_elem_of_lookup in Hx1 as [i Hi], Hx2 as [j Hj].
      assert (i = j) as ->; [|congruence].
      eapply NoDup_lookup; [exact Hnodup | |];
        rewrite list_lookup_fmap; [rewrite Hi | rewrite Hj]; simpl;
        [reflexivity | by rewrite Heq].
    + by eapply py_sort_sorted.
    + by eapply py_sort_sorted.
    + by rewrite Hr, Hr2.
  - assert (l2 = l1) as ->; [|exact H1].
    apply Permutation_length in Hperm as Hlen.
    destruct l1 as [|a [|b l1]]; simpl in *; try lia.
    + by apply Permutation_nil_l in Hperm.
    + by apply Permutation_singleton_l in Hperm.
Qed.
End SortFacts.

(** ** Drama aggregator: earliest creation time *)


Lemma traverse_length {A B} (f : A -> outcome B) l ys :
  traverse f l = Ok ys -> length ys = length l.
Proof. intros H. apply traverse_Ok in H. symmetry. by eapply Forall2_length. Qed.


(** A detail document without [create_time] gives the record the epoch as
    its creation time: [sound.get('create_time', 0)]. *)
Lemma get_sound_detail_default_epoch net sound_id resp fields :
  net (getsound sound_id) = Reply resp ->
  raise_for_status resp = Ok tt ->
  json_doc resp = Some (sound_doc fields) ->
  assoc "create_time" fields = None ->
  exists d, result (get_sound_detail net sound_id) = Ok (Some d) /\
            Detail.create_time d = Datetime 0.
Proof.
  intros Hnet Hst Hjson Hct. unfold get_sound_detail.
  rewrite (requests_get_reply net _ resp Hnet), io_bind_IO.
  unfold try_except, response_json. simpl. rewrite Hst, Hjson. simpl.
  rewrite Hct. simpl. eauto.
Qed.


(** On that server the episode without [create_time] makes the epoch the
    earliest creation time of the summary row. *)
Lemma absent_create_time_makes_epoch_earliest :
  DramaRow.first_sound_create_time
    <$> (match last (drama_file (process_drama_id no_create_time_server 1 "1"
                                   [0; 1]%nat (Files [Header] [Header])).1) with
         | Some (Row row) => Some row
         | _ => None
         end)
  = Some (Some (Datetime 0)).
Proof. vm_compute. reflexivity. Qed.

(** ** Drama aggregator: completion order *)

Lemma traverse_perm {A B} (f : A -> outcome B) l1 l2 xs1 :
  l1 ≡ₚ l2 -> traverse f l1 = Ok xs1 ->
  exists xs2, traverse f l2 = Ok xs2 /\ xs1 ≡ₚ xs2.
Proof.
  intros Hperm. revert xs1.
  induction Hperm as [|a l1 l2 _ IH|a b l|l1 l2 l3 _ IH1 _ IH2]; intros xs1 H.
  - exists xs1. by split.
  - simpl in H. apply bind_Ok in H as [y [Hy H]].
    apply bind_Ok in H as [ys [Hys [= <-]]].
    destruct (IH _ Hys) as (ys2 & H2 & Hp). exists (y :: ys2).
    simpl. rewrite Hy, H2. simpl. split; [reflexivity | by constructor].
  - simpl in H. apply bind_Ok in H as [y [Hy H]].
    apply bind_Ok in H as [ys [H [= <-]]].
    apply bind_Ok in H as [z [Hz H]].
    apply bind_Ok in H as [zs [Hzs [= <-]]].
    exists (z :: y :: zs). simpl. rewrite Hz, Hy, Hzs. simpl.
    split; [reflexivity | apply perm_swap].
  - destruct (IH1 _ H) as (xs2 & H2 & Hp2).
    destruct (IH2 _ H2) as (xs3 & H3 & Hp3).
    exists xs3. split; [exact H3 | by etrans].
Qed.

Lemma earlier_comm a b : earlier a b = earlier b a.
Proof.
  unfold earlier, datetime_lt. destruct a as [x], b as [y]. simpl.
  destruct (x <? y) eqn:E1, (y <? x) eqn:E2; try reflexivity.
  - apply Z.ltb_lt in E1, E2. lia.
  - apply Z.ltb_ge in E1, E2. f_equal. lia.
Qed.

Lemma earlier_left_comm a b c : earlier a (earlier b c) = earlier b (earlier a c).
Proof.
  unfold earlier, datetime_lt. destruct a as [x], b as [y], c as [z]. simpl.
  destruct (y <? z) eqn:E1, (x <? z) eqn:E2; simpl; rewrite ?E1, ?E2;
    try reflexivity.
  - destruct (x <? y) eqn:E3, (y <? x) eqn:E4; try reflexivity.
    + apply Z.ltb_lt in E3, E4. lia.
    + apply Z.ltb_ge in E3, E4. f_equal. lia.
  - apply Z.ltb_lt in E1. apply Z.ltb_ge in E2.
    assert ((x <? y) = false) as -> by (apply Z.ltb_ge; lia). reflexivity.
  - apply Z.ltb_lt in E2. apply Z.ltb_ge in E1.
    assert ((y <? x) = false) as -> by (apply Z.ltb_ge; lia). reflexivity.
Qed.

Lemma aggregates_join_update x st st' :
  aggregates st = aggregates st' ->
  aggregates (join_update x st) = aggregates (join_update x st').
Proof.
  unfold aggregates, join_update. intros [= -> -> -> -> -> -> -> -> ->].
  destruct (joined_paid x); reflexivity.
Qed.

Lemma aggregates_join_update_comm x y st :
  aggregates (join_update x (join_update y st))
  = aggregates (join_update y (join_update x st)).
Proof.
  assert (forall X Y Z : gset Z, X ∪ Y ∪ Z = X ∪ Z ∪ Y) as Hu.
  { intros X Y Z0. rewrite <- !(assoc_L (∪)). f_equal. apply (comm_L (∪)). }
  unfold aggregates, join_update.
  destruct (joined_paid x), (joined_paid y); simpl;
    f_equal; try apply Hu; try lia;
    (destruct (first_sound_create_time st);
       [f_equal; apply earlier_left_comm | f_equal; apply earlier_comm]).
Qed.

Lemma aggregates_join_all xs st st' :
  aggregates st = aggregates st' ->
  aggregates (join_all xs st) = aggregates (join_all xs st').
Proof.
  revert st st'. induction xs as [|x xs IH]; intros st st' H; [exact H |].
  simpl. by apply IH, aggregates_join_update.
Qed.

Lemma aggregates_join_all_perm xs1 xs2 st :
  xs1 ≡ₚ xs2 -> aggregates (join_all xs1 st) = aggregates (join_all xs2 st).
Proof.
  intros Hperm. revert st.
  induction Hperm as [|x l1 l2 _ IH|x y l|l1 l2 l3 _ IH1 _ IH2]; intros st.
  - reflexivity.
  - simpl. apply IH.
  - simpl. apply aggregates_join_all, aggregates_join_update_comm.
  - by rewrite IH1.
Qed.

Lemma drama_row_aggregates drama_id name price vc st st' :
  aggregates st = aggregates st' ->
  drama_row drama_id name price vc st = drama_row drama_id name price vc st'.
Proof.
  unfold aggregates, drama_row. by intros [= -> -> -> -> -> -> -> -> ->].
Qed.

Lemma total_paid_udis_aggregates st st' :
  aggregates st = aggregates st' -> total_paid_udis st = total_paid_udis st'.
Proof. unfold aggregates. by intros [= -> _]. Qed.

Lemma process_sound_sound_id net fuel s d :
  result (process_sound net fuel s) = Ok d ->
  SoundDetail.sound_id d = Sound.sound_id s /\
  SoundDetail.sound_title d = Sound.sound_title s /\
  SoundDetail.need_pay d = Sound.need_pay s.
Proof.
  unfold process_sound. intros H.
  apply io_bind_Ok in H as [sd [_ H]].
  apply io_bind_Ok in H as [dan [_ H]].
  apply io_bind_Ok in H as [com [_ H]].
  injection H as Hd. by subst d.
Qed.

(** The records that join carry the identifiers of the listed items: with
    pairwise distinct keys in the list, their keys are pairwise distinct. *)
Lemma joined_keys_NoDup net fuel sl order xs :
  completion_order (length sl) order ->
  traverse (checked sl (run_pool net fuel sl)) order = Ok xs ->
  NoDup ((fun s => key_of (Sound.sound_id s)) <$> sl) ->
  NoDup ((fun d => key_of (SoundDetail.sound_id d)) <$> (joined_detail <$> xs)).
Proof.
  intros Horder Hxs Hnodup.
  assert (NoDup order) as Hord.
  { unfold completion_order in Horder. rewrite Horder. apply NoDup_seq. }
  apply traverse_Ok in Hxs.
  assert (forall j x, xs !! j = Some x ->
            exists i s, order !! j = Some i /\ sl !! i = Some s /\
              key_of (SoundDetail.sound_id (joined_detail x))
              = key_of (Sound.sound_id s)) as Hkey.
  { intros j x Hj.
    destruct (Forall2_lookup_r _ _ _ _ _ Hxs Hj) as (i & Hi & Hc).
    apply checked_Ok in Hc as (s & Hs & Hf & _).
    unfold run_pool in Hf. rewrite list_lookup_fmap, Hs in Hf. simpl in Hf.
    injection Hf as Hf. apply process_sound_sound_id in Hf as [-> _]. eauto. }
  apply NoDup_alt. intros j1 j2 kv H1 H2.
  rewrite !list_lookup_fmap in H1, H2.
  destruct (xs !! j1) as [x1|] eqn:E1; [|discriminate].
  destruct (xs !! j2) as [x2|] eqn:E2; [|discriminate].
  simpl in H1, H2. injection H1 as H1. injection H2 as H2.
  destruct (Hkey _ _ E1) as (i1 & s1 & Ho1 & Hs1 & Hk1).
  destruct (Hkey _ _ E2) as (i2 & s2 & Ho2 & Hs2 & Hk2).
  assert (i1 = i2) as <-.
  { eapply NoDup_lookup; [exact Hnodup | |];
      rewrite list_lookup_fmap; [rewrite Hs1 | rewrite Hs2]; simpl;
      [reflexivity | congruence]. }
  eapply NoDup_lookup; [exact Hord | exact Ho1 | exact Ho2].
Qed.

(** The records that join are those of the listed items, in the order in
    which the futures are taken. *)
Lemma joined_records net fuel sl order xs :
  traverse (checked sl (run_pool net fuel sl)) order = Ok xs ->
  Forall2 (fun i d => exists s, sl !! i = Some s /\
                                result (process_sound net fuel s) = Ok d)
          order (joined_detail <$> xs).
Proof.
  intros Hxs. apply traverse_Ok in Hxs. apply Forall2_fmap_r.
  eapply Forall2_impl; [exact Hxs |]. intros i x Hc. simpl.
  apply checked_Ok in Hc as (s & Hs & Hf & _).
  unfold run_pool in Hf. rewrite list_lookup_fmap, Hs in Hf. simpl in Hf.
  exists s. split; [exact Hs | congruence].
Qed.

Lemma joined_records_keys net fuel sl order xs :
  traverse (checked sl (run_pool net fuel sl)) order = Ok xs ->
  Forall (fun s => is_Some (key_of (Sound.sound_id s))) sl ->
  Forall (fun d => is_Some (key_of (SoundDetail.sound_id d))) (joined_detail <$> xs).
Proof.
  intros Hxs Hkeys. apply joined_records in Hxs.
  rewrite Forall_forall in Hkeys. apply Forall_forall. intros d Hd.
  apply list_elem_of_lookup in Hd as [j Hj].
  destruct (Forall2_lookup_r _ _ _ _ _ Hxs Hj) as (i & _ & s & Hs & Hp).
  apply process_sound_sound_id in Hp as [-> _].
  apply Hkeys. by eapply list_elem_of_lookup_2.
Qed.

(** C3, as the code has it, for episode identifiers that are numbers or
    strings.  In every completion order, the records whose rows
    [process_drama_id] writes are in ascending order of identifier, and the
    rows are written in that order.  The sort is stable: the records of one
    identifier are in the order in which their futures were taken.  When
    the listed identifiers are pairwise distinct, every other completion
    order gives the same files and the same result. *)
Theorem episode_rows_sorted_in_every_completion_order (net : network) (fuel : nat)
    (drama_id : string) (order order' : list nat) (out out' : files)
    (sl : list Sound.t) (name price vc cat : json)
    (sd : list SoundDetail.t) (paid : gset Z) :
  result (get_drama_sound_lists net drama_id) = Ok (sl, name, price, vc, cat) ->
  Forall (fun s => is_Some (key_of (Sound.sound_id s))) sl ->
  completion_order (length sl) order ->
  completion_order (length sl) order' ->
  process_drama_id net fuel drama_id order out = (out', Ok (sd, paid)) ->
  ascending SoundDetail.sound_id sd /\
  (exists rs, traverse sound_row sd = Ok rs /\
              sound_file out' = (sound_file out ++ (Row <$> rs))%list) /\
  (exists taken,
     Forall2 (fun i d => exists s, sl !! i = Some s /\
                                   result (process_sound net fuel s) = Ok d)
             order taken /\
     sd ≡ₚ taken /\
     forall key0 : key,
       filter (fun d => key_of (SoundDetail.sound_id d) = Some key0) sd
       = filter (fun d => key_of (SoundDetail.sound_id d) = Some key0) taken) /\
  (NoDup ((fun s => key_of (Sound.sound_id s)) <$> sl) ->
   process_drama_id net fuel drama_id order' out = (out', Ok (sd, paid))).
Proof.
  intros Hlist Hkeys Horder Horder' Hrun.
  destruct (decide (sl = [])) as [-> | Hne].
  - pose proof (process_drama_id_nil net fuel drama_id name price vc cat
                  order out Hlist) as Hp.
    pose proof (process_drama_id_nil net fuel drama_id name price vc cat
                  order' out Hlist) as Hp'.
    rewrite Hp in Hrun. injection Hrun as <- <- <-.
    split; [constructor |]. split; [|split; [|by intros _]].
    + exists []. split; [reflexivity |]. simpl. by rewrite app_nil_r.
    + exists []. unfold completion_order in Horder. simpl in Horder.
      apply Permutation_nil_r in Horder as ->. by repeat split.
  - apply (process_drama_id_Ok_iff _ _ _ _ _ _ _ _ _ _ _ _ _ Hlist Hne Horder) in Hrun
      as (xs & rs & Hxs & Hsort & Hrs & -> & ->).
    split.
    { eapply py_sort_ascending; [|exact Hsort].
      by eapply joined_records_keys. }
    split; [by exists rs |]. split.
    { exists (joined_detail <$> xs). split; [by apply joined_records |].
      split; [by eapply py_sort_perm |].
      intros key0. by apply py_sort_stable. }
    intros Hnodup.
    assert (order ≡ₚ order') as Hperm.
    { unfold completion_order in *. by rewrite Horder, Horder'. }
    destruct (traverse_perm _ _ _ _ Hperm Hxs) as (xs' & Hxs' & Hp).
    pose proof (aggregates_join_all_perm _ _ initial_locals Hp) as Hagg.
    apply (process_drama_id_Ok_iff _ _ _ _ _ _ _ _ _ _ _ _ _ Hlist Hne Horder').
    exists xs', rs. split; [exact Hxs' |]. split; [|split; [exact Hrs |]].
    + eapply py_sort_order_independent; [| | exact Hsort].
      * by rewrite Hp.
      * exact (joined_keys_NoDup net fuel sl order xs Horder Hxs Hnodup).
    + split; [by apply total_paid_udis_aggregates |].
      by rewrite (drama_row_aggregates _ _ _ _ _ _ Hagg).
Qed.

Lemma episode_rows_sorted_in_every_completion_order_witness :
  exists sd paid,
    process_drama_id two_episode_server 1 "1" [1; 0]%nat (Files [Header] [Header])
    = ((process_drama_id two_episode_server 1 "1" [1; 0]%nat
          (Files [Header] [Header])).1, Ok (sd, paid)) /\
    (SoundDetail.sound_id <$> sd) = [JInt 101; JInt 102] /\
    ascending SoundDetail.sound_id sd /\
    (exists rs, traverse sound_row sd = Ok rs /\
                sound_file (process_drama_id two_episode_server 1 "1" [1; 0]%nat
                              (Files [Header] [Header])).1
                = ([Header] ++ (Row <$> rs))%list) /\
    (exists taken,
       Forall2 (fun i d =>
                  exists s, [Sound.Make (JInt 101) (JStr "A") (JInt 0);
                             Sound.Make (JInt 102) (JStr "B") (JInt 1)] !! i = Some s /\
                            result (process_sound two_episode_server 1 s) = Ok d)
               [1; 0]%nat taken /\
       sd ≡ₚ taken /\
       forall key0 : key,
         filter (fun d => key_of (SoundDetail.sound_id d) = Some key0) sd
         = filter (fun d => key_of (SoundDetail.sound_id d) = Some key0) taken) /\
    (NoDup ((fun s => key_of (Sound.sound_id s))
              <$> [Sound.Make (JInt 101) (JStr "A") (JInt 0);
                   Sound.Make (JInt 102) (JStr "B") (JInt 1)]) ->
     process_drama_id two_episode_server 1 "1" [0; 1]%nat (Files [Header] [Header])
     = ((process_drama_id two_episode_server 1 "1" [1; 0]%nat
           (Files [Header] [Header])).1, Ok (sd, paid))).
Proof.
  eexists _, _. split; [vm_compute; reflexivity |].
  split; [vm_compute; reflexivity |].
  eapply (episode_rows_sorted_in_every_completion_order two_episode_server 1 "1"
            [1; 0]%nat [0; 1]%nat (Files [Header] [Header]) _
            [Sound.Make (JInt 101) (JStr "A") (JInt 0);
             Sound.Make (JInt 102) (JStr "B") (JInt 1)]).
  - vm_compute. reflexivity.
  - repeat constructor; by eexists.
  - unfold completion_order. simpl. apply perm_swap.
  - unfold completion_order. reflexivity.
  - vm_compute. reflexivity.
Defined.

(** C3 fails when an identifier is listed twice: the two episodes compare
    equal, the stable sort leaves them in completion order, and the rows
    written differ with that order. *)
Lemma episode_rows_depend_on_completion_order_for_equal_ids :
  (fun l => match l with Row r => Some (SoundRow.sound_title r) | Header => None end)
    <$> sound_file (process_drama_id duplicate_id_server 1 "1" [0; 1]%nat
                      (Files [] [])).1
  = [Some (JStr "A"); Some (JStr "B")] /\
  (fun l => match l with Row r => Some (SoundRow.sound_title r) | Header => None end)
    <$> sound_file (process_drama_id duplicate_id_server 1 "1" [1; 0]%nat
                      (Files [] [])).1
  = [Some (JStr "B"); Some (JStr "A")] /\
  is_Ok (process_drama_id duplicate_id_server 1 "1" [0; 1]%nat (Files [] [])).2 = true /\
  is_Ok (process_drama_id duplicate_id_server 1 "1" [1; 0]%nat (Files [] [])).2 = true.
Proof. repeat split; vm_compute; reflexivity. Qed.

(** ** Failures of the inline-comment fetch *)

Lemma danmaku_failed_dec r : danmaku_failed r \/ ~ danmaku_failed r.
Proof.
  destruct r as [|resp]; [left; by left |].
  destruct (raise_for_status_cases resp) as [Hst | Hst].
  - destruct (xml_doc resp) as [root|] eqn:Hxml.
    + right. intros [? | (resp' & [= <-] & [H | [_ H]])]; congruence.
    + left. right. exists resp. split; [reflexivity | by right].
  - left. right. exists resp. split; [reflexivity | by left].
Qed.

(** A failed inline-comment fetch is absorbed: the set is empty. *)
Lemma fetch_all_danmakus_failed net sound_id :
  danmaku_failed (net (getdm sound_id)) ->
  fetch_all_danmakus net sound_id = IO [getdm sound_id] (Ok ∅).
Proof.
  intros [Hnet | (resp & Hnet & [Hst | [Hst Hxml]])]; unfold fetch_all_danmakus.
  - rewrite (requests_get_no_reply net _ Hnet). reflexivity.
  - rewrite (requests_get_reply net _ resp Hnet), io_bind_IO.
    unfold try_except. simpl. rewrite Hst. reflexivity.
  - rewrite (requests_get_reply net _ resp Hnet), io_bind_IO.
    unfold try_except, ETree_fromstring. simpl. rewrite Hst, Hxml. reflexivity.
Qed.

Lemma requests_get_ext net net' r :
  net' r = net r -> requests_get net' r = requests_get net r.
Proof. intros H. unfold requests_get. by rewrite H. Qed.

Lemma comment_pages_ext net net' fuel sound_id acc page :
  (forall e_id p, net' (getcomment e_id p 100) = net (getcomment e_id p 100)) ->
  comment_pages net' fuel sound_id acc page = comment_pages net fuel sound_id acc page.
Proof.
  intros H. revert acc page. induction fuel as [|fuel IH]; intros acc page.
  - reflexivity.
  - destruct (endpoint_format sound_id) as [e_id|e|] eqn:Hfmt.
    + rewrite !(comment_pages_S _ _ _ _ _ _ Hfmt).
      rewrite (requests_get_ext net net' _ (H e_id page)).
      unfold requests_get. destruct (net (getcomment e_id page 100)) as [|resp].
      * reflexivity.
      * rewrite !io_bind_IO.
        destruct (raise_for_status resp ≫= _) as [[acc' more]| |] eqn:E.
        -- unfold lift. rewrite !io_bind_IO. destruct more; simpl.
           ++ by rewrite IH.
           ++ reflexivity.
        -- reflexivity.
        -- reflexivity.
    + cbn [comment_pages]. by rewrite Hfmt.
    + cbn [comment_pages]. by rewrite Hfmt.
Qed.

Lemma degraded_other net net' r :
  danmaku_degraded net net' -> (forall sid, r <> getdm sid) -> net' r = net r.
Proof. intros H Hr. destruct (H r) as [? | [[sid ->] _]]; [done | by destruct (Hr sid)]. Qed.

Lemma process_sound_degraded net net' fuel s d :
  danmaku_degraded net net' ->
  result (process_sound net fuel s) = Ok d ->
  exists d', result (process_sound net' fuel s) = Ok d' /\ degraded_record net' d d'.
Proof.
  intros Hdeg H. unfold process_sound in *.
  apply io_bind_Ok in H as [sd [Hsd H]].
  apply io_bind_Ok in H as [dan [Hdan H]].
  apply io_bind_Ok in H as [com [Hcom H]].
  injection H as Hd. subst d. simpl.
  assert (get_sound_detail net' (Sound.sound_id s) = get_sound_detail net (Sound.sound_id s))
    as Hdetail.
  { unfold get_sound_detail. by rewrite (requests_get_ext net net') by
      (by apply degraded_other). }
  assert (fetch_all_uids_by_comments net' fuel (Sound.sound_id s)
          = fetch_all_uids_by_comments net fuel (Sound.sound_id s)) as Hcomments.
  { apply comment_pages_ext. intros e_id p. by apply degraded_other. }
  destruct (danmaku_failed_dec (net' (getdm (Sound.sound_id s)))) as [Hf | Hf].
  - eexists. split.
    + apply io_bind_Ok. exists sd. split; [by rewrite Hdetail |].
      apply io_bind_Ok. exists ∅. split; [by rewrite fetch_all_danmakus_failed |].
      apply io_bind_Ok. exists com. split; [by rewrite Hcomments | reflexivity].
    + exists ∅. simpl. split; [reflexivity |]. split; [done |]. by intros [].
  - assert (net' (getdm (Sound.sound_id s)) = net (getdm (Sound.sound_id s))) as Hsame.
    { destruct (Hdeg (getdm (Sound.sound_id s))) as [? | [_ ?]]; done. }
    eexists. split.
    + apply io_bind_Ok. exists sd. split; [by rewrite Hdetail |].
      apply io_bind_Ok. exists dan. split.
      { unfold fetch_all_danmakus. by rewrite (requests_get_ext net net' _ Hsame). }
      apply io_bind_Ok. exists com. split; [by rewrite Hcomments | reflexivity].
    + exists dan. simpl. split; [reflexivity |]. split; [done | done].
Qed.

Lemma traverse_Forall2 {A A' B B'} (Q : A -> A' -> Prop) (P : B -> B' -> Prop)
    (f : A -> outcome B) (g : A' -> outcome B') l l' ys :
  (forall a a' y, Q a a' -> f a = Ok y -> exists y', g a' = Ok y' /\ P y y') ->
  Forall2 Q l l' ->
  traverse f l = Ok ys ->
  exists ys', traverse g l' = Ok ys' /\ Forall2 P ys ys'.
Proof.
  intros Hfg Hl. revert ys. induction Hl as [|a a' l l' Ha _ IH]; intros ys H.
  - injection H as <-. exists []. by split.
  - simpl in H. apply bind_Ok in H as [y [Hy H]].
    apply bind_Ok in H as [ys0 [Hys [= <-]]].
    destruct (Hfg _ _ _ Ha Hy) as (y' & Hy' & HP).
    destruct (IH _ Hys) as (ys' & Hys' & HPs).
    exists (y' :: ys'). simpl. rewrite Hy', Hys'. simpl.
    split; [reflexivity | by constructor].
Qed.

Lemma Forall2_eq_refl {A} (l : list A) : Forall2 eq l l.
Proof. induction l; by constructor. Qed.

Lemma join_check_degraded net' s d d' x :
  degraded_record net' d d' ->
  join_check s (Ok d) = Ok x ->
  exists x', join_check s (Ok d') = Ok x' /\ degraded_joined net' x x'.
Proof.
  intros (dan' & -> & Hf & Hnf) H.
  destruct (join_check_Ok _ _ _ H) as ([= Hd] & _).
  unfold join_check, SoundDetail.create_time, SoundDetail.view_count in *.
  simpl in *.
  destruct (SoundDetail.detail d) as [dt|] eqn:Edt; simpl in *; [|discriminate].
  destruct (py_gt (Sound.need_pay s) (JInt 0)) as [paid| |]; simpl in *;
    try discriminate.
  destruct (py_int (Detail.view_count dt)) as [n| |]; simpl in *; try discriminate.
  injection H as <-. simpl in *. eexists. split; [reflexivity |].
  unfold degraded_joined. simpl. split; [|repeat split].
  exists dan'. rewrite Edt. by split.
Qed.

Lemma checked_degraded net net' fuel sl i x :
  danmaku_degraded net net' ->
  checked sl (run_pool net fuel sl) i = Ok x ->
  exists x', checked sl (run_pool net' fuel sl) i = Ok x' /\ degraded_joined net' x x'.
Proof.
  intros Hdeg H. apply checked_Ok in H as (s & Hs & Hf & Hc).
  unfold run_pool in Hf. rewrite list_lookup_fmap, Hs in Hf. simpl in Hf.
  injection Hf as Hf.
  destruct (process_sound_degraded _ _ _ _ _ Hdeg Hf) as (d' & Hd' & Hrel).
  destruct (join_check_degraded _ _ _ _ _ Hrel Hc) as (x' & Hx' & Hj).
  exists x'. split; [|exact Hj].
  unfold checked, run_pool. rewrite list_lookup_fmap, Hs. simpl. by rewrite Hd'.
Qed.

Lemma insert_sorted_rel {A} (k : A -> json) (R : A -> A -> Prop) x x' l l' r :
  (forall a a', R a a' -> k a' = k a) ->
  R x x' -> Forall2 R l l' ->
  insert_sorted k x l = Ok r ->
  exists r', insert_sorted k x' l' = Ok r' /\ Forall2 R r r'.
Proof.
  intros Hk Hx Hl. revert r. induction Hl as [|y y' l l' Hy Hl IH]; intros r; simpl.
  - intros [= <-]. eexists. split; [reflexivity |]. by repeat constructor.
  - rewrite (Hk _ _ Hx), (Hk _ _ Hy). intros H.
    apply bind_Ok in H as [[|] [Hlt H]]; rewrite Hlt; simpl.
    + apply bind_Ok in H as [r0 [Hr0 [= <-]]].
      destruct (IH _ Hr0) as (r' & -> & Hr'). simpl.
      eexists. split; [reflexivity |]. by constructor.
    + injection H as <-. eexists. split; [reflexivity |]. by repeat constructor.
Qed.

Lemma py_sort_rel {A} (k : A -> json) (R : A -> A -> Prop) l l' r :
  (forall a a', R a a' -> k a' = k a) ->
  Forall2 R l l' ->
  py_sort k l = Ok r ->
  exists r', py_sort k l' = Ok r' /\ Forall2 R r r'.
Proof.
  intros Hk Hl. revert r. induction Hl as [|x x' l l' Hx Hl IH]; intros r; simpl.
  - intros [= <-]. exists []. by split.
  - intros H. apply bind_Ok in H as [s [Hs H]].
    destruct (IH _ Hs) as (s' & -> & Hs'). simpl.
    by eapply insert_sorted_rel.
Qed.

Lemma degraded_record_sound_id net' d d' :
  degraded_record net' d d' -> SoundDetail.sound_id d' = SoundDetail.sound_id d.
Proof. by intros (dan' & -> & _). Qed.

Lemma sound_row_degraded net' d d' r :
  degraded_record net' d d' -> sound_row d = Ok r ->
  exists r', sound_row d' = Ok r'.
Proof.
  intros (dan' & -> & _). unfold sound_row, SoundDetail.create_time. simpl.
  destruct (SoundDetail.detail d); simpl; [|discriminate]. eauto.
Qed.

Lemma process_drama_id_lengths net fuel drama_id order out out' sd paid :
  process_drama_id net fuel drama_id order out = (out', Ok (sd, paid)) ->
  exists sl name price vc cat,
    result (get_drama_sound_lists net drama_id) = Ok (sl, name, price, vc, cat).
Proof.
  unfold process_drama_id.
  destruct (result (get_drama_sound_lists net drama_id)) as [[[[[sl n] p] v] c]| |];
    try discriminate. eauto 6.
Qed.

(** Degrading inline-comment fetches to failures keeps a drama that is
    processed processed: the summary row and every episode row are still
    written, and the records differ in the inline sets only. *)
Lemma process_drama_id_degraded net net' fuel drama_id order out out1
    sl name price vc cat sd paid :
  danmaku_degraded net net' ->
  result (get_drama_sound_lists net drama_id) = Ok (sl, name, price, vc, cat) ->
  completion_order (length sl) order ->
  process_drama_id net fuel drama_id order out = (out1, Ok (sd, paid)) ->
  length (drama_file out1) = S (length (drama_file out)) /\
  length (sound_file out1) = (length (sound_file out) + length sd)%nat /\
  forall out2, exists out2' sd' paid',
    process_drama_id net' fuel drama_id order out2 = (out2', Ok (sd', paid')) /\
    Forall2 (degraded_record net') sd sd' /\
    length (drama_file out2') = S (length (drama_file out2)) /\
    length (sound_file out2') = (length (sound_file out2) + length sd)%nat.
Proof.
  intros Hdeg Hlist Horder Hrun.
  assert (result (get_drama_sound_lists net' drama_id)
          = Ok (sl, name, price, vc, cat)) as Hlist'.
  { rewrite <- Hlist. unfold get_drama_sound_lists.
    by rewrite (requests_get_ext net net') by (by apply degraded_other). }
  destruct (decide (sl = [])) as [-> | Hne].
  - pose proof (process_drama_id_nil net fuel drama_id name price vc cat
                  order out Hlist) as Hp.
    rewrite Hp in Hrun. injection Hrun as <- <- <-. simpl.
    rewrite length_app. simpl. split; [lia |]. split; [lia |].
    intros out2.
    pose proof (process_drama_id_nil net' fuel drama_id name price vc cat
                  order out2 Hlist') as Hp'.
    eexists _, [], _. split; [exact Hp' |]. split; [constructor |]. simpl.
    rewrite length_app. simpl. lia.
  - apply (process_drama_id_Ok_iff _ _ _ _ _ _ _ _ _ _ _ _ _ Hlist Hne Horder) in Hrun
      as (xs & rs & Hxs & Hsort & Hrs & -> & ->).
    pose proof (traverse_length _ _ _ Hrs) as Hlen. simpl.
    rewrite !length_app, length_fmap. simpl. split; [lia |]. split; [lia |].
    intros out2.
    destruct (traverse_Forall2 eq (degraded_joined net')
                (checked sl (run_pool net fuel sl))
                (checked sl (run_pool net' fuel sl)) order order xs) as (xs' & Hxs' & Hj).
    { intros i ? x <-. by apply checked_degraded. }
    { apply Forall2_eq_refl. }
    { exact Hxs. }
    assert (Forall2 (degraded_record net') (joined_detail <$> xs) (joined_detail <$> xs'))
      as Hd.
    { apply Forall2_fmap. eapply Forall2_impl; [exact Hj |]. by intros x x' [? _]. }
    destruct (py_sort_rel SoundDetail.sound_id (degraded_record net') _ _ _
                (degraded_record_sound_id net') Hd Hsort) as (sd' & Hsort' & Hsd).
    destruct (traverse_Forall2 (degraded_record net') (fun _ _ => True)
                sound_row sound_row sd sd' rs) as (rs' & Hrs' & Hrr).
    { intros d d' r Hdd Hr.
      destruct (sound_row_degraded _ _ _ _ Hdd Hr) as [r' Hr']. by exists r'. }
    { exact Hsd. }
    { exact Hrs. }
    eexists _, sd', _. split.
    + apply (process_drama_id_Ok_iff _ _ _ _ _ _ _ _ _ _ _ _ _ Hlist' Hne Horder).
      exists xs', rs'. repeat split; try eassumption; reflexivity.
    + split; [exact Hsd |]. simpl.
      rewrite !length_app, length_fmap. simpl.
      rewrite (traverse_length _ _ _ Hrs').
      apply Forall2_length in Hsd. lia.
Qed.

Lemma runner_loop_degraded net net' fuel sched :
  danmaku_degraded net net' ->
  forall ids k ds ap out o r,
    valid_schedule net ids k sched ->
    runner_loop net fuel ids k sched ds ap out = (o, Ok r) ->
    length (drama_file o) = (length (drama_file out) + length ids)%nat /\
    exists n,
      length (sound_file o) = (length (sound_file out) + n)%nat /\
      forall ds2 ap2 out2, exists o2 r2,
        runner_loop net' fuel ids k sched ds2 ap2 out2 = (o2, Ok r2) /\
        length (drama_file o2) = (length (drama_file out2) + length ids)%nat /\
        length (sound_file o2) = (length (sound_file out2) + n)%nat.
Proof.
  intros Hdeg. induction ids as [|raw ids IH]; intros k ds ap out o r Hsched Hrun.
  - simpl in Hrun. injection Hrun as <- <-. simpl. split; [lia |].
    exists 0%nat. split; [lia |]. intros ds2 ap2 out2.
    eexists _, _. split; [reflexivity |]. simpl. lia.
  - cbn [runner_loop] in Hrun.
    destruct (process_drama_id net fuel (strip raw) (sched k) out)
      as [out1 [[sd paid]| |]] eqn:Ep; try discriminate.
    destruct (process_drama_id_lengths _ _ _ _ _ _ _ _ Ep)
      as (sl & name & price & vc & cat & Hlist).
    assert (completion_order (length sl) (sched k)) as Horder.
    { specialize (Hsched 0%nat raw sl name price vc cat eq_refl Hlist).
      by rewrite Nat.add_0_r in Hsched. }
    destruct (process_drama_id_degraded _ _ _ _ _ _ _ _ _ _ _ _ _ _
                Hdeg Hlist Horder Ep) as (Hd1 & Hs1 & Hnet').
    assert (valid_schedule net ids (S k) sched) as Hsched'.
    { intros j raw' sl' n' p' v' c' Hj Hl'.
      specialize (Hsched (S j) raw' sl' n' p' v' c' Hj Hl').
      by replace (S k + j)%nat with (k + S j)%nat by lia. }
    destruct (IH (S k) _ _ _ _ _ Hsched' Hrun) as (Hd & n & Hs & Hrest).
    simpl. split; [lia |]. exists (length sd + n)%nat. split; [lia |].
    intros ds2 ap2 out2.
    destruct (Hnet' out2) as (out2' & sd' & paid' & Ep' & _ & Hd2 & Hs2).
    destruct (Hrest (<[raw:=sd']> ds2) (ap2 ∪ paid') out2')
      as (o2 & r2 & Hrun2 & Hd3 & Hs3).
    exists o2, r2. cbn [runner_loop]. rewrite Ep'. split; [exact Hrun2 |]. lia.
Qed.

Lemma fail_danmaku_degraded bad net : danmaku_degraded net (fail_danmaku bad net).
Proof.
  intros r. destruct r as [id|sid|sid|sid p ps]; try (by left).
  destruct sid as [| |n| | |]; try (by left). simpl.
  destruct (bad n); [right | by left].
  split; [by eexists |]. right. eexists. split; [reflexivity |]. by right.
Qed.

(** On that server the row of episode A shows an empty inline set, and the
    summary row is written. *)
Lemma danmaku_failure_leaves_empty_inline_set :
  (fun l => match l with
            | Row r => Some (SoundRow.sound_title r, SoundRow.danmaku_uids r,
                             SoundRow.comment_uids r, SoundRow.total_sound_uids r)
            | Header => None
            end)
    <$> sound_file (runner danmaku_down_server 1 "1" (fun _ => [0; 1]%nat)).1
  = [None; Some (JStr "A", 0%nat, 2%nat, 2%nat); Some (JStr "B", 1%nat, 0%nat, 1%nat)] /\
  length (drama_file (runner danmaku_down_server 1 "1" (fun _ => [0; 1]%nat)).1) = 2%nat.
Proof. split; vm_compute; reflexivity. Qed.

(** ** Failure of the detail fetch *)

(** [get_sound_detail] absorbs a transport failure into the empty dict;
    [process_sound] then returns a dict without [create_time], and the
    loop of [process_drama_id] raises [KeyError] on it, in either
    completion order, before any row is written. *)
Lemma detail_transport_failure_raises_KeyError :
  get_sound_detail detail_down_server (JInt 101) = IO [getsound (JInt 101)] (Ok None) /\
  is_Ok (result (process_sound detail_down_server 1
                   (Sound.Make (JInt 101) (JStr "A") (JInt 0)))) = true /\
  process_drama_id detail_down_server 1 "1" [0; 1]%nat (Files [Header] [Header])
  = (Files [Header] [Header], Raise KeyError) /\
  process_drama_id detail_down_server 1 "1" [1; 0]%nat (Files [Header] [Header])
  = (Files [Header] [Header], Raise KeyError).
Proof. repeat split; vm_compute; reflexivity. Qed.

(** * Further properties of the API client *)

(** ** Episode detail *)

Lemma get_sound_detail_failed net sound_id :
  fetch_failed (net (getsound sound_id)) ->
  get_sound_detail net sound_id = IO [getsound sound_id] (Ok None).
Proof.
  intros [Hnet | (resp & Hnet & [Hst | [Hst Hjson]])]; unfold get_sound_detail.
  - rewrite (requests_get_no_reply net _ Hnet). reflexivity.
  - rewrite (requests_get_reply net _ resp Hnet), io_bind_IO.
    unfold try_except. simpl. rewrite Hst. reflexivity.
  - rewrite (requests_get_reply net _ resp Hnet), io_bind_IO.
    unfold try_except, response_json. simpl. rewrite Hst, Hjson. reflexivity.
Qed.

(** X1: a transport failure, an error status or a body that is not JSON
    makes [get_sound_detail] return the empty dict, after its single
    request, without raising. *)
Theorem get_sound_detail_absorbs_request_failures (net : network) (sound_id : json) :
  fetch_failed (net (getsound sound_id)) ->
  get_sound_detail net sound_id = IO [getsound sound_id] (Ok None).
Proof. apply get_sound_detail_failed. Qed.

Lemma get_sound_detail_absorbs_request_failures_witness :
  get_sound_detail detail_down_server (JInt 101) = IO [getsound (JInt 101)] (Ok None).
Proof.
  apply (get_sound_detail_absorbs_request_failures detail_down_server (JInt 101)).
  left. reflexivity.
Defined.

Lemma fromtimestamp_Raise v e :
  fromtimestamp v = Raise e <-> timestamp_error v e.
Proof.
  unfold fromtimestamp, timestamp_error. destruct (num_of v) as [n|].
  - destruct (n <? -9223372036854775808) eqn:E1;
      destruct (9223372036854775807 <? n) eqn:E2;
      destruct (n <? -67768040609740800) eqn:E3;
      destruct (67768036191676799 <? n) eqn:E4;
      destruct (n <? -62135510400) eqn:E5;
      destruct (253402300799 <? n) eqn:E6; simpl;
      rewrite ?Z.ltb_lt, ?Z.ltb_ge in *;
      (split; [intros [= <-] | intros [[? ->] | [[? ->] | [? ->]]]]);
      try reflexivity; try lia; (intuition lia).
  - split; [by intros [= <-] | by intros ->].
Qed.

Lemma timestamp_error_uncaught v e :
  timestamp_error v e -> is_RequestException e = false.
Proof.
  unfold timestamp_error. destruct (num_of v) as [n|].
  - by intros [[_ ->] | [[_ ->] | [_ ->]]].
  - by intros ->.
Qed.

(** X2: a failure to build the creation time is not absorbed.  When the
    detail document has a [create_time] that [fromtimestamp] refuses, then
    [get_sound_detail] raises, after its request, what [fromtimestamp]
    raises: [TypeError] for null, a string, a list or a dict;
    [OverflowError], [OSError] or [ValueError], by its size, for a number
    that is not an epoch second of 0001-01-02 to 9999-12-31.  None of them
    is a [RequestException]. *)
Theorem get_sound_detail_bad_create_time_raises (net : network) (sound_id : json)
    (resp : response) (kvs info fields : list (string * json)) (ct : json) (e : exn) :
  net (getsound sound_id) = Reply resp ->
  raise_for_status resp = Ok tt ->
  json_doc resp = Some (JObj kvs) ->
  assoc "info" kvs = Some (JObj info) ->
  assoc "sound" info = Some (JObj fields) ->
  assoc "create_time" fields = Some ct ->
  timestamp_error ct e ->
  get_sound_detail net sound_id = IO [getsound sound_id] (Raise e) /\
  is_RequestException e = false.
Proof.
  intros Hnet Hst Hjson Hinfo Hsound Hct He.
  pose proof (timestamp_error_uncaught _ _ He) as Hne.
  apply fromtimestamp_Raise in He.
  split; [|exact Hne]. unfold get_sound_detail.
  rewrite (requests_get_reply net _ resp Hnet), io_bind_IO.
  unfold try_except, response_json. simpl. rewrite Hst, Hjson. simpl.
  rewrite Hinfo. simpl. rewrite Hsound. simpl. rewrite Hct. simpl.
  rewrite He. simpl. rewrite Hne. reflexivity.
Qed.

(** ** Inline comments *)

Lemma danmaku_uid_Ok_well_formed item o :
  danmaku_uid item = Ok o -> well_formed_entry item.
Proof.
  destruct o as [z|]; intros H.
  - apply danmaku_uid_Some in H as (fs & kind & uid & Hfs & H1 & _ & H6 & Hz).
    exists fs, kind. split; [exact Hfs |]. split; [exact H1 |]. right. eauto.
  - apply danmaku_uid_None in H as (fs & Hfs & H1).
    exists fs, "4". split; [exact Hfs |]. split; [exact H1 |]. by left.
Qed.

Lemma danmaku_uid_Raise item e :
  danmaku_uid item = Raise e -> e = KeyError \/ e = IndexError \/ e = ValueError.
Proof.
  unfold danmaku_uid, p_fields.
  destruct (assoc "p" (attrib item)) as [p|]; simpl; [|intros [= <-]; auto].
  destruct (split_comma p !! 1%nat) as [kind|]; simpl; [|intros [= <-]; auto].
  destruct (String.eqb kind "4"); [discriminate |].
  destruct (split_comma p !! 6%nat) as [uid|]; simpl; [|intros [= <-]; auto].
  destruct (int_of_str uid); simpl; [discriminate | intros [= <-]; auto].
Qed.

Lemma danmaku_uid_not_Diverge item : danmaku_uid item <> Diverge.
Proof.
  unfold danmaku_uid, p_fields.
  destruct (assoc "p" (attrib item)) as [p|]; simpl; [|discriminate].
  destruct (split_comma p !! 1%nat) as [kind|]; simpl; [|discriminate].
  destruct (String.eqb kind "4"); [discriminate |].
  destruct (split_comma p !! 6%nat) as [uid|]; simpl; [|discriminate].
  destruct (int_of_str uid); simpl; discriminate.
Qed.

(** X3: on an inline-comment document it received, [fetch_all_danmakus]
    returns a set exactly when every [<d>] entry is well formed; otherwise
    it raises the [KeyError] (no [p]), [IndexError] (too few fields) or
    [ValueError] (identifier that [int] rejects) of the first entry that is
    not, which its [except] clause does not catch. *)
Theorem fetch_all_danmakus_Ok_iff_well_formed (net : network) (sound_id : json)
    (resp : response) (root : element) :
  net (getdm sound_id) = Reply resp ->
  raise_for_status resp = Ok tt ->
  xml_doc resp = Some root ->
  (is_Ok (result (fetch_all_danmakus net sound_id)) = true
   <-> Forall well_formed_entry (findall "d" root)) /\
  (is_Ok (result (fetch_all_danmakus net sound_id)) = false ->
   exists e, result (fetch_all_danmakus net sound_id) = Raise e /\
             (e = KeyError \/ e = IndexError \/ e = ValueError)).
Proof.
  intros Hnet Hst Hxml.
  rewrite (fetch_all_danmakus_reply net sound_id resp root Hnet Hst Hxml).
  destruct (traverse danmaku_uid (findall "d" root)) as [os|e|] eqn:E; simpl.
  - split; [|discriminate]. split; [intros _ | reflexivity].
    apply traverse_Ok_Forall in E. eapply Forall_impl; [exact E |].
    intros item Hitem. apply is_Ok_true in Hitem as [o Ho].
    by eapply danmaku_uid_Ok_well_formed.
  - split.
    + split; [discriminate |]. intros Hwf.
      assert (is_Ok (traverse danmaku_uid (findall "d" root)) = true) as Hok.
      { apply traverse_total. eapply Forall_impl; [exact Hwf |].
        intros item. apply danmaku_uid_well_formed. }
      rewrite E in Hok. discriminate.
    + intros _. exists e. split; [reflexivity |].
      apply traverse_Raise in E as (item & _ & Hitem).
      by eapply danmaku_uid_Raise.
  - apply traverse_Diverge in E as (item & _ & Hitem).
    by apply danmaku_uid_not_Diverge in Hitem.
Qed.

Lemma fetch_all_danmakus_Ok_iff_well_formed_witness :
  is_Ok (result (fetch_all_danmakus two_episode_server (JInt 102))) = true
  <-> Forall well_formed_entry
        (findall "d" (danmaku_doc ["1.0,1,25,16777215,0,0,4"; "2.0,4,25,16777215,0,0,9"])).
Proof.
  refine (proj1 (fetch_all_danmakus_Ok_iff_well_formed two_episode_server (JInt 102)
            (Response 200 None (Some (danmaku_doc ["1.0,1,25,16777215,0,0,4"; "2.0,4,25,16777215,0,0,9"])))
            _ _ _ _)); reflexivity.
Defined.

Lemma get_sound_detail_bad_create_time_raises_witness :
  (get_sound_detail null_create_time_server (JInt 101)
   = IO [getsound (JInt 101)] (Raise TypeError) /\
   is_RequestException TypeError = false) /\
  (get_sound_detail (late_create_time_server 253402300800) (JInt 101)
   = IO [getsound (JInt 101)] (Raise ValueError) /\
   is_RequestException ValueError = false) /\
  (get_sound_detail (late_create_time_server 1000000000000000000) (JInt 101)
   = IO [getsound (JInt 101)] (Raise OSError) /\
   is_RequestException OSError = false) /\
  (get_sound_detail (late_create_time_server 9223372036854775808) (JInt 101)
   = IO [getsound (JInt 101)] (Raise OverflowError) /\
   is_RequestException OverflowError = false).
Proof.
  split; [|split; [|split]].
  - eapply (get_sound_detail_bad_create_time_raises null_create_time_server (JInt 101));
      reflexivity.
  - eapply (get_sound_detail_bad_create_time_raises
              (late_create_time_server 253402300800) (JInt 101));
      try reflexivity.
    unfold timestamp_error. simpl. right. right. split; [lia | reflexivity].
  - eapply (get_sound_detail_bad_create_time_raises
              (late_create_time_server 1000000000000000000) (JInt 101));
      try reflexivity.
    unfold timestamp_error. simpl. right. left. split; [lia | reflexivity].
  - eapply (get_sound_detail_bad_create_time_raises
              (late_create_time_server 9223372036854775808) (JInt 101));
      try reflexivity.
    unfold timestamp_error. simpl. left. split; [lia | reflexivity].
Defined.

(** ** Threaded comments *)

Lemma reading_outcome_bind {A B} (m : outcome A) (f : A -> outcome B) :
  reading_outcome m -> (forall a, reading_outcome (f a)) -> reading_outcome (m ≫= f).
Proof. destruct m as [a|e|]; simpl; auto. Qed.

Lemma reading_outcome_traverse {A B} (f : A -> outcome B) l :
  (forall x, reading_outcome (f x)) -> reading_outcome (traverse f l).
Proof.
  intros Hf. induction l as [|x l IH]; simpl; [exact I |].
  apply reading_outcome_bind; [apply Hf |]. intros y.
  apply reading_outcome_bind; [exact IH |]. by intros ys.
Qed.

Lemma reading_outcome_subscript v k : reading_outcome (subscript v k).
Proof.
  destruct v as [|b|n|s|l|kvs]; simpl; auto.
  destruct (assoc k kvs); simpl; auto.
Qed.

Lemma reading_outcome_py_iter v : reading_outcome (py_iter v).
Proof. destruct v; simpl; auto. Qed.

Lemma reading_outcome_py_int v : reading_outcome (py_int v).
Proof.
  destruct v as [|b|n|s|l|kvs]; simpl; auto.
  destruct (int_of_str s); simpl; auto.
Qed.

Lemma reading_outcome_userid_of c : reading_outcome (userid_of c).
Proof.
  unfold userid_of. apply reading_outcome_bind; [apply reading_outcome_subscript |].
  intros u. apply reading_outcome_py_int.
Qed.

Lemma reading_outcome_comment_field data k : reading_outcome (comment_field data k).
Proof.
  unfold comment_field.
  repeat (apply reading_outcome_bind; [apply reading_outcome_subscript | intros ?]).
  apply reading_outcome_subscript.
Qed.

Lemma reading_outcome_extract_user_ids data : reading_outcome (extract_user_ids data).
Proof.
  unfold extract_user_ids, subcomment_userids.
  apply reading_outcome_bind; [apply reading_outcome_comment_field | intros datas].
  apply reading_outcome_bind; [apply reading_outcome_py_iter | intros comments].
  apply reading_outcome_bind.
  { apply reading_outcome_traverse, reading_outcome_userid_of. }
  intros user_ids.
  apply reading_outcome_bind; [apply reading_outcome_comment_field | intros datas'].
  apply reading_outcome_bind; [apply reading_outcome_py_iter | intros comments'].
  apply reading_outcome_bind; [|by intros subs].
  apply reading_outcome_traverse. intros c.
  apply reading_outcome_bind; [apply reading_outcome_subscript | intros sc].
  apply reading_outcome_bind; [apply reading_outcome_py_iter | intros subs].
  apply reading_outcome_traverse, reading_outcome_userid_of.
Qed.

(** X4: [extract_user_ids] returns a set exactly on a well-formed page: an
    object with [info.comment.Datas] that can be iterated, in which every
    comment is an object with a [userid] that [int] reads and with
    [subcomments] that can be iterated, whose entries are objects with such
    a [userid].  The set then holds the [userid] of every comment and of
    every nested reply, and nothing else.  On any other page it raises
    [KeyError], [TypeError] or [ValueError]. *)
Theorem extract_user_ids_Ok_iff (data : json) :
  (well_formed_page data ->
   exists uids : gset Z,
     extract_user_ids data = Ok uids /\
     forall z, z ∈ uids <-> top_level_userid data z \/ nested_userid data z) /\
  (~ well_formed_page data ->
   exists e, extract_user_ids data = Raise e /\
             (e = KeyError \/ e = TypeError \/ e = ValueError)).
Proof.
  split.
  - intros Hwf. apply extract_user_ids_is_Ok, is_Ok_true in Hwf as [uids Huids].
    exists uids. split; [exact Huids |]. apply (extract_user_ids_spec _ _ Huids).
  - intros Hwf. pose proof (reading_outcome_extract_user_ids data) as Hr.
    destruct (extract_user_ids data) as [uids|e|] eqn:E; simpl in Hr.
    + destruct Hwf. apply extract_user_ids_is_Ok. by rewrite E.
    + by exists e.
    + done.
Qed.

Lemma extract_user_ids_Ok_iff_witness :
  (exists uids : gset Z,
     extract_user_ids (thread_pages 1) = Ok uids /\
     forall z, z ∈ uids <->
       top_level_userid (thread_pages 1) z \/ nested_userid (thread_pages 1) z) /\
  extract_user_ids (thread_pages 1) = Ok (list_to_set [4; 1; 5]) /\
  (exists e,
     extract_user_ids (comment_doc [JObj [("userid", JStr "7")]] false) = Raise e /\
     (e = KeyError \/ e = TypeError \/ e = ValueError)) /\
  extract_user_ids (comment_doc [JObj [("userid", JStr "7")]] false) = Raise KeyError.
Proof.
  split; [|split; [vm_compute; reflexivity | split; [|reflexivity]]].
  - apply (proj1 (extract_user_ids_Ok_iff (thread_pages 1))).
    apply extract_user_ids_is_Ok. vm_compute. reflexivity.
  - apply (proj2 (extract_user_ids_Ok_iff
                    (comment_doc [JObj [("userid", JStr "7")]] false))).
    intros Hwf. apply extract_user_ids_is_Ok in Hwf. discriminate.
Defined.

(** X5: the pagination has no bound of its own.  For an identifier without
    a brace in its text: when every page the server serves is well formed
    and declares more pages, then whatever number of iterations it is
    given, [fetch_all_uids_by_comments] has not returned after them, and
    has requested that many pages, one after the other from page 1. *)
Theorem fetch_all_uids_by_comments_unbounded (net : network) (sound_id : json)
    (pages : nat -> json) :
  brace_free sound_id = true ->
  (forall k,
     serves net sound_id (Z.of_nat k + 1) (pages k) /\
     well_formed_page (pages k) /\
     has_more (pages k) true) ->
  forall fuel,
    result (fetch_all_uids_by_comments net fuel sound_id) = Diverge /\
    sent (fetch_all_uids_by_comments net fuel sound_id) = page_requests sound_id 1 fuel.
Proof.
  intros Hfmt Hpages fuel. apply brace_free_format in Hfmt.
  unfold fetch_all_uids_by_comments.
  assert (forall fuel j acc,
            result (comment_pages net fuel sound_id acc (Z.of_nat j + 1)) = Diverge /\
            sent (comment_pages net fuel sound_id acc (Z.of_nat j + 1))
            = page_requests sound_id (Z.of_nat j + 1) fuel) as H.
  { clear fuel. induction fuel as [|fuel IH]; intros j acc; [by split |].
    destruct (Hpages j) as (Hs & Hok & Hm).
    apply extract_user_ids_is_Ok, is_Ok_true in Hok as [uids Huids].
    rewrite (comment_pages_step _ _ _ _ _ _ _ _ _ Hfmt Hs Huids Hm). cbv zeta.
    replace (Z.of_nat j + 1 + 1) with (Z.of_nat (S j) + 1) by lia.
    destruct (IH (S j) (acc ∪ uids)) as [Hr Hsent]. simpl sent. simpl result.
    split; [exact Hr |]. rewrite Hsent. unfold page_requests.
    cbn [seq fmap list_fmap]. f_equal; [f_equal; lia |].
    rewrite <- seq_shift, <- list_fmap_compose. apply list_fmap_ext.
    intros _ i _. simpl. f_equal. lia. }
  apply (H fuel 0%nat ∅).
Qed.

Lemma fetch_all_uids_by_comments_unbounded_witness :
  result (fetch_all_uids_by_comments endless_thread_server 5 (JInt 7)) = Diverge /\
  sent (fetch_all_uids_by_comments endless_thread_server 5 (JInt 7))
  = page_requests (JInt 7) 1 5.
Proof.
  apply (fetch_all_uids_by_comments_unbounded endless_thread_server (JInt 7)
           (fun _ => comment_doc [comment_entry (JInt 1) []] true)).
  - reflexivity.
  - intros k. split.
    + eexists. split; [reflexivity | split; reflexivity].
    + split; [apply extract_user_ids_is_Ok; vm_compute; reflexivity |].
      eexists. split; [by eexists _, _, _ | reflexivity].
Defined.

Lemma comment_pages_failed net fuel sound_id e_id acc page :
  endpoint_format sound_id = Ok e_id ->
  fetch_failed (net (getcomment e_id page 100)) ->
  comment_pages net (S fuel) sound_id acc page
  = IO [getcomment e_id page 100]
       (Raise (failure_of (net (getcomment e_id page 100)))).
Proof.
  intros Hfmt [Hnet | (resp & Hnet & [Hst | [Hst Hjson]])];
    rewrite (comment_pages_S _ _ _ _ _ _ Hfmt).
  - rewrite (requests_get_no_reply net _ Hnet), Hnet. reflexivity.
  - rewrite (requests_get_reply net _ resp Hnet), io_bind_IO, Hnet.
    simpl. rewrite Hst. reflexivity.
  - rewrite (requests_get_reply net _ resp Hnet), io_bind_IO, Hnet.
    unfold response_json. simpl. rewrite Hst, Hjson. reflexivity.
Qed.

Lemma page_requests_S sound_id page n :
  page_requests sound_id page (S n)
  = getcomment sound_id page 100 :: page_requests sound_id (page + 1) n.
Proof.
  unfold page_requests. cbn [seq fmap list_fmap]. f_equal; [f_equal; lia |].
  rewrite <- seq_shift, <- list_fmap_compose. apply list_fmap_ext.
  intros _ i _. simpl. f_equal. lia.
Qed.

Lemma comment_pages_failure net sound_id e_id (pages : nat -> json) :
  endpoint_format sound_id = Ok e_id ->
  forall (N j : nat) (acc : gset Z) (fuel : nat),
    (N < fuel)%nat ->
    (forall i, (i < N)%nat ->
       serves net e_id (Z.of_nat (j + i) + 1) (pages (j + i)%nat) /\
       well_formed_page (pages (j + i)%nat) /\
       has_more (pages (j + i)%nat) true) ->
    fetch_failed (net (getcomment e_id (Z.of_nat (j + N) + 1) 100)) ->
    comment_pages net fuel sound_id acc (Z.of_nat j + 1)
    = IO (page_requests e_id (Z.of_nat j + 1) (S N))
         (Raise (failure_of (net (getcomment e_id (Z.of_nat (j + N) + 1) 100)))).
Proof.
  intros Hfmt.
  induction N as [|N IH]; intros j acc fuel Hfuel Hpages Hfail;
    (destruct fuel as [|fuel]; [lia |]).
  - rewrite Nat.add_0_r in Hfail |- *.
    rewrite (comment_pages_failed _ _ _ _ _ _ Hfmt) by done.
    unfold page_requests. simpl. by rewrite Z.add_0_r.
  - destruct (Hpages 0%nat) as (Hs & Hok & Hm); [lia |].
    rewrite Nat.add_0_r in Hs, Hok, Hm.
    apply extract_user_ids_is_Ok, is_Ok_true in Hok as [uids Huids].
    rewrite (comment_pages_step _ _ _ _ _ _ _ _ _ Hfmt Hs Huids Hm). cbv zeta.
    replace (Z.of_nat j + 1 + 1) with (Z.of_nat (S j) + 1) by lia.
    rewrite (IH (S j) (acc ∪ uids) fuel).
    + simpl. rewrite (page_requests_S _ _ (S N)).
      replace (Z.of_nat j + 1 + 1) with (Z.of_nat (S j) + 1) by lia.
      by replace (S (j + N)) with (j + S N)%nat by lia.
    + lia.
    + intros i Hi. destruct (Hpages (S i)) as (Hs' & Hok' & Hm'); [lia |].
      by replace (j + S i)%nat with (S j + i)%nat in Hs', Hok', Hm' by lia.
    + by replace (S j + N)%nat with (j + S N)%nat by lia.
Qed.

(** X6: a failure of the pagination is not absorbed and loses the pages
    read so far.  For an identifier without a brace in its text: when the
    first [N] pages are well formed and declare more, and the request for
    page [N + 1] fails (no reply, an error status, a body that is not
    JSON), [fetch_all_uids_by_comments] raises the exception of that
    failure after its [N + 1] requests, and returns no identifier of the
    first [N] pages. *)
Theorem fetch_all_uids_by_comments_failure_propagates (net : network)
    (sound_id : json) (N : nat) (pages : nat -> json) (fuel : nat) :
  brace_free sound_id = true ->
  (N < fuel)%nat ->
  (forall k, (k < N)%nat ->
     serves net sound_id (Z.of_nat k + 1) (pages k) /\
     well_formed_page (pages k) /\
     has_more (pages k) true) ->
  fetch_failed (net (getcomment sound_id (Z.of_nat N + 1) 100)) ->
  fetch_all_uids_by_comments net fuel sound_id
  = IO (page_requests sound_id 1 (S N))
       (Raise (failure_of (net (getcomment sound_id (Z.of_nat N + 1) 100)))) /\
  is_RequestException (failure_of (net (getcomment sound_id (Z.of_nat N + 1) 100)))
  = true.
Proof.
  intros Hfmt Hfuel Hpages Hfail. apply brace_free_format in Hfmt. split.
  - unfold fetch_all_uids_by_comments.
    apply (comment_pages_failure net sound_id sound_id pages Hfmt N 0%nat ∅ fuel Hfuel).
    + intros i Hi. simpl. by apply Hpages.
    + exact Hfail.
  - unfold failure_of. destruct (net _) as [|resp]; [reflexivity |].
    destruct (raise_for_status resp); reflexivity.
Qed.

Lemma fetch_all_uids_by_comments_failure_propagates_witness :
  fetch_all_uids_by_comments broken_thread_server 5 (JInt 7)
  = IO (page_requests (JInt 7) 1 3) (Raise ConnectionError) /\
  is_RequestException ConnectionError = true.
Proof.
  apply (fetch_all_uids_by_comments_failure_propagates broken_thread_server (JInt 7)
           2 thread_pages 5).
  - reflexivity.
  - lia.
  - intros k Hk.
    destruct k as [|[|k]]; [| | lia];
      (split; [eexists; split; [reflexivity | split; reflexivity] |]);
      (split; [apply extract_user_ids_is_Ok; vm_compute; reflexivity |]);
      eexists; (split; [by eexists _, _, _ | reflexivity]).
  - left. reflexivity.
Defined.

(** ** Requests *)

Lemma sent_try_except_one {A} (r : request) (o : outcome response)
    (k : response -> outcome A) caught (a : A) :
  sent (try_except (IO [r] o ≫= fun resp => lift (k resp)) caught (mret a)) = [r].
Proof.
  unfold try_except. destruct o as [resp| |]; simpl.
  - unfold mbind, io_bind. simpl.
    destruct (k resp) as [x|e|]; simpl; try reflexivity.
    destruct (caught e); reflexivity.
  - unfold mbind, io_bind. simpl. destruct (caught e); reflexivity.
  - reflexivity.
Qed.

Lemma sent_one_shot_fetches net drama_id sound_id :
  sent (get_drama_sound_lists net drama_id) = [getdrama drama_id] /\
  sent (get_sound_detail net sound_id) = [getsound sound_id] /\
  sent (fetch_all_danmakus net sound_id) = [getdm sound_id].
Proof.
  unfold get_drama_sound_lists, get_sound_detail, fetch_all_danmakus, requests_get.
  repeat split; apply sent_try_except_one.
Qed.

(** X7: each of the three fetches that are not paginated sends exactly one
    request, whatever the server answers and however the fetch ends: there
    is no second attempt. *)
Theorem fetches_send_one_request (net : network) (drama_id : string) (sound_id : json) :
  sent (get_drama_sound_lists net drama_id) = [getdrama drama_id] /\
  sent (get_sound_detail net sound_id) = [getsound sound_id] /\
  sent (fetch_all_danmakus net sound_id) = [getdm sound_id].
Proof. apply sent_one_shot_fetches. Qed.

Lemma sent_comment_pages net sound_id e_id :
  endpoint_format sound_id = Ok e_id ->
  forall fuel acc page,
    exists n, (n <= fuel)%nat /\
      sent (comment_pages net fuel sound_id acc page) = page_requests e_id page n.
Proof.
  intros Hfmt.
  induction fuel as [|fuel IH]; intros acc page.
  - exists 0%nat. by split.
  - rewrite (comment_pages_S _ _ _ _ _ _ Hfmt). unfold requests_get.
    destruct (net (getcomment e_id page 100)) as [|resp].
    + exists 1%nat. split; [lia |]. unfold page_requests. simpl.
      by rewrite Z.add_0_r.
    + rewrite io_bind_IO.
      destruct (raise_for_status resp ≫= _) as [[acc' more]| |] eqn:E;
        unfold lift; [rewrite io_bind_IO | |].
      * destruct more; simpl.
        -- destruct (IH acc' (page + 1)) as (n & Hn & ->).
           exists (S n). split; [lia |]. by rewrite page_requests_S.
        -- exists 1%nat. split; [lia |]. unfold page_requests. simpl.
           by rewrite Z.add_0_r.
      * exists 1%nat. split; [lia |]. unfold page_requests. simpl.
        by rewrite Z.add_0_r.
      * exists 1%nat. split; [lia |]. unfold page_requests. simpl.
        by rewrite Z.add_0_r.
Qed.

Lemma sent_bind {A B} (m : io A) (f : A -> io B) :
  sent (m ≫= f)
  = match result m with
    | Ok a => (sent m ++ sent (f a))%list
    | _ => sent m
    end.
Proof. unfold mbind, io_bind. by destruct (result m). Qed.

Lemma bind_not_Diverge {A B} (m : outcome A) (f : A -> outcome B) :
  m <> Diverge -> (forall a, f a <> Diverge) -> (m ≫= f) <> Diverge.
Proof. destruct m as [a|e|]; simpl; auto; discriminate. Qed.

Lemma dict_get_not_Diverge v k d : dict_get v k d <> Diverge.
Proof. destruct v; discriminate. Qed.

Lemma fromtimestamp_not_Diverge v : fromtimestamp v <> Diverge.
Proof.
  unfold fromtimestamp. destruct (num_of v); [|discriminate].
  repeat destruct (_ || _); discriminate.
Qed.

Lemma try_except_not_Diverge {A} (body handler : io A) caught :
  result body <> Diverge -> result handler <> Diverge ->
  result (try_except body caught handler) <> Diverge.
Proof.
  unfold try_except. intros Hb Hh.
  destruct (result body) as [a|e|] eqn:E; try by rewrite E.
  destruct (caught e); [exact Hh | by rewrite E].
Qed.

(** Neither the detail fetch nor the inline-comment fetch can fail to
    end. *)
Lemma get_sound_detail_not_Diverge net sound_id :
  result (get_sound_detail net sound_id) <> Diverge.
Proof.
  unfold get_sound_detail. apply try_except_not_Diverge; [|discriminate].
  unfold requests_get. destruct (net (getsound sound_id)) as [|resp]; [discriminate |].
  rewrite io_bind_IO. simpl.
  apply bind_not_Diverge.
  { unfold raise_for_status. destruct (_ && _); discriminate. }
  intros _. apply bind_not_Diverge.
  { unfold response_json. destruct (json_doc resp); discriminate. }
  intros body.
  repeat (apply bind_not_Diverge; [apply dict_get_not_Diverge | intros ?]).
  apply bind_not_Diverge; [apply fromtimestamp_not_Diverge | discriminate].
Qed.

Lemma fetch_all_danmakus_not_Diverge net sound_id :
  result (fetch_all_danmakus net sound_id) <> Diverge.
Proof.
  unfold fetch_all_danmakus. apply try_except_not_Diverge; [|discriminate].
  unfold requests_get. destruct (net (getdm sound_id)) as [|resp]; [discriminate |].
  rewrite io_bind_IO. simpl.
  apply bind_not_Diverge.
  { unfold raise_for_status. destruct (_ && _); discriminate. }
  intros _. apply bind_not_Diverge.
  { unfold ETree_fromstring. destruct (xml_doc resp); discriminate. }
  intros root. apply bind_not_Diverge; [|discriminate].
  intros H. apply traverse_Diverge in H as (item & _ & H).
  by apply danmaku_uid_not_Diverge in H.
Qed.

Lemma io_eta {A} (m : io A) : m = IO (sent m) (result m).
Proof. by destruct m. Qed.



Lemma unescape_braces_doubled l l' :
  doubled_braces l l' -> unescape_braces l = Some l'.
Proof.
  induction 1 as [|c l l' Hc _ IH|c l l' Hc _ IH]; simpl.
  - reflexivity.
  - by rewrite Hc, IH.
  - by rewrite Hc, Ascii.eqb_refl, IH.
Qed.

Lemma doubled_braces_unescape n :
  forall l l', (length l <= n)%nat ->
    unescape_braces l = Some l' -> doubled_braces l l'.
Proof.
  induction n as [|n IH]; intros l l' Hlen.
  - destruct l; [|simpl in Hlen; lia]. intros [= <-]. constructor.
  - destruct l as [|c l]; [intros [= <-]; constructor |]. simpl.
    destruct (is_brace c) eqn:Hc.
    + destruct l as [|c' l]; [discriminate |].
      destruct (Ascii.eqb c c') eqn:E; [|discriminate].
      apply Ascii.eqb_eq in E as <-.
      destruct (unescape_braces l) as [r|] eqn:Er; [|discriminate].
      intros [= <-]. apply doubled_brace; [exact Hc |].
      apply IH; [simpl in Hlen; lia | exact Er].
    + destruct (unescape_braces l) as [r|] eqn:Er; [|discriminate].
      intros [= <-]. apply doubled_char; [exact Hc |].
      apply IH; [simpl in Hlen; lia | exact Er].
Qed.

(** X19: [endpoint.format] reads the braces in the text of the
    identifier.  For a string identifier: when every brace in it is
    doubled, the requests carry the identifier with each pair of braces
    replaced by one brace; when some brace is not doubled, the fetch raises
    before any request is sent.  It does so too for every dict. *)
Theorem fetch_all_uids_by_comments_reads_braces (net : network) (fuel : nat) :
  (forall s l',
     doubled_braces (list_ascii_of_string s) l' ->
     exists n, (1 <= n <= S fuel)%nat /\
       sent (fetch_all_uids_by_comments net (S fuel) (JStr s))
       = page_requests (JStr (string_of_list_ascii l')) 1 n) /\
  (forall s,
     (forall l', ~ doubled_braces (list_ascii_of_string s) l') ->
     fetch_all_uids_by_comments net (S fuel) (JStr s) = IO [] (Raise FormatError)) /\
  (forall kvs,
     fetch_all_uids_by_comments net (S fuel) (JObj kvs) = IO [] (Raise FormatError)).
Proof.
  split; [|split].
  - intros s l' H. apply unescape_braces_doubled in H.
    assert (endpoint_format (JStr s) = Ok (JStr (string_of_list_ascii l'))) as Hfmt.
    { unfold endpoint_format. simpl. by rewrite H. }
    unfold fetch_all_uids_by_comments.
    destruct (sent_comment_pages net _ _ Hfmt (S fuel) ∅ 1) as (n & Hn & Hsent).
    exists n. split; [|exact Hsent]. split; [|exact Hn].
    destruct n as [|n]; [|lia].
    rewrite (comment_pages_S _ _ _ _ _ _ Hfmt), sent_bind in Hsent.
    unfold requests_get, page_requests in Hsent. simpl in Hsent.
    destruct (net _); discriminate.
  - intros s H. apply comment_pages_rejected. simpl.
    destruct (unescape_braces (list_ascii_of_string s)) as [l'|] eqn:E; [|reflexivity].
    destruct (H l'). by eapply doubled_braces_unescape.
  - intros kvs. by apply comment_pages_rejected.
Qed.

Lemma fetch_all_uids_by_comments_reads_braces_witness :
  (exists n, (1 <= n <= 1)%nat /\
     sent (fetch_all_uids_by_comments single_page_server 1 (JStr "a{{b}}"))
     = page_requests (JStr "a{b}") 1 n) /\
  sent (fetch_all_uids_by_comments single_page_server 1 (JStr "a{{b}}"))
  = [getcomment (JStr "a{b}") 1 100] /\
  fetch_all_uids_by_comments single_page_server 1 (JStr "a{b}") = IO [] (Raise FormatError).
Proof.
  split; [|split; [reflexivity |]].
  - apply (proj1 (fetch_all_uids_by_comments_reads_braces single_page_server 0)
             "a{{b}}" (list_ascii_of_string "a{b}")).
    simpl. apply doubled_char; [reflexivity |].
    apply doubled_brace; [reflexivity |].
    apply doubled_char; [reflexivity |].
    apply doubled_brace; [reflexivity |]. constructor.
  - apply (proj1 (proj2 (fetch_all_uids_by_comments_reads_braces single_page_server 0))).
    intros l' H. apply unescape_braces_doubled in H. discriminate.
Defined.

(** ** Episode list *)

(** X9: on a well-formed episode-list document, [get_drama_sound_lists]
    returns one item per listed episode, in the order of the list, each
    with the entry's [sound_id] and [soundstr] and with [need_pay] 0 when
    the entry has none, together with the drama's name, price, view count
    and catalog name, [None] where the drama object has no such key. *)
Theorem get_drama_sound_lists_well_formed (net : network) (drama_id : string)
    (resp : response) (kvs info eps drama : list (string * json))
    (items : list json) (sl : list Sound.t) :
  net (getdrama drama_id) = Reply resp ->
  raise_for_status resp = Ok tt ->
  json_doc resp = Some (JObj kvs) ->
  assoc "info" kvs = Some (JObj info) ->
  assoc "drama" info = Some (JObj drama) ->
  assoc "episodes" info = Some (JObj eps) ->
  assoc "episode" eps = Some (JArr items) ->
  Forall2 (fun item s => exists fields,
             item = JObj fields /\
             assoc "sound_id" fields = Some (Sound.sound_id s) /\
             assoc "soundstr" fields = Some (Sound.sound_title s) /\
             from_option id (JInt 0) (assoc "need_pay" fields) = Sound.need_pay s)
          items sl ->
  get_drama_sound_lists net drama_id
  = IO [getdrama drama_id]
       (Ok (sl,
            from_option id JNull (assoc "name" drama),
            from_option id JNull (assoc "price" drama),
            from_option id JNull (assoc "view_count" drama),
            from_option id JNull (assoc "catalog_name" drama))) /\
  length sl = length items.
Proof.
  intros Hnet Hst Hjson Hinfo Hdrama Heps Hitems Hall.
  split; [|symmetry; by eapply Forall2_length].
  unfold get_drama_sound_lists.
  rewrite (requests_get_reply net _ resp Hnet), io_bind_IO.
  unfold try_except, response_json. simpl. rewrite Hst, Hjson. simpl.
  rewrite Hinfo. simpl. rewrite Hdrama, Heps. simpl. rewrite Hitems. simpl.
  match goal with
  | |- context [traverse ?f items] =>
      assert (traverse f items = Ok sl) as ->
  end.
  { apply traverse_Ok. eapply Forall2_impl; [exact Hall |].
    intros item s (fields & -> & Hid & Htitle & Hpay). simpl.
    rewrite Hid, Htitle. simpl. rewrite Hpay. by destruct s. }
  reflexivity.
Qed.

Lemma get_drama_sound_lists_well_formed_witness :
  get_drama_sound_lists two_episode_server "1"
  = IO [getdrama "1"]
       (Ok ([Sound.Make (JInt 101) (JStr "A") (JInt 0);
             Sound.Make (JInt 102) (JStr "B") (JInt 1)],
            JStr "D", JInt 199, JInt 15, JStr "drama")) /\
  length [Sound.Make (JInt 101) (JStr "A") (JInt 0);
          Sound.Make (JInt 102) (JStr "B") (JInt 1)] = 2%nat.
Proof.
  refine (get_drama_sound_lists_well_formed two_episode_server "1"
            (Response 200
               (Some (drama_doc "D" [episode_doc (JInt 101) "A" 0;
                                     episode_doc (JInt 102) "B" 1])) None)
            [("info", JObj [
               ("drama", JObj [("name", JStr "D"); ("price", JInt 199);
                               ("view_count", JInt 15); ("catalog_name", JStr "drama")]);
               ("episodes", JObj [("episode",
                  JArr [episode_doc (JInt 101) "A" 0; episode_doc (JInt 102) "B" 1])])])]
            [("drama", JObj [("name", JStr "D"); ("price", JInt 199);
                             ("view_count", JInt 15); ("catalog_name", JStr "drama")]);
             ("episodes", JObj [("episode",
                JArr [episode_doc (JInt 101) "A" 0; episode_doc (JInt 102) "B" 1])])]
            [("episode", JArr [episode_doc (JInt 101) "A" 0; episode_doc (JInt 102) "B" 1])]
            [("name", JStr "D"); ("price", JInt 199);
             ("view_count", JInt 15); ("catalog_name", JStr "drama")]
            [episode_doc (JInt 101) "A" 0; episode_doc (JInt 102) "B" 1]
            [Sound.Make (JInt 101) (JStr "A") (JInt 0);
             Sound.Make (JInt 102) (JStr "B") (JInt 1)]
            _ _ _ _ _ _ _ _); try reflexivity.
  repeat constructor; eexists; (split; [reflexivity |]); repeat split; reflexivity.
Defined.

(** * Further properties of the drama aggregator *)

(** ** Writes *)

Lemma sound_row_is_Ok d :
  is_Ok (sound_row d) = is_Ok (SoundDetail.create_time d).
Proof. unfold sound_row. by destruct (SoundDetail.create_time d). Qed.

(** The loop only keeps records that have a creation time. *)
Lemma join_futures_created sl futs order st st' :
  Forall (fun d => is_Ok (sound_row d) = true) (sound_data st) ->
  join_futures sl futs order st = Ok st' ->
  Forall (fun d => is_Ok (sound_row d) = true) (sound_data st').
Proof.
  revert st. induction order as [|i order IH]; intros st Hst; simpl.
  - by intros [= <-].
  - destruct (sl !! i) as [s|]; [|by apply IH].
    destruct (futs !! i) as [f|]; [|by apply IH].
    rewrite join_future_eq. intros H. apply bind_Ok in H as [st1 [H1 H]].
    apply bind_Ok in H1 as [x [Hx [= <-]]].
    apply (IH _) in H; [exact H |].
    rewrite sound_data_join_update. apply Forall_app. split; [exact Hst |].
    constructor; [|constructor].
    apply join_check_Ok in Hx as (_ & Hct & _).
    by rewrite sound_row_is_Ok, Hct.
Qed.

Lemma fan_out_created net fuel sl order st :
  fan_out net fuel sl order = Ok st ->
  Forall (fun d => is_Ok (sound_row d) = true) (sound_data st).
Proof.
  unfold fan_out. destruct sl as [|s sl].
  - intros [= <-]. constructor.
  - destruct (existsb _ _); [discriminate |].
    apply join_futures_created. constructor.
Qed.

Lemma process_drama_id_files net fuel drama_id order out :
  match process_drama_id net fuel drama_id order out with
  | (out', Ok (sd, paid)) =>
      exists rs row,
        traverse sound_row sd = Ok rs /\
        out' = Files (sound_file out ++ (Row <$> rs)) (drama_file out ++ [Row row]) /\
        DramaRow.drama_id row = drama_id /\
        DramaRow.total_paid_udis row = size paid
  | (out', _) => out' = out
  end.
Proof.
  unfold process_drama_id.
  destruct (result (get_drama_sound_lists net drama_id))
    as [[[[[sl name] price] vc] cat]| |]; try reflexivity.
  destruct (fan_out net fuel sl order) as [st| |] eqn:Efan; try reflexivity.
  destruct (py_sort SoundDetail.sound_id (sound_data st)) as [sorted| |] eqn:Esort;
    try reflexivity.
  assert (is_Ok (traverse sound_row sorted) = true) as Hrows.
  { apply traverse_total. rewrite (py_sort_perm _ _ _ Esort).
    by eapply fan_out_created. }
  apply is_Ok_true in Hrows as [rs Hrs].
  rewrite (write_sound_rows_Ok _ _ out Hrs).
  exists rs. eexists. split; [exact Hrs |]. split; [reflexivity |]. by split.
Qed.


(** ** What a drama needs to be processed *)

(** What a drama that is processed says of its episodes. *)
Lemma process_drama_id_Ok_episodes (net : network) (fuel : nat)
    (drama_id : string) (order : list nat) (out out' : files)
    (sl : list Sound.t) (name price vc cat : json)
    (sd : list SoundDetail.t) (paid : gset Z) :
  result (get_drama_sound_lists net drama_id) = Ok (sl, name, price, vc, cat) ->
  completion_order (length sl) order ->
  process_drama_id net fuel drama_id order out = (out', Ok (sd, paid)) ->
  (forall s, s ∈ sl ->
     exists d dt n,
       result (process_sound net fuel s) = Ok d /\
       SoundDetail.detail d = Some dt /\
       kind_of (Sound.need_pay s) = Some Number /\
       py_int (Detail.view_count dt) = Ok n) /\
  ((2 <= length sl)%nat ->
   exists c, Forall (fun s => kind_of (Sound.sound_id s) = Some c) sl).
Proof.
  intros Hlist Horder Hrun.
  destruct (decide (sl = [])) as [-> | Hne].
  { split; [intros s Hs; by apply elem_of_nil in Hs | simpl; lia]. }
  apply (process_drama_id_Ok_iff _ _ _ _ _ _ _ _ _ _ _ _ _ Hlist Hne Horder) in Hrun
    as (xs & rs & Hxs & Hsort & Hrs & -> & ->).
  assert (forall i s, sl !! i = Some s ->
            exists x, x ∈ xs /\ result (process_sound net fuel s) = Ok (joined_detail x) /\
                      join_check s (Ok (joined_detail x)) = Ok x) as Hall.
  { intros i s Hi.
    assert (i ∈ order) as Hio.
    { unfold completion_order in Horder. rewrite Horder. apply elem_of_seq.
      apply lookup_lt_Some in Hi. lia. }
    apply list_elem_of_lookup in Hio as [j Hj].
    pose proof Hxs as Hxs'. apply traverse_Ok in Hxs'.
    destruct (Forall2_lookup_l _ _ _ _ _ Hxs' Hj) as (x & Hx & Hc).
    apply checked_Ok in Hc as (s' & Hs' & Hf & Hjc).
    assert (s' = s) as -> by congruence.
    exists x. split; [by eapply list_elem_of_lookup_2 |]. split; [|exact Hjc].
    unfold run_pool in Hf. rewrite list_lookup_fmap, Hi in Hf. simpl in Hf.
    congruence. }
  split.
  - intros s Hs. apply list_elem_of_lookup in Hs as [i Hi].
    destruct (Hall i s Hi) as (x & _ & Hp & Hjc).
    apply join_check_Ok in Hjc as (_ & Hct & Hpay & Hv).
    unfold SoundDetail.create_time, SoundDetail.view_count in *.
    destruct (SoundDetail.detail (joined_detail x)) as [dt|] eqn:Edt; [|discriminate].
    exists (joined_detail x), dt, (joined_views x).
    split; [exact Hp |]. split; [exact Edt |]. split; [|exact Hv].
    unfold py_gt in Hpay. apply py_lt_Ok_kind in Hpay as (c & Hc0 & Hc).
    simpl in Hc0. injection Hc0 as <-. exact Hc.
  - intros Hlen.
    assert (length xs = length sl) as Hxlen.
    { rewrite (traverse_length _ _ _ Hxs). unfold completion_order in Horder.
      by rewrite Horder, length_seq. }
    destruct (py_sort_homogeneous SoundDetail.sound_id _ _ Hsort) as [c Hc].
    { rewrite length_fmap. lia. }
    exists c. apply Forall_forall. intros s Hs.
    apply list_elem_of_lookup in Hs as [i Hi].
    destruct (Hall i s Hi) as (x & Hx & Hp & _).
    apply process_sound_sound_id in Hp as [<- _].
    rewrite Forall_forall in Hc. apply Hc. apply list_elem_of_fmap. eauto.
Qed.

(** X11: [process_drama_id] returns only if every listed episode has a
    record with the keys of a fetched detail, a [need_pay] that is a number
    (an int or a bool) and a [view_count] that [int] reads; with two
    episodes or more, their identifiers must be all numbers, all strings or
    all lists, as [<] compares no other pair of values.  So one episode
    whose record has no detail, or whose [need_pay] is null, keeps the
    whole drama from being processed. *)
Theorem process_drama_id_requirements (net : network) (fuel : nat)
    (drama_id : string) (order : list nat) (out out' : files)
    (sl : list Sound.t) (name price vc cat : json)
    (sd : list SoundDetail.t) (paid : gset Z) :
  result (get_drama_sound_lists net drama_id) = Ok (sl, name, price, vc, cat) ->
  completion_order (length sl) order ->
  process_drama_id net fuel drama_id order out = (out', Ok (sd, paid)) ->
  (forall s, s ∈ sl ->
     exists d dt n,
       result (process_sound net fuel s) = Ok d /\
       SoundDetail.detail d = Some dt /\
       kind_of (Sound.need_pay s) = Some Number /\
       py_int (Detail.view_count dt) = Ok n) /\
  ((2 <= length sl)%nat ->
   exists c, Forall (fun s => kind_of (Sound.sound_id s) = Some c) sl).
Proof. apply process_drama_id_Ok_episodes. Qed.

Lemma process_drama_id_requirements_witness :
  (forall s, s ∈ [Sound.Make (JInt 101) (JStr "A") (JInt 0);
                  Sound.Make (JInt 102) (JStr "B") (JInt 1)] ->
     exists d dt n,
       result (process_sound two_episode_server 1 s) = Ok d /\
       SoundDetail.detail d = Some dt /\
       kind_of (Sound.need_pay s) = Some Number /\
       py_int (Detail.view_count dt) = Ok n) /\
  ((2 <= length [Sound.Make (JInt 101) (JStr "A") (JInt 0);
                 Sound.Make (JInt 102) (JStr "B") (JInt 1)])%nat ->
   exists c, Forall (fun s => kind_of (Sound.sound_id s) = Some c)
               [Sound.Make (JInt 101) (JStr "A") (JInt 0);
                Sound.Make (JInt 102) (JStr "B") (JInt 1)]).
Proof.
  eapply (process_drama_id_requirements two_episode_server 1 "1" [0; 1]%nat
            (Files [Header] [Header])).
  - vm_compute. reflexivity.
  - unfold completion_order. reflexivity.
  - vm_compute. reflexivity.
Defined.

(** ** Totals of the summary row *)

Lemma total_views_app l1 l2 :
  total_views (l1 ++ l2) = total_views l1 + total_views l2.
Proof.
  unfold total_views. induction l1 as [|d l1 IH]; simpl; [reflexivity |].
  rewrite IH. lia.
Qed.

#[local] Instance total_views_perm : Proper ((≡ₚ) ==> (=)) total_views.
Proof.
  intros l1 l2 Hperm. unfold total_views.
  induction Hperm as [|x l1 l2 _ IH|x y l|l1 l2 l3 _ IH1 _ IH2]; simpl.
  - reflexivity.
  - by rewrite IH.
  - lia.
  - by rewrite IH1.
Qed.

Lemma records_partition l : (paid_records l ++ free_records l)%list ≡ₚ l.
Proof.
  unfold paid_records, free_records. induction l as [|d l IH]; [reflexivity |].
  destruct (is_paid d) eqn:E.
  - rewrite filter_cons_True by exact E.
    rewrite (filter_cons_False (fun d => is_paid d = false)) by (rewrite E; discriminate).
    simpl. by rewrite IH.
  - rewrite filter_cons_False by (rewrite E; discriminate).
    rewrite (filter_cons_True (fun d => is_paid d = false)) by exact E.
    rewrite <- Permutation_middle. by rewrite IH.
Qed.

Lemma summarises_nil : summarises [] initial_locals.
Proof. repeat split. Qed.

Lemma summarises_perm l l' st : l ≡ₚ l' -> summarises l st -> summarises l' st.
Proof.
  unfold summarises, paid_records, free_records.
  intros Hperm (H1 & H2 & H3 & H4 & H5 & H6 & H7 & H8).
  rewrite <- Hperm. by repeat split.
Qed.

Lemma summarises_join_update x l st :
  is_paid (joined_detail x) = joined_paid x ->
  views (joined_detail x) = joined_views x ->
  summarises l st ->
  summarises (l ++ [joined_detail x]) (join_update x st).
Proof.
  unfold summarises, paid_records, free_records, join_update.
  intros Hp Hv (H1 & H2 & H3 & H4 & H5 & H6 & H7 & H8).
  rewrite !filter_app. destruct (joined_paid x).
  - rewrite (filter_cons_True (fun d => is_paid d = true)) by exact Hp.
    rewrite (filter_cons_False (fun d => is_paid d = false))
      by (rewrite Hp; discriminate).
    rewrite !filter_nil, !app_nil_r, !fmap_app, !union_list_app_L, total_views_app.
    simpl. rewrite !(right_id_L ∅ (∪)), Hv, H1, H3, H4, H7.
    repeat split; try assumption. lia.
  - rewrite (filter_cons_False (fun d => is_paid d = true))
      by (rewrite Hp; discriminate).
    rewrite (filter_cons_True (fun d => is_paid d = false)) by exact Hp.
    rewrite !filter_nil, !app_nil_r, !fmap_app, !union_list_app_L, total_views_app.
    simpl. rewrite !(right_id_L ∅ (∪)), Hv, H2, H5, H6, H8.
    repeat split; try assumption. lia.
Qed.

Lemma process_sound_total_union net fuel s d :
  result (process_sound net fuel s) = Ok d -> total_is_union d.
Proof.
  unfold process_sound, total_is_union. intros H.
  apply io_bind_Ok in H as [sd [_ H]].
  apply io_bind_Ok in H as [dan [_ H]].
  apply io_bind_Ok in H as [com [_ H]].
  injection H as Hd. by subst d.
Qed.

(** What the loop reads for a future is what the record it keeps says. *)
Lemma join_check_record net fuel s x :
  join_check s (result (process_sound net fuel s)) = Ok x ->
  is_paid (joined_detail x) = joined_paid x /\
  views (joined_detail x) = joined_views x /\
  total_is_union (joined_detail x).
Proof.
  intros H. apply join_check_Ok in H as (Hd & _ & Hpaid & Hv).
  pose proof (process_sound_sound_id _ _ _ _ Hd) as (_ & _ & Hpay).
  unfold is_paid, views. rewrite Hpay, Hpaid, Hv.
  split; [reflexivity |]. split; [reflexivity |].
  by eapply process_sound_total_union.
Qed.

Lemma join_futures_summarises net fuel sl order st st' :
  summarises (sound_data st) st ->
  Forall total_is_union (sound_data st) ->
  join_futures sl (run_pool net fuel sl) order st = Ok st' ->
  summarises (sound_data st') st' /\ Forall total_is_union (sound_data st').
Proof.
  revert st. induction order as [|i order IH]; intros st Hst Hun; simpl.
  - by intros [= <-].
  - destruct (sl !! i) as [s|] eqn:Es; [|by apply IH].
    unfold run_pool at 1. rewrite list_lookup_fmap, Es. simpl.
    rewrite join_future_eq. intros H. apply bind_Ok in H as [st1 [H1 H]].
    apply bind_Ok in H1 as [x [Hx [= <-]]].
    apply join_check_record in Hx as (Hp & Hv & Hu).
    apply (IH _) in H; [exact H | |].
    + rewrite sound_data_join_update. by apply summarises_join_update.
    + rewrite sound_data_join_update. apply Forall_app. split; [exact Hun |].
      by constructor.
Qed.

Lemma fan_out_summarises net fuel sl order st :
  fan_out net fuel sl order = Ok st ->
  summarises (sound_data st) st /\ Forall total_is_union (sound_data st).
Proof.
  unfold fan_out. destruct sl as [|s sl].
  - intros [= <-]. split; [apply summarises_nil | constructor].
  - destruct (existsb _ _); [discriminate |].
    apply join_futures_summarises; [apply summarises_nil | constructor].
Qed.

(** The locals behind the summary row hold the totals of the returned
    records. *)
Lemma process_drama_id_summary net fuel drama_id order out out' sd paid :
  process_drama_id net fuel drama_id order out = (out', Ok (sd, paid)) ->
  exists st name price vc,
    summarises sd st /\ Forall total_is_union sd /\
    paid = total_paid_udis st /\
    drama_file out'
    = (drama_file out ++ [Row (drama_row drama_id name price vc st)])%list.
Proof.
  unfold process_drama_id.
  destruct (result (get_drama_sound_lists net drama_id))
    as [[[[[sl name] price] vc] cat]| |]; try discriminate.
  destruct (fan_out net fuel sl order) as [st| |] eqn:Efan; try discriminate.
  destruct (py_sort SoundDetail.sound_id (sound_data st)) as [sorted| |] eqn:Esort;
    try discriminate.
  destruct (write_sound_rows sorted out) as [out1 [u| |]] eqn:Ew; try discriminate.
  intros H. injection H as <- <- <-.
  destruct (write_sound_rows_inv _ _ _ _ Ew) as [rs Hrs].
  rewrite (write_sound_rows_Ok _ _ out Hrs) in Ew. injection Ew as <-.
  apply fan_out_summarises in Efan as [Hsum Hun].
  apply py_sort_perm in Esort.
  exists st, name, price, vc. split; [|split; [|split; reflexivity]].
  - by apply (summarises_perm (sound_data st)).
  - by rewrite Esort.
Qed.

Lemma union_list_total l :
  Forall total_is_union l ->
  ⋃ (SoundDetail.total_sound_uids <$> l)
  = ⋃ (SoundDetail.danmaku_uids <$> l) ∪ ⋃ (SoundDetail.comment_uids <$> l).
Proof.
  induction 1 as [|d l Hd _ IH].
  - simpl. by rewrite (left_id_L ∅ (∪)).
  - rewrite !fmap_cons, !union_list_cons, IH, Hd.
    rewrite <- !(assoc_L (∪)). f_equal.
    rewrite !(assoc_L (∪)). f_equal. apply (comm_L (∪)).
Qed.

Lemma size_union_bounds (X Y : gset Z) :
  (size X <= size (X ∪ Y))%nat /\ (size Y <= size (X ∪ Y))%nat /\
  (size (X ∪ Y) <= size X + size Y)%nat.
Proof.
  split; [apply subseteq_size, union_subseteq_l |].
  split; [apply subseteq_size, union_subseteq_r |].
  rewrite size_union_alt. apply Nat.add_le_mono_l, subseteq_size.
  intros x Hx. apply elem_of_difference in Hx. tauto.
Qed.

(** X12: the totals of a summary row are those of the returned records.
    When [process_drama_id] returns, in whatever order the futures were
    taken, the row it appended to the drama file holds, for the returned
    records with [need_pay > 0] and for the other ones apart, the sum of
    their view counts and the number of distinct identifiers in their
    inline sets, in their comment sets and in their total sets; the
    returned set is the union of the total sets of the paid records, and
    every returned record is counted on one side exactly. *)
Theorem process_drama_id_summary_totals (net : network) (fuel : nat)
    (drama_id : string) (order : list nat) (out out' : files)
    (sd : list SoundDetail.t) (paid : gset Z) :
  process_drama_id net fuel drama_id order out = (out', Ok (sd, paid)) ->
  (paid_records sd ++ free_records sd)%list ≡ₚ sd /\
  paid = ⋃ (SoundDetail.total_sound_uids <$> paid_records sd) /\
  exists row,
    drama_file out' = (drama_file out ++ [Row row])%list /\
    DramaRow.paid_view_count row = total_views (paid_records sd) /\
    DramaRow.free_view_count row = total_views (free_records sd) /\
    DramaRow.total_paid_danmaku_udis row
      = size (⋃ (SoundDetail.danmaku_uids <$> paid_records sd)) /\
    DramaRow.total_paid_comment_uids row
      = size (⋃ (SoundDetail.comment_uids <$> paid_records sd)) /\
    DramaRow.total_free_danmaku_udis row
      = size (⋃ (SoundDetail.danmaku_uids <$> free_records sd)) /\
    DramaRow.total_free_comment_uids row
      = size (⋃ (SoundDetail.comment_uids <$> free_records sd)) /\
    DramaRow.total_paid_udis row
      = size (⋃ (SoundDetail.total_sound_uids <$> paid_records sd)) /\
    DramaRow.total_free_udis row
      = size (⋃ (SoundDetail.total_sound_uids <$> free_records sd)).
Proof.
  intros H. apply process_drama_id_summary in H
    as (st & name & price & vc & Hsum & _ & -> & Hfile).
  destruct Hsum as (H1 & H2 & H3 & H4 & H5 & H6 & H7 & H8).
  split; [apply records_partition |]. split; [exact H1 |].
  eexists. split; [exact Hfile |]. simpl.
  by rewrite H1, H2, H3, H4, H5, H6, H7, H8.
Qed.

Lemma process_drama_id_summary_totals_witness :
  exists out' sd paid,
    process_drama_id two_episode_server 1 "1" [1; 0]%nat (Files [Header] [Header])
    = (out', Ok (sd, paid)) /\
    (paid_records sd ++ free_records sd)%list ≡ₚ sd /\
    paid = ⋃ (SoundDetail.total_sound_uids <$> paid_records sd) /\
    exists row,
      drama_file out' = ([Header] ++ [Row row])%list /\
      DramaRow.paid_view_count row = total_views (paid_records sd) /\
      DramaRow.free_view_count row = total_views (free_records sd) /\
      DramaRow.total_paid_danmaku_udis row
        = size (⋃ (SoundDetail.danmaku_uids <$> paid_records sd)) /\
      DramaRow.total_paid_comment_uids row
        = size (⋃ (SoundDetail.comment_uids <$> paid_records sd)) /\
      DramaRow.total_free_danmaku_udis row
        = size (⋃ (SoundDetail.danmaku_uids <$> free_records sd)) /\
      DramaRow.total_free_comment_uids row
        = size (⋃ (SoundDetail.comment_uids <$> free_records sd)) /\
      DramaRow.total_paid_udis row
        = size (⋃ (SoundDetail.total_sound_uids <$> paid_records sd)) /\
      DramaRow.total_free_udis row
        = size (⋃ (SoundDetail.total_sound_uids <$> free_records sd)).
Proof.
  do 3 eexists. split; [vm_compute; reflexivity |].
  apply (process_drama_id_summary_totals two_episode_server 1 "1" [1; 0]%nat
           (Files [Header] [Header])).
  vm_compute. reflexivity.
Defined.

(** X13: in every summary row [process_drama_id] writes, the paid total is
    the size of the union of the paid inline and paid comment identifiers:
    it is at least each of the two counts beside it and at most their sum.
    The same holds for the three free counts. *)
Theorem process_drama_id_summary_counts_consistent (net : network) (fuel : nat)
    (drama_id : string) (order : list nat) (out out' : files)
    (sd : list SoundDetail.t) (paid : gset Z) :
  process_drama_id net fuel drama_id order out = (out', Ok (sd, paid)) ->
  exists row,
    drama_file out' = (drama_file out ++ [Row row])%list /\
    (DramaRow.total_paid_danmaku_udis row <= DramaRow.total_paid_udis row)%nat /\
    (DramaRow.total_paid_comment_uids row <= DramaRow.total_paid_udis row)%nat /\
    (DramaRow.total_paid_udis row
     <= DramaRow.total_paid_danmaku_udis row + DramaRow.total_paid_comment_uids row)%nat /\
    (DramaRow.total_free_danmaku_udis row <= DramaRow.total_free_udis row)%nat /\
    (DramaRow.total_free_comment_uids row <= DramaRow.total_free_udis row)%nat /\
    (DramaRow.total_free_udis row
     <= DramaRow.total_free_danmaku_udis row + DramaRow.total_free_comment_uids row)%nat.
Proof.
  intros H. apply process_drama_id_summary in H
    as (st & name & price & vc & Hsum & Hun & -> & Hfile).
  destruct Hsum as (H1 & H2 & H3 & H4 & H5 & H6 & _ & _).
  eexists. split; [exact Hfile |]. simpl.
  rewrite Forall_forall in Hun.
  assert (Forall total_is_union (paid_records sd)) as Hp.
  { apply Forall_forall. intros d Hd. apply list_elem_of_filter in Hd as [_ Hd]. auto. }
  assert (Forall total_is_union (free_records sd)) as Hf.
  { apply Forall_forall. intros d Hd. apply list_elem_of_filter in Hd as [_ Hd]. auto. }
  rewrite H1, H2, H3, H4, H5, H6.
  rewrite (union_list_total _ Hp), (union_list_total _ Hf).
  pose proof (size_union_bounds (⋃ (SoundDetail.danmaku_uids <$> paid_records sd))
                (⋃ (SoundDetail.comment_uids <$> paid_records sd))) as (? & ? & ?).
  pose proof (size_union_bounds (⋃ (SoundDetail.danmaku_uids <$> free_records sd))
                (⋃ (SoundDetail.comment_uids <$> free_records sd))) as (? & ? & ?).
  repeat split; assumption.
Qed.

Lemma process_drama_id_summary_counts_consistent_witness :
  exists row,
    drama_file (process_drama_id two_episode_server 1 "1" [0; 1]%nat
                  (Files [Header] [Header])).1
    = ([Header] ++ [Row row])%list /\
    (DramaRow.total_paid_danmaku_udis row <= DramaRow.total_paid_udis row)%nat /\
    (DramaRow.total_paid_comment_uids row <= DramaRow.total_paid_udis row)%nat /\
    (DramaRow.total_paid_udis row
     <= DramaRow.total_paid_danmaku_udis row + DramaRow.total_paid_comment_uids row)%nat /\
    (DramaRow.total_free_danmaku_udis row <= DramaRow.total_free_udis row)%nat /\
    (DramaRow.total_free_comment_uids row <= DramaRow.total_free_udis row)%nat /\
    (DramaRow.total_free_udis row
     <= DramaRow.total_free_danmaku_udis row + DramaRow.total_free_comment_uids row)%nat.
Proof.
  eapply (process_drama_id_summary_counts_consistent two_episode_server 1 "1"
            [0; 1]%nat (Files [Header] [Header])).
  vm_compute. reflexivity.
Defined.

(** * Further properties of the run coordinator *)

(** What [process_drama_id] returns does not depend on what the files
    hold. *)
Lemma write_sound_rows_result l out1 out2 :
  (write_sound_rows l out1).2 = (write_sound_rows l out2).2.
Proof.
  revert out1 out2. induction l as [|d l IH]; intros out1 out2; simpl.
  - reflexivity.
  - destruct (sound_row d); [apply IH | reflexivity | reflexivity].
Qed.

Lemma process_drama_id_result net fuel drama_id order out1 out2 :
  (process_drama_id net fuel drama_id order out1).2
  = (process_drama_id net fuel drama_id order out2).2.
Proof.
  unfold process_drama_id.
  destruct (result (get_drama_sound_lists net drama_id))
    as [[[[[sl name] price] vc] cat]| |]; try reflexivity.
  destruct (fan_out net fuel sl order) as [st| |]; try reflexivity.
  destruct (py_sort SoundDetail.sound_id (sound_data st)) as [sorted| |];
    try reflexivity.
  pose proof (write_sound_rows_result sorted out1 out2) as H.
  destruct (write_sound_rows sorted out1) as [o1 [u1| |]],
           (write_sound_rows sorted out2) as [o2 [u2| |]];
    simpl in H; try discriminate; try reflexivity.
  by injection H as ->.
Qed.

Lemma process_drama_id_Ok_any_files net fuel drama_id order out out' res out0 :
  process_drama_id net fuel drama_id order out = (out', Ok res) ->
  exists out1, process_drama_id net fuel drama_id order out0 = (out1, Ok res).
Proof.
  intros H. pose proof (process_drama_id_result net fuel drama_id order out out0) as Hr.
  rewrite H in Hr. simpl in Hr.
  destruct (process_drama_id net fuel drama_id order out0) as [out1 r].
  simpl in Hr. subst r. by exists out1.
Qed.

(** The files after the loop: rows appended, one summary row per drama
    that was processed. *)
Lemma runner_loop_files net fuel ids k sched ds ap out :
  exists srows drows,
    sound_file (runner_loop net fuel ids k sched ds ap out).1
    = (sound_file out ++ (Row <$> srows))%list /\
    drama_file (runner_loop net fuel ids k sched ds ap out).1
    = (drama_file out ++ (Row <$> drows))%list /\
    DramaRow.drama_id <$> drows = strip <$> take (length drows) ids /\
    if is_Ok (runner_loop net fuel ids k sched ds ap out).2
    then length drows = length ids
    else (length drows < length ids)%nat.
Proof.
  revert k ds ap out. induction ids as [|id ids IH]; intros k ds ap out.
  - exists [], []. simpl. by rewrite !app_nil_r.
  - cbn [runner_loop].
    pose proof (process_drama_id_files net fuel (strip id) (sched k) out) as Hf.
    destruct (process_drama_id net fuel (strip id) (sched k) out)
      as [out1 [[sd paid]| |]].
    + destruct Hf as (rs & row & _ & -> & Hid & _).
      destruct (IH (S k) (<[id := sd]> ds) (ap ∪ paid)
                  (Files (sound_file out ++ (Row <$> rs))
                     (drama_file out ++ [Row row])))
        as (srows & drows & Hs & Hd & Hids & Hlen).
      exists (rs ++ srows)%list, (row :: drows). rewrite Hs, Hd.
      split; [|split; [|split]].
      * simpl. by rewrite fmap_app, app_assoc.
      * simpl. by rewrite <- app_assoc.
      * cbn [length take]. by rewrite !fmap_cons, Hid, Hids.
      * cbn [length]. destruct (is_Ok _); lia.
    + subst out1. exists [], []. simpl. rewrite !app_nil_r.
      repeat split; lia.
    + subst out1. exists [], []. simpl. rewrite !app_nil_r.
      repeat split; lia.
Qed.

(** X14: the two files [runner] leaves.  Each starts with its header and
    holds rows only after it.  The summary rows carry, in the order of the
    input line, the stripped fields of the line up to the first drama that
    could not be processed: one row per field, repeated fields included,
    when [runner] returns, and fewer rows than fields when it does not. *)
Theorem runner_files_shape (net : network) (fuel : nat) (drama_ids : string)
    (sched : nat -> list nat) :
  exists srows drows,
    sound_file (runner net fuel drama_ids sched).1 = Header :: (Row <$> srows) /\
    drama_file (runner net fuel drama_ids sched).1 = Header :: (Row <$> drows) /\
    DramaRow.drama_id <$> drows
      = strip <$> take (length drows) (split_comma drama_ids) /\
    if is_Ok (runner net fuel drama_ids sched).2
    then length drows = length (split_comma drama_ids)
    else (length drows < length (split_comma drama_ids))%nat.
Proof.
  unfold runner.
  destruct (runner_loop_files net fuel (split_comma drama_ids) 0 sched ∅ ∅
              (Files [Header] [Header])) as (srows & drows & Hs & Hd & H).
  exists srows, drows. by rewrite Hs, Hd.
Qed.

(** The dictionary after the loop: the entry of a field of the line is the
    list returned for its last occurrence; other entries are untouched. *)
Lemma runner_loop_dict net fuel ids k sched ds ap out out' ds' ap' :
  runner_loop net fuel ids k sched ds ap out = (out', Ok (ds', ap')) ->
  forall id,
    ((id ∉ ids) /\ ds' !! id = ds !! id) \/
    (exists j sd paid out0 out1,
       ids !! j = Some id /\
       (forall j', (j < j')%nat -> ids !! j' <> Some id) /\
       ds' !! id = Some sd /\
       process_drama_id net fuel (strip id) (sched (k + j)%nat) out0
       = (out1, Ok (sd, paid))).
Proof.
  revert k ds ap out. induction ids as [|id0 ids IH]; intros k ds ap out H id.
  - injection H as _ <- _. left. split; [apply not_elem_of_nil | reflexivity].
  - cbn [runner_loop] in H.
    destruct (process_drama_id net fuel (strip id0) (sched k) out)
      as [out1 [[sd0 paid0]| |]] eqn:E; try discriminate.
    destruct (IH _ _ _ _ H id) as [[Hnot Hlook] | (j & sd & paid & o0 & o1 & Hj & Hlast & Hsd & Hp)].
    + destruct (decide (id = id0)) as [-> | Hne].
      * right. exists 0%nat, sd0, paid0, out, out1.
        split; [reflexivity |]. split.
        { intros [|j'] Hlt; [lia |]. simpl. intros Hj'.
          apply Hnot. by eapply list_elem_of_lookup_2. }
        split; [by rewrite Hlook, lookup_insert_eq |].
        by rewrite Nat.add_0_r.
      * left. split.
        { intros Hin. apply elem_of_cons in Hin as [? | ?]; [done | by apply Hnot]. }
        by rewrite Hlook, lookup_insert_ne.
    + right. exists (S j), sd, paid, o0, o1.
      split; [exact Hj |]. split.
      { intros [|j'] Hlt; [lia |]. simpl. apply Hlast. lia. }
      split; [exact Hsd |].
      by replace (k + S j)%nat with (S k + j)%nat by lia.
Qed.

(** The set after the loop: what it held, and the sets the dramas
    returned. *)
Lemma runner_loop_paid net fuel ids k sched ds ap out out' ds' ap' :
  runner_loop net fuel ids k sched ds ap out = (out', Ok (ds', ap')) ->
  forall u,
    u ∈ ap' <->
    u ∈ ap \/
    exists j id sd paid out0 out1,
      ids !! j = Some id /\
      process_drama_id net fuel (strip id) (sched (k + j)%nat) out0
      = (out1, Ok (sd, paid)) /\
      u ∈ paid.
Proof.
  revert k ds ap out. induction ids as [|id0 ids IH]; intros k ds ap out H u.
  - injection H as _ _ <-. split; [by left |].
    intros [? | (j & id & ? & ? & ? & ? & Hj & _)]; [done | discriminate].
  - cbn [runner_loop] in H.
    destruct (process_drama_id net fuel (strip id0) (sched k) out)
      as [out1 [[sd0 paid0]| |]] eqn:E; try discriminate.
    rewrite (IH _ _ _ _ H u), elem_of_union. split.
    + intros [[Hu | Hu] | (j & id & sd & paid & o0 & o1 & Hj & Hp & Hu)].
      * by left.
      * right. exists 0%nat, id0, sd0, paid0, out, out1.
        split; [reflexivity |]. split; [by rewrite Nat.add_0_r | exact Hu].
      * right. exists (S j), id, sd, paid, o0, o1.
        split; [exact Hj |]. split; [|exact Hu].
        by replace (k + S j)%nat with (S k + j)%nat by lia.
    + intros [Hu | (j & id & sd & paid & o0 & o1 & Hj & Hp & Hu)].
      * left. by left.
      * destruct j as [|j].
        -- injection Hj as <-. rewrite Nat.add_0_r in Hp.
           destruct (process_drama_id_Ok_any_files _ _ _ _ _ _ _ o0 E) as [o1' Hp'].
           rewrite Hp in Hp'. injection Hp' as _ _ <-. left. by right.
        -- right. exists j, id, sd, paid, o0, o1.
           split; [exact Hj |]. split; [|exact Hu].
           by replace (S k + j)%nat with (k + S j)%nat by lia.
Qed.

(** Every drama of the line was processed when the loop ends normally. *)
Lemma runner_loop_all_Ok net fuel ids k sched ds ap out out' r :
  runner_loop net fuel ids k sched ds ap out = (out', Ok r) ->
  forall j id, ids !! j = Some id ->
    is_Ok (process_drama_id net fuel (strip id) (sched (k + j)%nat)
             (Files [] [])).2 = true.
Proof.
  revert k ds ap out. induction ids as [|id0 ids IH]; intros k ds ap out H j id Hj.
  - discriminate.
  - cbn [runner_loop] in H.
    destruct (process_drama_id net fuel (strip id0) (sched k) out)
      as [out1 [[sd0 paid0]| |]] eqn:E; try discriminate.
    destruct j as [|j].
    + injection Hj as <-. rewrite Nat.add_0_r.
      destruct (process_drama_id_Ok_any_files _ _ _ _ _ _ _ (Files [] []) E) as [o1 ->].
      reflexivity.
    + replace (k + S j)%nat with (S k + j)%nat by lia. by eapply IH.
Qed.

(** X15: the dictionary [runner] returns has one entry per distinct field
    of the input line, under the field as it was typed, not stripped.  Its
    value is the list [process_drama_id] returned for the stripped field at
    the last place where the field occurs in the line. *)
Theorem runner_dictionary (net : network) (fuel : nat) (drama_ids : string)
    (sched : nat -> list nat) (out : files)
    (drama_sound : gmap string (list SoundDetail.t)) (all_paid_total_uids : gset Z) :
  runner net fuel drama_ids sched = (out, Ok (drama_sound, all_paid_total_uids)) ->
  (forall id, is_Some (drama_sound !! id) <-> id ∈ split_comma drama_ids) /\
  (forall id sd, drama_sound !! id = Some sd ->
     exists j paid out0 out1,
       split_comma drama_ids !! j = Some id /\
       (forall j', (j < j')%nat -> split_comma drama_ids !! j' <> Some id) /\
       process_drama_id net fuel (strip id) (sched j) out0 = (out1, Ok (sd, paid))).
Proof.
  unfold runner. intros H.
  pose proof (runner_loop_dict _ _ _ _ _ _ _ _ _ _ _ H) as Hd. split.
  - intros id.
    destruct (Hd id) as [[Hnot Hlook] | (j & sd & paid & o0 & o1 & Hj & _ & Hsd & _)].
    + rewrite Hlook, lookup_empty. split; [by intros [? ?] | done].
    + rewrite Hsd. split; [intros _; by eapply list_elem_of_lookup_2 | eauto].
  - intros id sd Hsd.
    destruct (Hd id) as [[_ Hlook] | (j & sd' & paid & o0 & o1 & Hj & Hlast & Hsd' & Hp)].
    + rewrite Hlook, lookup_empty in Hsd. discriminate.
    + assert (sd' = sd) as -> by congruence.
      exists j, paid, o0, o1. auto.
Qed.

Lemma runner_dictionary_witness :
  exists out drama_sound all_paid_total_uids,
    runner two_episode_server 1 " 1" (fun _ => [0; 1]%nat)
    = (out, Ok (drama_sound, all_paid_total_uids)) /\
    (forall id, is_Some (drama_sound !! id) <-> id ∈ split_comma " 1") /\
    (forall id sd, drama_sound !! id = Some sd ->
       exists j paid out0 out1,
         split_comma " 1" !! j = Some id /\
         (forall j', (j < j')%nat -> split_comma " 1" !! j' <> Some id) /\
         process_drama_id two_episode_server 1 (strip id) [0; 1]%nat out0
         = (out1, Ok (sd, paid))).
Proof.
  do 3 eexists. split; [vm_compute; reflexivity |].
  eapply (runner_dictionary two_episode_server 1 " 1" (fun _ => [0; 1]%nat)).
  vm_compute. reflexivity.
Defined.

(** X16: the set [runner] returns holds the identifiers of the users seen,
    in the inline comments or in the comment thread, on a paid episode of a
    drama of the input line, and no other: a user seen on free episodes
    only is not in it. *)
Theorem runner_paid_users (net : network) (fuel : nat) (drama_ids : string)
    (sched : nat -> list nat) (out : files)
    (drama_sound : gmap string (list SoundDetail.t)) (all_paid_total_uids : gset Z) :
  runner net fuel drama_ids sched = (out, Ok (drama_sound, all_paid_total_uids)) ->
  forall u,
    u ∈ all_paid_total_uids <->
    exists j id sd paid out0 out1 d,
      split_comma drama_ids !! j = Some id /\
      process_drama_id net fuel (strip id) (sched j) out0 = (out1, Ok (sd, paid)) /\
      d ∈ sd /\ is_paid d = true /\
      (u ∈ SoundDetail.danmaku_uids d \/ u ∈ SoundDetail.comment_uids d).
Proof.
  unfold runner. intros H u.
  rewrite (runner_loop_paid _ _ _ _ _ _ _ _ _ _ _ H u). split.
  - intros [Hu | (j & id & sd & paid & o0 & o1 & Hj & Hp & Hu)];
      [by apply elem_of_empty in Hu |].
    destruct (process_drama_id_summary _ _ _ _ _ _ _ _ Hp)
      as (st & _ & _ & _ & (H1 & _) & Hun & Epaid & _).
    rewrite Epaid, H1 in Hu. apply elem_of_union_list in Hu as (X & HX & Hu).
    apply list_elem_of_fmap in HX as (d & -> & Hd).
    apply list_elem_of_filter in Hd as [Hpaid Hd].
    rewrite Forall_forall in Hun. rewrite (Hun d Hd), elem_of_union in Hu.
    exists j, id, sd, paid, o0, o1, d. auto.
  - intros (j & id & sd & paid & o0 & o1 & d & Hj & Hp & Hd & Hpaid & Hu).
    right. exists j, id, sd, paid, o0, o1.
    split; [exact Hj |]. split; [exact Hp |].
    destruct (process_drama_id_summary _ _ _ _ _ _ _ _ Hp)
      as (st & _ & _ & _ & (H1 & _) & Hun & Epaid & _).
    rewrite Epaid, H1. apply elem_of_union_list.
    exists (SoundDetail.total_sound_uids d). split.
    + apply list_elem_of_fmap. exists d. split; [reflexivity |].
      apply list_elem_of_filter. by split.
    + rewrite Forall_forall in Hun. by rewrite (Hun d Hd), elem_of_union.
Qed.

Lemma runner_paid_users_witness :
  exists out drama_sound all_paid_total_uids,
    runner two_episode_server 1 "1" (fun _ => [1; 0]%nat)
    = (out, Ok (drama_sound, all_paid_total_uids)) /\
    forall u,
      u ∈ all_paid_total_uids <->
      exists j id sd paid out0 out1 d,
        split_comma "1" !! j = Some id /\
        process_drama_id two_episode_server 1 (strip id) [1; 0]%nat out0
        = (out1, Ok (sd, paid)) /\
        d ∈ sd /\ is_paid d = true /\
        (u ∈ SoundDetail.danmaku_uids d \/ u ∈ SoundDetail.comment_uids d).
Proof.
  do 3 eexists. split; [vm_compute; reflexivity |].
  eapply (runner_paid_users two_episode_server 1 "1" (fun _ => [1; 0]%nat)).
  vm_compute. reflexivity.
Defined.

(** ** Input lines *)

Lemma list_ascii_of_string_app (s1 s2 : string) :
  list_ascii_of_string (s1 ++ s2)%string
  = (list_ascii_of_string s1 ++ list_ascii_of_string s2)%list.
Proof. induction s1 as [|c s1 IH]; simpl; [reflexivity | by rewrite IH]. Qed.

Lemma split_on_app sep cur l1 l2 :
  split_on sep cur (l1 ++ sep :: l2)%list
  = (split_on sep cur l1 ++ split_on sep [] l2)%list.
Proof.
  revert cur. induction l1 as [|c l1 IH]; intros cur; simpl.
  - by rewrite Ascii.eqb_refl.
  - destruct (Ascii.eqb c sep); simpl; by rewrite IH.
Qed.

Lemma split_comma_app (s1 s2 : string) :
  split_comma (s1 ++ "," ++ s2)%string
  = (split_comma s1 ++ split_comma s2)%list.
Proof.
  unfold split_comma. rewrite list_ascii_of_string_app. simpl.
  apply split_on_app.
Qed.

Lemma runner_loop_app net fuel ids1 ids2 k sched ds ap out :
  runner_loop net fuel (ids1 ++ ids2)%list k sched ds ap out
  = match runner_loop net fuel ids1 k sched ds ap out with
    | (out1, Ok (ds1, ap1)) =>
        runner_loop net fuel ids2 (k + length ids1)%nat sched ds1 ap1 out1
    | (out1, Raise e) => (out1, Raise e)
    | (out1, Diverge) => (out1, Diverge)
    end.
Proof.
  revert k ds ap out. induction ids1 as [|id ids1 IH]; intros k ds ap out.
  - simpl. by rewrite Nat.add_0_r.
  - cbn [app runner_loop length].
    destruct (process_drama_id net fuel (strip id) (sched k) out)
      as [out1 [[sd paid]| |]]; try reflexivity.
    rewrite IH. by replace (S k + length ids1)%nat with (k + S (length ids1))%nat by lia.
Qed.

(** X17: a run on two input lines joined by a comma is the run on the
    first line followed by the loop on the fields of the second one, from
    the files, the dictionary and the set the first run left; when the
    first run fails, the second line is not looked at and nothing more is
    written. *)
Theorem runner_joined_lines (net : network) (fuel : nat) (line1 line2 : string)
    (sched : nat -> list nat) :
  runner net fuel (line1 ++ "," ++ line2)%string sched
  = match runner net fuel line1 sched with
    | (out1, Ok (drama_sound, all_paid_total_uids)) =>
        runner_loop net fuel (split_comma line2) (length (split_comma line1)) sched
          drama_sound all_paid_total_uids out1
    | (out1, Raise e) => (out1, Raise e)
    | (out1, Diverge) => (out1, Diverge)
    end.
Proof. unfold runner. by rewrite split_comma_app, runner_loop_app. Qed.

(** * A failed detail fetch *)

Lemma process_sound_detail_failed net fuel s d :
  fetch_failed (net (getsound (Sound.sound_id s))) ->
  result (process_sound net fuel s) = Ok d ->
  SoundDetail.detail d = None.
Proof.
  intros Hfail. unfold process_sound. rewrite (get_sound_detail_failed _ _ Hfail).
  rewrite io_bind_IO. intros H. simpl in H.
  apply io_bind_Ok in H as [dan [_ H]].
  apply io_bind_Ok in H as [com [_ H]].
  injection H as Hd. by subst d.
Qed.

(** X18: an episode detail that cannot be fetched loses its drama.
    [get_sound_detail] absorbs the failure and returns the empty dict, but
    the loop of [process_drama_id] reads [create_time] from it: when the
    detail request of a listed episode fails, [process_drama_id] does not
    return, in any completion order, and writes no row, neither for the
    episodes that were fetched nor for the drama. *)
Theorem failed_detail_fetch_loses_drama (net : network) (fuel : nat)
    (drama_id : string) (order : list nat) (out : files)
    (sl : list Sound.t) (name price vc cat : json) (s : Sound.t) :
  result (get_drama_sound_lists net drama_id) = Ok (sl, name, price, vc, cat) ->
  completion_order (length sl) order ->
  s ∈ sl ->
  fetch_failed (net (getsound (Sound.sound_id s))) ->
  exists o,
    process_drama_id net fuel drama_id order out = (out, o) /\ is_Ok o = false.
Proof.
  intros Hlist Horder Hs Hfail.
  pose proof (process_drama_id_files net fuel drama_id order out) as Hf.
  destruct (process_drama_id net fuel drama_id order out) as [out' [[sd paid]| |]] eqn:E.
  - destruct (process_drama_id_Ok_episodes _ _ _ _ _ _ _ _ _ _ _ _ _ Hlist Horder E)
      as [Hall _].
    destruct (Hall s Hs) as (d & dt & n & Hd & Hdt & _).
    rewrite (process_sound_detail_failed _ _ _ _ Hfail Hd) in Hdt. discriminate.
  - subst out'. by eexists.
  - subst out'. by eexists.
Qed.

Lemma failed_detail_fetch_loses_drama_witness :
  exists o,
    process_drama_id detail_down_server 1 "1" [1; 0]%nat (Files [Header] [Header])
    = (Files [Header] [Header], o) /\ is_Ok o = false.
Proof.
  eapply (failed_detail_fetch_loses_drama detail_down_server 1 "1" [1; 0]%nat
            (Files [Header] [Header]) _ _ _ _ _
            (Sound.Make (JInt 101) (JStr "A") (JInt 0))).
  - vm_compute. reflexivity.
  - unfold completion_order. simpl. apply perm_swap.
  - apply list_elem_of_here.
  - left. reflexivity.
Defined.

(** * Failures of the fetches of an episode *)

(** A comment fetch that raises makes [process_sound] raise. *)
Lemma process_sound_comments_raise net fuel s e :
  result (fetch_all_uids_by_comments net fuel (Sound.sound_id s)) = Raise e ->
  exists e',
    result (process_sound net fuel s) = Raise e' /\
    (is_Ok (result (get_sound_detail net (Sound.sound_id s))) = true ->
     is_Ok (result (fetch_all_danmakus net (Sound.sound_id s))) = true ->
     e' = e).
Proof.
  intros He. unfold process_sound.
  pose proof (get_sound_detail_not_Diverge net (Sound.sound_id s)) as Hd.
  pose proof (fetch_all_danmakus_not_Diverge net (Sound.sound_id s)) as Hm.
  rewrite (io_eta (get_sound_detail net _)).
  destruct (result (get_sound_detail net (Sound.sound_id s))) as [detail|e1|];
    [|exists e1; split; [reflexivity | discriminate] | done].
  rewrite io_bind_IO, (io_eta (fetch_all_danmakus net _)).
  destruct (result (fetch_all_danmakus net (Sound.sound_id s))) as [dan|e2|];
    [|exists e2; split; [reflexivity | discriminate] | done].
  rewrite io_bind_IO. exists e. split; [|done]. simpl.
  unfold mbind at 1, io_bind. by rewrite He.
Qed.

(** An episode whose task does not return keeps the drama from being
    processed, and nothing is written. *)
Lemma process_drama_id_episode_fails net fuel drama_id order out sl name price vc cat s :
  result (get_drama_sound_lists net drama_id) = Ok (sl, name, price, vc, cat) ->
  completion_order (length sl) order ->
  s ∈ sl ->
  is_Ok (result (process_sound net fuel s)) = false ->
  exists o, process_drama_id net fuel drama_id order out = (out, o) /\ is_Ok o = false.
Proof.
  intros Hlist Horder Hs Hfail.
  pose proof (process_drama_id_files net fuel drama_id order out) as Hf.
  destruct (process_drama_id net fuel drama_id order out) as [out' [[sd paid]| |]] eqn:E.
  - destruct (process_drama_id_Ok_episodes _ _ _ _ _ _ _ _ _ _ _ _ _ Hlist Horder E)
      as [Hall _].
    destruct (Hall s Hs) as (d & _ & _ & Hd & _). rewrite Hd in Hfail. discriminate.
  - subst out'. by eexists.
  - subst out'. by eexists.
Qed.

(** C1, as the code has it.  For the inline-comment fetch: a transport
    failure, an error status or a body that is not XML is absorbed, the
    fetch returns the empty set.  So degrading such fetches to failures
    never aborts a drama or a run that would otherwise be processed:
    [process_drama_id] still writes its summary row and every episode row,
    the affected records differing in their inline sets only, and [runner]
    still completes, with a summary row for every drama identifier and as
    many rows in both files.  For the comment fetch: nothing is absorbed.
    Whenever it raises for a listed episode, [process_sound] raises, with
    the same exception when the two other fetches return;
    [process_drama_id] does not return, in any completion order, and writes
    no row; and a run that comes to this drama does not complete. *)
Theorem danmaku_failures_are_absorbed (net net' : network) (fuel : nat) :
  (danmaku_degraded net net' ->
   (forall sid, danmaku_failed (net' (getdm sid)) ->
      fetch_all_danmakus net' sid = IO [getdm sid] (Ok ∅)) /\
   (forall drama_id order out out1 sl name price vc cat sd paid,
      result (get_drama_sound_lists net drama_id) = Ok (sl, name, price, vc, cat) ->
      completion_order (length sl) order ->
      process_drama_id net fuel drama_id order out = (out1, Ok (sd, paid)) ->
      exists out1' sd' paid',
        process_drama_id net' fuel drama_id order out = (out1', Ok (sd', paid')) /\
        Forall2 (degraded_record net') sd sd' /\
        length (drama_file out1') = S (length (drama_file out)) /\
        length (sound_file out1') = length (sound_file out1)) /\
   (forall drama_ids sched out r,
      valid_schedule net (split_comma drama_ids) 0 sched ->
      runner net fuel drama_ids sched = (out, Ok r) ->
      exists out' r',
        runner net' fuel drama_ids sched = (out', Ok r') /\
        length (drama_file out') = S (length (split_comma drama_ids)) /\
        length (drama_file out') = length (drama_file out) /\
        length (sound_file out') = length (sound_file out))) /\
  (forall drama_id sl name price vc cat s e,
     result (get_drama_sound_lists net drama_id) = Ok (sl, name, price, vc, cat) ->
     s ∈ sl ->
     result (fetch_all_uids_by_comments net fuel (Sound.sound_id s)) = Raise e ->
     (exists e',
        result (process_sound net fuel s) = Raise e' /\
        (is_Ok (result (get_sound_detail net (Sound.sound_id s))) = true ->
         is_Ok (result (fetch_all_danmakus net (Sound.sound_id s))) = true ->
         e' = e)) /\
     (forall order out,
        completion_order (length sl) order ->
        exists o,
          process_drama_id net fuel drama_id order out = (out, o) /\ is_Ok o = false) /\
     (forall drama_ids sched j raw,
        split_comma drama_ids !! j = Some raw ->
        strip raw = drama_id ->
        completion_order (length sl) (sched j) ->
        is_Ok (runner net fuel drama_ids sched).2 = false)).
Proof.
  split.
  - intros Hdeg. split; [|split].
    + intros sid. apply fetch_all_danmakus_failed.
    + intros drama_id order out out1 sl name price vc cat sd paid Hlist Horder Hrun.
      destruct (process_drama_id_degraded _ _ _ _ _ _ _ _ _ _ _ _ _ _
                  Hdeg Hlist Horder Hrun) as (_ & Hs1 & Hnet').
      destruct (Hnet' out) as (out1' & sd' & paid' & Hrun' & Hsd & Hd & Hs).
      exists out1', sd', paid'. repeat split; try assumption. lia.
    + intros drama_ids sched out r Hsched Hrun. unfold runner in *.
      destruct (runner_loop_degraded net net' fuel sched Hdeg _ _ _ _ _ _ _ Hsched Hrun)
        as (Hd & n & Hs & Hnet').
      destruct (Hnet' ∅ ∅ (Files [Header] [Header])) as (o2 & r2 & Hrun2 & Hd2 & Hs2).
      exists o2, r2. simpl in *. repeat split; try assumption; lia.
  - intros drama_id sl name price vc cat s e Hlist Hs He.
    destruct (process_sound_comments_raise net fuel s e He) as (e' & He' & Hsame).
    assert (is_Ok (result (process_sound net fuel s)) = false) as Hfail
      by by rewrite He'.
    split; [by exists e' |]. split.
    + intros order out Horder.
      by eapply process_drama_id_episode_fails.
    + intros drama_ids sched j raw Hj Hraw Horder. subst drama_id.
      destruct (runner net fuel drama_ids sched) as [out [r| |]] eqn:Erun;
        try reflexivity.
      unfold runner in Erun.
      pose proof (runner_loop_all_Ok _ _ _ _ _ _ _ _ _ _ Erun j raw Hj) as Hok.
      destruct (process_drama_id_episode_fails net fuel (strip raw) (sched j)
                  (Files [] []) sl name price vc cat s Hlist Horder Hs Hfail)
        as (o & Ho & Hno).
      simpl in Hok. rewrite Ho in Hok. simpl in Hok. congruence.
Qed.

Lemma danmaku_failures_are_absorbed_witness :
  (exists out' r',
     runner danmaku_down_server 1 "1" (fun _ => [0; 1]%nat) = (out', Ok r') /\
     length (drama_file out') = S (length (split_comma "1")) /\
     length (drama_file out')
     = length (drama_file (runner two_episode_server 1 "1" (fun _ => [0; 1]%nat)).1) /\
     length (sound_file out')
     = length (sound_file (runner two_episode_server 1 "1" (fun _ => [0; 1]%nat)).1)) /\
  (exists o,
     process_drama_id comments_down_server 1 "1" [1; 0]%nat (Files [Header] [Header])
     = (Files [Header] [Header], o) /\ is_Ok o = false) /\
  is_Ok (runner comments_down_server 1 "1" (fun _ => [0; 1]%nat)).2 = false.
Proof.
  split; [|split].
  - eapply (proj2 (proj2 (proj1 (danmaku_failures_are_absorbed two_episode_server
                                   danmaku_down_server 1)
                            (fail_danmaku_degraded (Z.eqb 101) two_episode_server)))).
    + intros j raw sl name price vc cat Hj Hlist.
      destruct j as [|j]; [|destruct j; discriminate].
      injection Hj as <-. vm_compute in Hlist. injection Hlist as <- _ _ _ _.
      unfold completion_order. reflexivity.
    + vm_compute. reflexivity.
  - apply (proj1 (proj2 (proj2 (danmaku_failures_are_absorbed comments_down_server
                                  comments_down_server 1)
                           "1"
                           [Sound.Make (JInt 101) (JStr "A") (JInt 0);
                            Sound.Make (JInt 102) (JStr "B") (JInt 1)]
                           (JStr "D") (JInt 199) (JInt 15) (JStr "drama")
                           (Sound.Make (JInt 102) (JStr "B") (JInt 1))
                           ConnectionError
                           eq_refl
                           (list_elem_of_further _ _ _ (list_elem_of_here _ _))
                           eq_refl))).
    unfold completion_order. simpl. apply perm_swap.
  - apply (proj2 (proj2 (proj2 (danmaku_failures_are_absorbed comments_down_server
                                  comments_down_server 1)
                           "1"
                           [Sound.Make (JInt 101) (JStr "A") (JInt 0);
                            Sound.Make (JInt 102) (JStr "B") (JInt 1)]
                           (JStr "D") (JInt 199) (JInt 15) (JStr "drama")
                           (Sound.Make (JInt 102) (JStr "B") (JInt 1))
                           ConnectionError
                           eq_refl
                           (list_elem_of_further _ _ _ (list_elem_of_here _ _))
                           eq_refl))
             "1" (fun _ => [0; 1]%nat) 0%nat "1").
    + reflexivity.
    + reflexivity.
    + unfold completion_order. reflexivity.
Defined.
